(** * pyrobolearn: the [Policy] class of [pyrobolearn/policies/policy.py]

    A shallow embedding of the policy object and of its methods.  The policy
    is orchestration code: it validates what is assigned to it, counts ticks,
    and on a prediction tick drives its collaborators (the state, the
    processors, the inner model or approximator, the actions).  The
    collaborators are Python objects defined elsewhere; every method call,
    property read and attribute assignment made on one of them is an
    external call answered by an arbitrary handler and recorded in a trace,
    so that the order and the number of those calls can be stated. *)

From stdpp Require Import base list strings.
From Stdlib Require Import ZArith Lia.

Open Scope string_scope.
Open Scope list_scope.
Open Scope Z_scope.

(** ** Exceptions and results *)

Inductive exn :=
| TypeError
| AttributeError
| NameError
| ZeroDivisionError
| ValueError
| RuntimeError
| IndexError
| Exception (what : string).

Inductive result (A : Type) :=
| Ok (a : A)
| Raise (e : exn).
Arguments Ok {A} a.
Arguments Raise {A} e.

Definition is_ok {A} (r : result A) : bool :=
  match r with Ok _ => true | Raise _ => false end.

(** ** numpy and torch

    The two array libraries are external.  The policy uses a handful of their
    functions; they are an interface here, each function partial where the
    library one can raise. *)

Class ArrayLib := {
  ndarray : Type;
  tensor : Type;
  (** [np.argmax(a)] *)
  np_argmax : ndarray -> result Z;
  (** [np.array([i, ...])] *)
  np_array : list Z -> ndarray;
  (** [torch.argmax(t, dim=0, keepdim=True)] *)
  torch_argmax : tensor -> result tensor;
  (** [t.requires_grad] *)
  requires_grad : tensor -> bool;
  (** [t.detach()] *)
  detach : tensor -> tensor;
  (** [t.numpy()] *)
  numpy : tensor -> result ndarray
}.

(** ** Python values *)

(** The classes of the framework that the policy tests with [isinstance]. *)
Inductive pyclass := State | Action | Model | Approximator.

Definition pyclass_eqb (c d : pyclass) : bool :=
  match c, d with
  | State, State | Action, Action | Model, Model
  | Approximator, Approximator => true
  | _, _ => false
  end.

Section Values.
Context `{ArrayLib}.

#[warnings="-register-all"]
Inductive pyval :=
| PyNone
| PyBool (b : bool)
| PyInt (z : Z)
| PyStr (s : string)
| PyList (l : list pyval)
| PyDict (items : list (string * pyval))
| PyArray (a : ndarray)
| PyTensor (t : tensor)
| PyExc (e : exn)
(** an instance of a class of the framework (or of any other class): the
    framework classes it is an instance of, and its identity *)
| PyObj (classes : list pyclass) (id : nat)
(** Modelled from the spec: the class [Approximator] is declared in
    [pyrobolearn.approximators], which is not among the sources; the value
    [Approximator(inputs=i, outputs=o, model=m)] is the record of its three
    arguments, "an Approximator wrapping that object whose inputs are the
    policy's states and whose outputs are the policy's actions". *)
| PyApproximator (inputs outputs model : pyval).

(** [isinstance(v, c)] for a framework class [c]. *)
Definition isinstance (v : pyval) (c : pyclass) : bool :=
  match v with
  | PyObj classes _ => existsb (pyclass_eqb c) classes
  | PyApproximator _ _ _ => pyclass_eqb c Approximator
  | _ => false
  end.

(** [isinstance(v, int)]: [bool] is a subclass of [int]. *)
Definition isinstance_int (v : pyval) : bool :=
  match v with PyInt _ | PyBool _ => true | _ => false end.

Definition isinstance_list (v : pyval) : bool :=
  match v with PyList _ => true | _ => false end.

(** The integer an [int] instance stands for in arithmetic. *)
Definition int_value (v : pyval) : option Z :=
  match v with
  | PyInt z => Some z
  | PyBool b => Some (if b then 1 else 0)
  | _ => None
  end.

(** Values that carry user-defined attributes and methods; the builtin
    values have none of the attributes the policy asks for. *)
Definition is_object (v : pyval) : bool :=
  match v with
  | PyObj _ _ | PyApproximator _ _ _ => true
  | _ => false
  end.

(** [a % b] on integers: Python's remainder has the sign of the divisor, as
    [Z.modulo] has, and a zero divisor raises. *)
Definition py_mod (a : Z) (b : pyval) : result Z :=
  match int_value b with
  | Some r => if r =? 0 then Raise ZeroDivisionError else Ok (a mod r)
  | None => Raise TypeError
  end.

(** ** The policy object *)

Record Policy := {
  _states : pyval;
  _actions : pyval;
  _model : pyval;
  train_mode : bool;
  _rate : pyval;
  cnt : Z;
  action_data : pyval;
  preprocessors : list pyval;
  postprocessors : list pyval
}.

(** ** Calls on collaborators

    [call A] is a call whose normal result has type [A]. *)

Inductive call : Type -> Type :=
(** [state.merged_data] *)
| merged_data (state : pyval) : call (list pyval)
(** [processor(x)] *)
| processor_call (processor x : pyval) : call pyval
(** [processor.reset()] *)
| processor_reset (processor : pyval) : call unit
(** [model.predict(x, to_numpy=.., return_logits=.., set_output_data=..)] *)
| approximator_predict (model x : pyval)
    (to_numpy return_logits set_output_data : bool) : call pyval
(** [model.predict(x, to_numpy=..)] *)
| model_predict (model x : pyval) (to_numpy : bool) : call pyval
(** [model.<name>()] for the argument-free methods *)
| model_method (model : pyval) (name : string) : call pyval
(** [iter(actions)], all the items it yields *)
| actions_iter (actions : pyval) : call (list pyval)
(** [action.is_discrete()] *)
| is_discrete (action : pyval) : call bool
(** [action.data = d] *)
| set_data (action : pyval) (d : ndarray) : call unit
(** [action.torch_data = t] *)
| set_torch_data (action : pyval) (t : tensor) : call unit
(** [actions()] *)
| actions_call (actions : pyval) : call pyval.

Inductive event :=
| Event {A : Type} (c : call A) (r : result A).

End Values.

(** The collaborators: a state of their own and an answer to every call. *)
Class Collaborators `{ArrayLib} := {
  env : Type;
  respond : forall A, call A -> env -> result A * env
}.

(** ** A state and exception monad

    A program over a state [S] returns a result or raises, and leaves a
    state either way: what was assigned before a [raise] stays assigned. *)

Definition prog (S A : Type) : Type := S -> result A * S.

Definition ret {S A} (a : A) : prog S A := fun s => (Ok a, s).

Definition raise {S A} (e : exn) : prog S A := fun s => (Raise e, s).

Definition bind {S A B} (c : prog S A) (k : A -> prog S B) : prog S B :=
  fun s =>
    match c s with
    | (Ok a, s') => k a s'
    | (Raise e, s') => (Raise e, s')
    end.

Definition gets {S A} (f : S -> A) : prog S A := fun s => (Ok (f s), s).

Definition modify {S} (f : S -> S) : prog S unit := fun s => (Ok tt, f s).

Definition lift_result {S A} (r : result A) : prog S A := fun s => (r, s).

Declare Scope prog_scope.
Delimit Scope prog_scope with prog.
Bind Scope prog_scope with prog.

Notation "x <- c ;; k" := (bind c (fun x => k))
  (at level 100, c at next level, right associativity) : prog_scope.
Notation "c ;; k" := (bind c (fun _ => k))
  (at level 100, right associativity) : prog_scope.

Open Scope prog_scope.

(** [if c: body] *)
Definition when {S} (c : bool) (body : prog S unit) : prog S unit :=
  if c then body else ret tt.

(** [for x in l: body(x)] *)
Fixpoint for_each {S A} (l : list A) (body : A -> prog S unit) : prog S unit :=
  match l with
  | [] => ret tt
  | x :: l' => body x ;; for_each l' body
  end.

(** [for x in l: b = body(x, b)], the loop threading a local variable. *)
Fixpoint for_fold {S A B} (l : list A) (body : A -> B -> prog S B) (b : B)
  : prog S B :=
  match l with
  | [] => ret b
  | x :: l' => b' <- body x b ;; for_fold l' body b'
  end.

(** [enumerate(l)], counting from [i]. *)
Fixpoint enumerate_from {A} (i : nat) (l : list A) : list (nat * A) :=
  match l with
  | [] => []
  | x :: l' => (i, x) :: enumerate_from (S i) l'
  end.

Definition enumerate {A} (l : list A) : list (nat * A) := enumerate_from 0 l.

(** [zip(a, b)] stops with the shorter of the two. *)
Definition zip {A B} (a : list A) (b : list B) : list (A * B) := combine a b.

(** ** Attribute assignment on the policy object *)

Section Attributes.
Context `{ArrayLib}.

Definition with_states (self : Policy) (v : pyval) : Policy :=
  {| _states := v; _actions := _actions self; _model := _model self;
     train_mode := train_mode self; _rate := _rate self; cnt := cnt self;
     action_data := action_data self; preprocessors := preprocessors self;
     postprocessors := postprocessors self |}.

Definition with_actions (self : Policy) (v : pyval) : Policy :=
  {| _states := _states self; _actions := v; _model := _model self;
     train_mode := train_mode self; _rate := _rate self; cnt := cnt self;
     action_data := action_data self; preprocessors := preprocessors self;
     postprocessors := postprocessors self |}.

Definition with_model (self : Policy) (v : pyval) : Policy :=
  {| _states := _states self; _actions := _actions self; _model := v;
     train_mode := train_mode self; _rate := _rate self; cnt := cnt self;
     action_data := action_data self; preprocessors := preprocessors self;
     postprocessors := postprocessors self |}.

Definition with_train_mode (self : Policy) (b : bool) : Policy :=
  {| _states := _states self; _actions := _actions self; _model := _model self;
     train_mode := b; _rate := _rate self; cnt := cnt self;
     action_data := action_data self; preprocessors := preprocessors self;
     postprocessors := postprocessors self |}.

Definition with_rate (self : Policy) (v : pyval) : Policy :=
  {| _states := _states self; _actions := _actions self; _model := _model self;
     train_mode := train_mode self; _rate := v; cnt := cnt self;
     action_data := action_data self; preprocessors := preprocessors self;
     postprocessors := postprocessors self |}.

Definition with_cnt (self : Policy) (n : Z) : Policy :=
  {| _states := _states self; _actions := _actions self; _model := _model self;
     train_mode := train_mode self; _rate := _rate self; cnt := n;
     action_data := action_data self; preprocessors := preprocessors self;
     postprocessors := postprocessors self |}.

Definition with_action_data (self : Policy) (v : pyval) : Policy :=
  {| _states := _states self; _actions := _actions self; _model := _model self;
     train_mode := train_mode self; _rate := _rate self; cnt := cnt self;
     action_data := v; preprocessors := preprocessors self;
     postprocessors := postprocessors self |}.

Definition with_preprocessors (self : Policy) (l : list pyval) : Policy :=
  {| _states := _states self; _actions := _actions self; _model := _model self;
     train_mode := train_mode self; _rate := _rate self; cnt := cnt self;
     action_data := action_data self; preprocessors := l;
     postprocessors := postprocessors self |}.

Definition with_postprocessors (self : Policy) (l : list pyval) : Policy :=
  {| _states := _states self; _actions := _actions self; _model := _model self;
     train_mode := train_mode self; _rate := _rate self; cnt := cnt self;
     action_data := action_data self; preprocessors := preprocessors self;
     postprocessors := l |}.

Definition is_None (v : pyval) : bool :=
  match v with PyNone => true | _ => false end.

(** ** Properties of the policy: getters and setters

    These touch the policy object only: programs over [Policy]. *)

(** [Policy.states] *)
Definition states : prog Policy pyval := gets _states.

(** [Policy.states.setter] *)
Definition set_states (states : pyval) : prog Policy unit :=
  when (negb (is_None states))
    (when (negb (isinstance states State)) (raise TypeError)) ;;
  modify (fun self => with_states self states).

(** [Policy.actions] *)
Definition actions : prog Policy pyval := gets _actions.

(** [Policy.actions.setter] *)
Definition set_actions (actions : pyval) : prog Policy unit :=
  when (negb (isinstance actions Action)) (raise TypeError) ;;
  modify (fun self => with_actions self actions).

(** [Policy.model] *)
Definition model : prog Policy pyval := gets _model.

(** [Policy.model.setter] *)
Definition set_model (model : pyval) : prog Policy unit :=
  model <-
    (if negb (is_None model) && negb (isinstance model Approximator) then
       if isinstance model Model then
         inputs <- states ;;
         outputs <- actions ;;
         ret (PyApproximator inputs outputs model)
       else ret model
     else ret model) ;;
  modify (fun self => with_model self model).

(** [Policy.rate] *)
Definition rate : prog Policy pyval := gets _rate.

(** [Policy.rate.setter] *)
Definition set_rate (rate : pyval) : prog Policy unit :=
  when (negb (isinstance_int rate)) (raise TypeError) ;;
  modify (fun self => with_rate self rate).

(** The [preprocessors] and [postprocessors] arguments of the constructor:
    [None], one processor, or an iterable of processors. *)
Inductive processors_arg :=
| NoProcessors
| OneProcessor (processor : pyval)
| Processors (l : list pyval).

(** [if p is None: p = []], [if not isinstance(p, Iterable): p = [p]] *)
Definition as_processor_list (p : processors_arg) : list pyval :=
  match p with
  | NoProcessors => []
  | OneProcessor x => [x]
  | Processors l => l
  end.

(** [Policy.__init__], run on the object being built. *)
Definition __init__ (states actions model rate : pyval)
    (preprocessors postprocessors : processors_arg) : prog Policy unit :=
  set_states states ;;
  set_actions actions ;;
  set_model model ;;
  modify (fun self => with_train_mode self false) ;;
  set_rate rate ;;
  modify (fun self => with_cnt self 0) ;;
  modify (fun self => with_action_data self PyNone) ;;
  modify (fun self =>
            with_preprocessors self (as_processor_list preprocessors)) ;;
  modify (fun self =>
            with_postprocessors self (as_processor_list postprocessors)).

(** An object before [__init__] has assigned anything to it; no method
    reads an attribute of it before assigning it. *)
Definition new_object : Policy :=
  {| _states := PyNone; _actions := PyNone; _model := PyNone;
     train_mode := false; _rate := PyNone; cnt := 0; action_data := PyNone;
     preprocessors := []; postprocessors := [] |}.

(** [Policy(states, actions, model, rate, preprocessors, postprocessors)] *)
Definition new_Policy (states actions model rate : pyval)
    (preprocessors postprocessors : processors_arg) : result Policy :=
  match __init__ states actions model rate preprocessors postprocessors
          new_object with
  | (Ok _, self) => Ok self
  | (Raise e, _) => Raise e
  end.

(** [Policy.__convert_to_numpy] *)
Definition __convert_to_numpy (x : pyval) (to_numpy : bool) : result pyval :=
  match x with
  | PyTensor t =>
      if to_numpy then
        if requires_grad t then
          match numpy (detach t) with
          | Ok a => Ok (PyArray a)
          | Raise e => Raise e
          end
        else
          match numpy t with
          | Ok a => Ok (PyArray a)
          | Raise e => Raise e
          end
      else Ok x
  | _ => Ok x
  end.

End Attributes.

(** ** The policy among its collaborators *)

Section Methods.
Context {lib : ArrayLib} {collaborators : Collaborators}.

(** The policy object, the state of the collaborators, and the calls made
    on them so far, oldest first. *)
Record machine := {
  self : Policy;
  world : env;
  trace : list event
}.

Definition M (A : Type) : Type := prog machine A.

(** A program on the policy object alone, run inside the machine. *)
Definition on_self {A} (c : prog Policy A) : M A :=
  fun m =>
    let (r, p) := c (self m) in
    (r, {| self := p; world := world m; trace := trace m |}).

(** A call on a collaborator: answered by [respond], and recorded. *)
Definition invoke {A} (c : call A) : M A :=
  fun m =>
    let (r, w) := respond A c (world m) in
    (r, {| self := self m; world := w; trace := trace m ++ [Event c r] |}).

(** [receiver.attribute] and [receiver.method(...)]: a builtin value has no
    such attribute. *)
Definition call_method {A} (receiver : pyval) (c : call A) : M A :=
  if is_object receiver then invoke c else raise AttributeError.

(** [callee(...)], and [iter(callee)]: a builtin value of the model is
    neither. *)
Definition call_object {A} (callee : pyval) (c : call A) : M A :=
  if is_object callee then invoke c else raise TypeError.

(** [raise v] *)
Definition raise_value {A} (v : pyval) : M A :=
  match v with
  | PyExc e => raise e
  | _ => raise TypeError
  end.

(** [Policy.is_recurrent] *)
Definition is_recurrent : M pyval :=
  model <- on_self model ;;
  v <- call_method model (model_method model "is_recurrent") ;;
  raise_value v.

(** [Policy.parameters] *)
Definition parameters : M pyval :=
  model <- on_self model ;;
  if is_None model then ret (PyList [])
  else call_method model (model_method model "parameters").

(** [Policy.named_parameters] *)
Definition named_parameters : M pyval :=
  model <- on_self model ;;
  if is_None model then ret (PyList [])
  else call_method model (model_method model "named_parameters").

(** [Policy.list_parameters] *)
Definition list_parameters : M pyval :=
  model <- on_self model ;;
  if is_None model then ret (PyList [])
  else call_method model (model_method model "list_parameters").

(** [Policy.hyperparameters] *)
Definition hyperparameters : M pyval :=
  model <- on_self model ;;
  if is_None model then ret (PyList [])
  else call_method model (model_method model "hyperparameters").

(** [Policy.named_hyperparameters] *)
Definition named_hyperparameters : M pyval :=
  model <- on_self model ;;
  if is_None model then ret (PyList [])
  else call_method model (model_method model "named_hyperparameters").

(** [Policy.list_hyperparameters] *)
Definition list_hyperparameters : M pyval :=
  model <- on_self model ;;
  if is_None model then ret PyNone
  else call_method model (model_method model "list_hyperparameters").

(** [Policy.train] *)
Definition train (mode : bool) : M unit :=
  on_self (modify (fun self => with_train_mode self mode)).

(** [Policy.reset] *)
Definition reset (reset_processors : bool) : M unit :=
  pre <- on_self (gets preprocessors) ;;
  for_each pre (fun processor =>
    call_method processor (processor_reset processor)) ;;
  post <- on_self (gets postprocessors) ;;
  for_each post (fun processor =>
    call_method processor (processor_reset processor)) ;;
  model <- on_self model ;;
  call_method model (model_method model "reset") ;;
  ret tt.

(** [Policy._predict] *)
Definition _predict (state : pyval)
    (to_numpy return_logits set_output_data : bool) : M pyval :=
  model <- on_self model ;;
  if isinstance model Approximator then
    call_method model
      (approximator_predict model state to_numpy return_logits
         set_output_data)
  else
    call_method model (model_predict model state to_numpy).

(** [self.action_data = v] *)
Definition set_action_data (v : pyval) : M unit :=
  on_self (modify (fun self => with_action_data self v)).

(** [self.action_data[idx] = v] *)
Definition setitem_action_data (idx : nat) (v : pyval) : M unit :=
  data <- on_self (gets action_data) ;;
  match data with
  | PyList l =>
      if bool_decide (idx < length l)%nat
      then set_action_data (PyList (<[idx := v]> l))
      else raise IndexError
  | _ => raise TypeError
  end.

(** The body of the loop of [act] over [enumerate(zip(actions, data))]. *)
Definition dispatch (to_numpy return_logits : bool)
    (item : nat * (pyval * pyval)) : M unit :=
  let '(idx, (action, data)) := item in
  discrete <- call_method action (is_discrete action) ;;
  if discrete : bool then
    match data with
    | PyArray a =>
        i <- lift_result (np_argmax a) ;;
        let discrete_data := np_array [i] in
        call_method action (set_data action discrete_data) ;;
        when (negb return_logits)
          (setitem_action_data idx (PyArray discrete_data))
    | PyTensor t =>
        discrete_data <- lift_result (torch_argmax t) ;;
        call_method action (set_torch_data action discrete_data) ;;
        if negb return_logits then
          v <- lift_result
                 (__convert_to_numpy (PyTensor discrete_data) to_numpy) ;;
          setitem_action_data idx v
        else
          v <- lift_result (__convert_to_numpy data to_numpy) ;;
          setitem_action_data idx v
    | _ => raise TypeError
    end
  else
    match data with
    | PyArray a => call_method action (set_data action a)
    | PyTensor t =>
        call_method action (set_torch_data action t) ;;
        v <- lift_result (__convert_to_numpy data to_numpy) ;;
        setitem_action_data idx v
    | _ => raise TypeError
    end.

(** The items of [self.action_data] when it is a list. *)
Definition list_items (v : pyval) : list pyval :=
  match v with PyList l => l | _ => [] end.

(** The part of [act] under [if (self.cnt % self.rate) == 0].  The loop
    over [enumerate(zip(self.actions, self.action_data))] takes the actions
    that [iter(self.actions)] yields in one call; the body assigns to
    [self.action_data[idx]] only, the item [zip] has already handed out, so
    the data of each pair is the item the list held when the loop began. *)
Definition predict_tick (state : pyval) (to_numpy return_logits : bool)
  : M unit :=
  state <-
    (if is_None state then on_self states else ret state) ;;
  state <-
    (if isinstance state State then
       state <- call_method state (merged_data state) ;;
       match state with
       | [x] => ret x
       | _ => ret (PyList state)
       end
     else ret state) ;;
  pre <- on_self (gets preprocessors) ;;
  state <- for_fold pre (fun processor state =>
             call_object processor (processor_call processor state)) state ;;
  data <- _predict state false true false ;;
  set_action_data data ;;
  post <- on_self (gets postprocessors) ;;
  for_each post (fun processor =>
    data <- on_self (gets action_data) ;;
    data <- call_object processor (processor_call processor data) ;;
    set_action_data data) ;;
  data <- on_self (gets action_data) ;;
  when (negb (isinstance_list data)) (set_action_data (PyList [data])) ;;
  actions <- on_self actions ;;
  leaves <- call_object actions (actions_iter actions) ;;
  data <- on_self (gets action_data) ;;
  for_each (enumerate (zip leaves (list_items data)))
    (dispatch to_numpy return_logits) ;;
  data <- on_self (gets action_data) ;;
  match data with
  | PyList [x] => set_action_data x
  | _ => ret tt
  end.

(** [Policy.act] *)
Definition act (state : pyval)
    (deterministic to_numpy return_logits apply_action : bool) : M pyval :=
  cnt_ <- on_self (gets cnt) ;;
  rate <- on_self rate ;;
  tick <- lift_result (py_mod cnt_ rate) ;;
  when (tick =? 0) (predict_tick state to_numpy return_logits) ;;
  when apply_action
    (actions <- on_self actions ;;
     call_object actions (actions_call actions) ;;
     ret tt) ;;
  on_self (modify (fun self => with_cnt self (cnt self + 1))) ;;
  on_self (gets action_data).

End Methods.

(** ** Calling the policy: [Policy.__call__]

    The body of [__call__] is [return self.act( *args, **kwargs)]: it reads
    the names [args] and [kwargs].  A name read in a function body is looked
    up among the function's local variables (here its parameters), then
    among the globals of the module, then among the builtins. *)

Section Call.
Context {lib : ArrayLib} {collaborators : Collaborators}.

(** The names bound at the top level of [policy.py]: its imports, its
    dunder assignments and the class itself (and what every module has). *)
Definition module_globals : list string :=
  ["__name__"; "__doc__"; "__file__"; "__package__"; "__builtins__";
   "collections"; "pickle"; "np"; "torch"; "State"; "Action"; "Model";
   "Approximator"; "__author__"; "__copyright__"; "__credits__";
   "__license__"; "__version__"; "__maintainer__"; "__email__";
   "__status__"; "Policy"].

(** The names of the [builtins] module. *)
Definition builtins : list string :=
  ["abs"; "all"; "any"; "ascii"; "bin"; "bool"; "breakpoint"; "bytearray";
   "bytes"; "callable"; "chr"; "classmethod"; "compile"; "complex";
   "delattr"; "dict"; "dir"; "divmod"; "enumerate"; "eval"; "exec";
   "filter"; "float"; "format"; "frozenset"; "getattr"; "globals";
   "hasattr"; "hash"; "help"; "hex"; "id"; "input"; "int"; "isinstance";
   "issubclass"; "iter"; "len"; "list"; "locals"; "map"; "max";
   "memoryview"; "min"; "next"; "object"; "oct"; "open"; "ord"; "pow";
   "print"; "property"; "range"; "repr"; "reversed"; "round"; "set";
   "setattr"; "slice"; "sorted"; "staticmethod"; "str"; "sum"; "super";
   "tuple"; "type"; "vars"; "zip"; "__import__"; "None"; "True"; "False";
   "Ellipsis"; "NotImplemented"; "__debug__"; "copyright"; "credits";
   "license"; "exit"; "quit";
   "BaseException"; "Exception"; "ArithmeticError"; "AssertionError";
   "AttributeError"; "BufferError"; "EOFError"; "EnvironmentError";
   "FloatingPointError"; "GeneratorExit"; "IOError"; "ImportError";
   "IndentationError"; "IndexError"; "KeyError"; "KeyboardInterrupt";
   "LookupError"; "MemoryError"; "NameError"; "NotImplementedError";
   "OSError"; "OverflowError"; "ReferenceError"; "RuntimeError";
   "StopIteration"; "SyntaxError"; "SystemError"; "SystemExit"; "TabError";
   "TypeError"; "UnboundLocalError"; "UnicodeDecodeError";
   "UnicodeEncodeError"; "UnicodeError"; "UnicodeTranslateError";
   "ValueError"; "ZeroDivisionError"; "Warning"; "UserWarning";
   "DeprecationWarning"; "FutureWarning"; "RuntimeWarning";
   "SyntaxWarning"; "ImportWarning"; "UnicodeWarning"; "BytesWarning";
   "PendingDeprecationWarning"; "ResourceWarning"].

Fixpoint lookup_local (locals : list (string * pyval)) (name : string)
  : option pyval :=
  match locals with
  | [] => None
  | (n, v) :: rest =>
      if String.eqb n name then Some v else lookup_local rest name
  end.

(** The value of a name read in a function body.  A module-level or builtin
    object is some object of no framework class. *)
Definition load_name (locals : list (string * pyval)) (name : string)
  : result pyval :=
  match lookup_local locals name with
  | Some v => Ok v
  | None =>
      if existsb (String.eqb name) (module_globals ++ builtins)
      then Ok (PyObj [] 0)
      else Raise NameError
  end.

(** [bool(v)] for the values of the model. *)
Definition truthy (v : pyval) : bool :=
  match v with
  | PyNone => false
  | PyBool b => b
  | PyInt z => negb (z =? 0)
  | PyStr s => negb (String.eqb s "")
  | PyList l => negb (bool_decide (length l = 0%nat))
  | PyDict d => negb (bool_decide (length d = 0%nat))
  | _ => true
  end.

(** The parameters of [act] after [self], with their defaults. *)
Definition act_parameters : list (string * pyval) :=
  [("state", PyNone); ("deterministic", PyBool true);
   ("to_numpy", PyBool true); ("return_logits", PyBool false);
   ("apply_action", PyBool true)].

(** Positional arguments fill the parameters in order. *)
Fixpoint bind_positional (params : list (string * pyval)) (args : list pyval)
  : result (list (string * pyval)) :=
  match args, params with
  | [], _ => Ok params
  | _ :: _, [] => Raise TypeError
  | v :: args', (n, _) :: params' =>
      match bind_positional params' args' with
      | Ok bound => Ok ((n, v) :: bound)
      | Raise e => Raise e
      end
  end.

(** A keyword argument fills the parameter of its name. *)
Fixpoint bind_keyword (params : list (string * pyval)) (name : string)
    (v : pyval) : result (list (string * pyval)) :=
  match params with
  | [] => Raise TypeError
  | (n, d) :: params' =>
      if String.eqb n name then Ok ((n, v) :: params')
      else
        match bind_keyword params' name v with
        | Ok bound => Ok ((n, d) :: bound)
        | Raise e => Raise e
        end
  end.

Fixpoint bind_keywords (params : list (string * pyval))
    (kwargs : list (string * pyval)) : result (list (string * pyval)) :=
  match kwargs with
  | [] => Ok params
  | (n, v) :: kwargs' =>
      match bind_keyword params n v with
      | Ok bound => bind_keywords bound kwargs'
      | Raise e => Raise e
      end
  end.

(** [self.act( *args, **kwargs)] for a sequence [args] and a mapping
    [kwargs]; a keyword that names a parameter already filled by position
    is refused. *)
Definition act_star (args kwargs : pyval) : M pyval :=
  match args, kwargs with
  | PyList positional, PyDict keywords =>
      if existsb (fun kw =>
                    existsb (String.eqb (fst kw))
                      (map fst (take (length positional) act_parameters)))
           keywords
      then raise TypeError
      else
        bound <- lift_result (bind_positional act_parameters positional) ;;
        bound <- lift_result (bind_keywords bound keywords) ;;
        match map snd bound with
        | [state; deterministic; to_numpy; return_logits; apply_action] =>
            act state (truthy deterministic) (truthy to_numpy)
              (truthy return_logits) (truthy apply_action)
        | _ => raise TypeError
        end
  | _, _ => raise TypeError
  end.

(** [Policy.__call__]; its local variables are its six parameters ([self]
    stands for the policy object, which no value of the model denotes). *)
Definition __call__ (state : pyval)
    (deterministic to_numpy return_logits apply_action : bool) : M pyval :=
  let locals :=
    [("self", PyObj [] 0); ("state", state);
     ("deterministic", PyBool deterministic); ("to_numpy", PyBool to_numpy);
     ("return_logits", PyBool return_logits);
     ("apply_action", PyBool apply_action)] in
  args <- lift_result (load_name locals "args") ;;
  kwargs <- lift_result (load_name locals "kwargs") ;;
  act_star args kwargs.

End Call.

(** ** A small concrete world

    One-dimensional integer arrays for numpy and torch, and a handful of
    collaborators, on which the model runs. *)

Module Demo.

(** The index of the first greatest element, scanning from index [i]. *)
Fixpoint argmax_from (best : Z) (best_index i : nat) (l : list Z) : nat :=
  match l with
  | [] => best_index
  | x :: l' =>
      if best <? x then argmax_from x i (S i) l'
      else argmax_from best best_index (S i) l'
  end.

Definition argmax (l : list Z) : result Z :=
  match l with
  | [] => Raise ValueError
  | x :: l' => Ok (Z.of_nat (argmax_from x 0 1 l'))
  end.

(** A tensor: its items and whether it requires a gradient. *)
#[export] Instance arrays : ArrayLib := {|
  ndarray := list Z;
  tensor := list Z * bool;
  np_argmax := argmax;
  np_array := fun l => l;
  torch_argmax := fun t =>
    match argmax (fst t) with
    | Ok i => Ok ([i], false)
    | Raise e => Raise e
    end;
  requires_grad := snd;
  detach := fun t => (fst t, false);
  numpy := fun t => if snd t then Raise RuntimeError else Ok (fst t)
|}.

(** The array of the given items, as a Python value. *)
Definition array (l : list Z) : pyval := @PyArray arrays l.

Definition the_state : pyval := PyObj [State] 1.
Definition add_one : pyval := PyObj [] 10.
Definition double : pyval := PyObj [] 11.
(** a learning model that returns its input *)
Definition echo_model : pyval := PyObj [Model] 20.
(** a learning model that returns a Python integer *)
Definition int_model : pyval := PyObj [Model] 21.
(** an approximator that returns its input as a tensor *)
Definition tensor_approximator : pyval := PyObj [Approximator] 22.
(** an action made of one discrete action *)
Definition the_actions : pyval := PyObj [Action] 30.
Definition discrete_action : pyval := PyObj [Action] 31.
(** an action made of one continuous action *)
Definition other_actions : pyval := PyObj [Action] 40.
Definition continuous_action : pyval := PyObj [Action] 41.

Definition apply_processor (p x : pyval) : result pyval :=
  match p, x with
  | PyObj _ 10%nat, PyArray a => Ok (PyArray (map (fun z => z + 1) a))
  | PyObj _ 11%nat, PyArray a => Ok (PyArray (map (fun z => 2 * z) a))
  | PyObj _ _, _ => Ok x
  | _, _ => Raise TypeError
  end.

Definition predict (m x : pyval) : result pyval :=
  match m, x with
  | PyObj _ 21%nat, _ => Ok (PyInt 7)
  | PyObj _ 22%nat, PyArray a => Ok (PyTensor (a, true))
  | _, _ => Ok x
  end.

(** The collaborators count the calls they answer. *)
Definition answer (A : Type) (c : call A) (n : nat) : result A * nat :=
  match c in call T return result T * nat with
  | merged_data _ => (Ok [PyArray [3; 1; 2]], S n)
  | processor_call p x => (apply_processor p x, S n)
  | processor_reset _ => (Ok tt, S n)
  | approximator_predict m x _ _ _ => (predict m x, S n)
  | model_predict m x _ => (predict m x, S n)
  | model_method _ name =>
      (if String.eqb name "is_recurrent" then Ok (PyBool false)
       else Ok (PyList []), S n)
  | actions_iter a =>
      (match a with
       | PyObj _ 30%nat => Ok [discrete_action]
       | PyObj _ 40%nat => Ok [continuous_action]
       | _ => Ok [a]
       end, S n)
  | is_discrete a =>
      (match a with PyObj _ 31%nat => Ok true | _ => Ok false end, S n)
  | set_data _ _ => (Ok tt, S n)
  | set_torch_data _ _ => (Ok tt, S n)
  | actions_call _ => (Ok PyNone, S n)
  end.

#[export] Instance collaborators : Collaborators := {|
  env := nat;
  respond := answer
|}.

(** [Policy(the_state, the_actions, echo_model, rate=2,
            preprocessors=[add_one, double], postprocessors=add_one)] *)
Definition policy : Policy :=
  {| _states := the_state; _actions := the_actions;
     _model := PyApproximator the_state the_actions echo_model;
     train_mode := false; _rate := PyInt 2; cnt := 0;
     action_data := PyNone; preprocessors := [add_one; double];
     postprocessors := [add_one] |}.

Definition start (p : Policy) : machine :=
  {| self := p; world := 0%nat; trace := [] |}.

(** The policy on a tick that is no multiple of its rate, holding the data
    of the prediction before. *)
Definition off_tick : machine :=
  start (with_cnt (with_action_data policy (array [0])) 1).

(** The policy with a model whose prediction is a Python integer. *)
Definition int_policy : machine := start (with_model policy int_model).

(** The policy with a rate of zero. *)
Definition zero_rate : machine := start (with_rate policy (PyInt 0)).

(** The policy without a model. *)
Definition no_model : machine := start (with_model policy PyNone).

End Demo.

(** ** What a run made of its collaborators *)

Section Observations.
Context {lib : ArrayLib} {collaborators : Collaborators}.

(** The call is one to the inner model's [predict]. *)
Definition is_predict (e : event) : bool :=
  match e with
  | Event (approximator_predict _ _ _ _ _) _ => true
  | Event (model_predict _ _ _) _ => true
  | _ => false
  end.

(** The call is one of a processor on an input. *)
Definition is_processor_call (e : event) : bool :=
  match e with
  | Event (processor_call _ _) _ => true
  | _ => false
  end.

(** The call is [actions()]. *)
Definition is_actions_call (e : event) : bool :=
  match e with
  | Event (actions_call _) _ => true
  | _ => false
  end.

(** The call is one the loop over the actions makes: the iteration, the
    question [is_discrete], an assignment of [data] or [torch_data]. *)
Definition is_dispatch_call (e : event) : bool :=
  match e with
  | Event (actions_iter _) _ => true
  | Event (is_discrete _) _ => true
  | Event (set_data _ _) _ => true
  | Event (set_torch_data _ _) _ => true
  | _ => false
  end.

(** The call returned normally. *)
Definition returned (e : event) : bool :=
  match e with
  | Event _ (Ok _) => true
  | Event _ (Raise _) => false
  end.

(** [chained ps x evs y]: [evs] are the calls of the processors [ps] in
    order, the first on [x], each next one on the result of the one before,
    all returning normally, the last result being [y]. *)
Inductive chained : list pyval -> pyval -> list event -> pyval -> Prop :=
| chained_nil x : chained [] x [] x
| chained_cons p ps x y z evs :
    chained ps y evs z ->
    chained (p :: ps) x (Event (processor_call p x) (Ok y) :: evs) z.

(** The state an [act(state, ...)] works on: [self.states] for [None], and
    for a [State] instance its [merged_data], or the one item of it. *)
Definition resolved (self : Policy) (state : pyval) (evs : list event)
    (x : pyval) : Prop :=
  let state := if is_None state then _states self else state in
  if isinstance state State then
    exists data,
      evs = [Event (merged_data state) (Ok data)] /\
      x = match data with [item] => item | _ => PyList data end
  else evs = [] /\ x = state.

(** The one call [_predict(x, to_numpy=False, return_logits=True,
    set_output_data=False)] makes on the inner model, returning [y]. *)
Definition predict_event (model x y : pyval) : event :=
  if isinstance model Approximator
  then Event (approximator_predict model x false true false) (Ok y)
  else Event (model_predict model x false) (Ok y).

(** The calls a prediction tick makes: on the state, on the processors, on
    the inner model, and in the loop over the actions. *)
Definition is_tick_call (e : event) : bool :=
  match e with
  | Event (merged_data _) _ => true
  | _ => is_processor_call e || is_predict e || is_dispatch_call e
  end.

(** How many of the calls [evs] satisfy [P]. *)
Definition count (P : event -> bool) (evs : list event) : nat :=
  length (List.filter P evs).

(** [frame p p']: the policy [p'] is [p] but for its [action_data]. *)
Definition frame (p p' : Policy) : Prop :=
  p' = with_action_data p (action_data p').

(** [keeps P c]: a run of [c], whether it returns or raises, only adds
    calls satisfying [P] to the trace, and assigns to no attribute of the
    policy but [action_data]. *)
Definition keeps (P : event -> bool) {A} (c : M A) : Prop :=
  forall m r m',
    c m = (r, m') ->
    exists evs,
      trace m' = trace m ++ evs /\ forallb P evs = true /\
      frame (self m) (self m').

(** The part [if apply_action: self.actions()] of [act]. *)
Definition apply_actions (apply_action : bool) : M unit :=
  when apply_action
    (actions <- on_self actions ;;
     call_object actions (actions_call actions) ;;
     ret tt).

(** The machine after [self.cnt += 1]. *)
Definition ticked (m : machine) : machine :=
  {| self := with_cnt (self m) (cnt (self m) + 1);
     world := world m; trace := trace m |}.

(** The machine after the call [c] was answered by [r], the collaborators
    being left in [w]. *)
Definition answered (m : machine) {A} (c : call A) (r : result A) (w : env)
  : machine :=
  {| self := self m; world := w; trace := trace m ++ [Event c r] |}.

(** The machine after [self.action_data = v]. *)
Definition stored (m : machine) (v : pyval) : machine :=
  {| self := with_action_data (self m) v;
     world := world m; trace := trace m |}.

(** [n] calls of [act] in a row with the same arguments, as a control loop
    makes them; the action data they return, the first call's first. *)
Fixpoint act_n (n : nat) (state : pyval)
    (deterministic to_numpy return_logits apply_action : bool)
  : M (list pyval) :=
  match n with
  | O => ret []
  | S n' =>
      v <- act state deterministic to_numpy return_logits apply_action ;;
      vs <- act_n n' state deterministic to_numpy return_logits
              apply_action ;;
      ret (v :: vs)
  end.

(** [same_self c]: a run of [c] assigns to no attribute of the policy. *)
Definition same_self {A} (c : M A) : Prop :=
  forall m r m', c m = (r, m') -> self m' = self m.

(** [writes idx c]: a run of [c] on a policy whose action data is a list
    leaves it a list of the same length, the same but for its item [idx]. *)
Definition writes (idx : nat) {A} (c : M A) : Prop :=
  forall m r m' (l : list pyval),
    c m = (r, m') ->
    action_data (self m) = PyList l ->
    exists l',
      action_data (self m') = PyList l' /\ length l' = length l /\
      forall j, j <> idx -> l' !! j = l !! j.

(** [at_most P n c]: a run of [c], whether it returns or raises, adds at
    most [n] calls satisfying [P] to the trace. *)
Definition at_most (P : event -> bool) (n : nat) {A} (c : M A) : Prop :=
  forall m r m',
    c m = (r, m') ->
    exists evs, trace m' = trace m ++ evs /\ (count P evs <= n)%nat.

End Observations.

(** ** The other methods of the policy *)

Section MoreMethods.
Context {lib : ArrayLib} {collaborators : Collaborators}.

(** [Policy.is_deterministic] *)
Definition is_deterministic : M pyval :=
  model <- on_self model ;;
  call_method model (model_method model "is_deterministic").

(** [Policy.is_probabilistic] *)
Definition is_probabilistic : M pyval :=
  model <- on_self model ;;
  call_method model (model_method model "is_probabilistic").

(** [Policy.is_parametric] *)
Definition is_parametric : M pyval :=
  model <- on_self model ;;
  call_method model (model_method model "is_parametric").

(** [Policy.is_linear] *)
Definition is_linear : M pyval :=
  model <- on_self model ;;
  call_method model (model_method model "is_linear").

End MoreMethods.

(** ** The size of states, actions and arrays: [Policy._size]

    [_size] asks the items for their sizes: an array for [size], a tensor
    for [numel()], a state or an action for its elements, and each element
    for [is_discrete()] and then for [space[0].n] or [total_size()].  These
    are an interface of their own; the elements have a state, which the
    calls may change. *)

Class Spaces `{ArrayLib} := {
  (** [a.size] *)
  ndarray_size : ndarray -> Z;
  (** [t.numel()] *)
  tensor_numel : tensor -> Z;
  spaces : Type;
  (** the elements that [for element in item] goes through *)
  elements : pyval -> spaces -> result (list pyval) * spaces;
  (** [element.is_discrete()] *)
  element_is_discrete : pyval -> spaces -> result bool * spaces;
  (** [element.space[0].n] *)
  element_space_n : pyval -> spaces -> result Z * spaces;
  (** [element.total_size()] *)
  element_total_size : pyval -> spaces -> result Z * spaces
}.

Section Size.
Context {lib : ArrayLib} {sp : Spaces}.

(** A method or an attribute of [receiver]; a builtin value has none of
    those asked for here. *)
Definition ask {A} (receiver : pyval)
    (query : pyval -> spaces -> result A * spaces) : prog spaces A :=
  if is_object receiver then query receiver else raise AttributeError.

(** The body of [for element in item]. *)
Definition add_element (element : pyval) (size : Z) : prog spaces Z :=
  discrete <- ask element element_is_discrete ;;
  if discrete : bool then
    n <- ask element element_space_n ;;
    ret (size + n)
  else
    n <- ask element element_total_size ;;
    ret (size + n).

(** The body of [for item in items]. *)
Definition add_item (item : pyval) (size : Z) : prog spaces Z :=
  if isinstance item State || isinstance item Action then
    elems <- ask item elements ;;
    for_fold elems add_element size
  else
    match item with
    | PyArray a => ret (size + ndarray_size a)
    | PyTensor t => ret (size + tensor_numel t)
    | _ =>
        match int_value item with
        | Some z => ret (size + z)
        | None => ret size
        end
    end.

(** [Policy._size].  The values of the model have lists and no tuples:
    the test [isinstance(items, (list, tuple))] is here the test for a
    list, and a tuple given as argument is outside the model. *)
Definition _size (items : pyval) : prog spaces Z :=
  let items := if negb (isinstance_list items) then [items]
               else list_items items in
  for_fold items add_item 0.

(** What an item that is neither a state nor an action adds to the size. *)
Definition plain_size (item : pyval) : Z :=
  match item with
  | PyArray a => ndarray_size a
  | PyTensor t => tensor_numel t
  | PyInt z => z
  | PyBool b => if b then 1 else 0
  | _ => 0
  end.

(** The item is an instance of neither [State] nor [Action]. *)
Definition is_plain (item : pyval) : bool :=
  negb (isinstance item State || isinstance item Action).

End Size.

(** A concrete world for the sizes: arrays and tensors as long as their
    lists; a state of two elements, the first discrete with 4 values, the
    second continuous of total size 3.  The elements count the questions
    they answer. *)
Module SizeDemo.
Import Demo.

Definition joint_state : pyval := PyObj [State] 50.
Definition discrete_element : pyval := PyObj [State] 51.
Definition continuous_element : pyval := PyObj [State] 52.

#[export] Instance spaces_of_demo : @Spaces arrays := {|
  ndarray_size := fun a : @ndarray arrays => Z.of_nat (length a);
  tensor_numel := fun t : @tensor arrays => Z.of_nat (length (fst t));
  spaces := nat;
  elements := fun item n =>
    (match item with
     | PyObj _ 50%nat => Ok [discrete_element; continuous_element]
     | _ => Ok [item]
     end, S n);
  element_is_discrete := fun e n =>
    (match e with PyObj _ 51%nat => Ok true | _ => Ok false end, S n);
  element_space_n := fun e n => (Ok 4, S n);
  element_total_size := fun e n => (Ok 3, S n)
|}.

End SizeDemo.

(** ** What the runs are observed for, continued *)

Section MoreObservations.
Context {lib : ArrayLib} {collaborators : Collaborators}.

(** [isinstance(v, np.ndarray)] *)
Definition is_array (v : pyval) : bool :=
  match v with PyArray _ => true | _ => false end.

(** [isinstance(v, torch.Tensor)] *)
Definition is_tensor (v : pyval) : bool :=
  match v with PyTensor _ => true | _ => false end.

(** The call is one the body of the loop over the actions makes: the
    question [is_discrete], an assignment of [data] or [torch_data]. *)
Definition is_loop_call (e : event) : bool :=
  match e with
  | Event (is_discrete _) _ => true
  | Event (set_data _ _) _ => true
  | Event (set_torch_data _ _) _ => true
  | _ => false
  end.

(** The call is neither one of the body of the loop over the actions nor
    the call [actions()]: a call made on the way to the loop. *)
Definition before_loop (e : event) : bool :=
  negb (is_loop_call e) && negb (is_actions_call e).

(** [assigned to_numpy return_logits action discrete data e v]: what an
    iteration of the loop that returns does with the pair [(action, data)]
    when [action.is_discrete()] is [discrete]: [e] is the assignment it
    makes on the action, [v] the item it leaves in [self.action_data] at
    the index of the pair. *)
Inductive assigned (to_numpy return_logits : bool) (action : pyval)
  : bool -> pyval -> event -> pyval -> Prop :=
(** [action.data = np.array([np.argmax(data)])], which replaces the logits
    unless [return_logits] *)
| assigned_discrete_array a i :
    np_argmax a = Ok i ->
    assigned to_numpy return_logits action true (PyArray a)
      (Event (set_data action (np_array [i])) (Ok tt))
      (if return_logits then PyArray a else PyArray (np_array [i]))
(** [action.torch_data = torch.argmax(data, dim=0, keepdim=True)] *)
| assigned_discrete_tensor t d v :
    torch_argmax t = Ok d ->
    __convert_to_numpy (if return_logits then PyTensor t else PyTensor d)
      to_numpy = Ok v ->
    assigned to_numpy return_logits action true (PyTensor t)
      (Event (set_torch_data action d) (Ok tt)) v
(** [action.data = data] *)
| assigned_continuous_array a :
    assigned to_numpy return_logits action false (PyArray a)
      (Event (set_data action a) (Ok tt)) (PyArray a)
(** [action.torch_data = data] *)
| assigned_continuous_tensor t v :
    __convert_to_numpy (PyTensor t) to_numpy = Ok v ->
    assigned to_numpy return_logits action false (PyTensor t)
      (Event (set_torch_data action t) (Ok tt)) v.

(** [looped to_numpy return_logits pairs evs vs r]: a run of the loop over
    the zipped [pairs] that ends with [r] made the calls [evs] and left the
    items [vs] in place of the data of the pairs it went through.  Each
    pair is asked [is_discrete()] and gets its assignment; the loop stops
    with [TypeError], after the question and without an assignment, at the
    first pair whose data is neither a numpy array nor a tensor; it also
    stops when a call on an action or a function of numpy or torch
    raises. *)
Inductive looped (to_numpy return_logits : bool)
  : list (pyval * pyval) -> list event -> list pyval -> result unit -> Prop :=
| looped_done : looped to_numpy return_logits [] [] [] (Ok tt)
| looped_next action data pairs discrete e v evs vs r :
    assigned to_numpy return_logits action discrete data e v ->
    looped to_numpy return_logits pairs evs vs r ->
    looped to_numpy return_logits ((action, data) :: pairs)
      (Event (is_discrete action) (Ok discrete) :: e :: evs) (v :: vs) r
| looped_type_error action data pairs discrete :
    is_array data = false -> is_tensor data = false ->
    looped to_numpy return_logits ((action, data) :: pairs)
      [Event (is_discrete action) (Ok discrete)] [] (Raise TypeError)
| looped_raised action data pairs evs e :
    forallb is_loop_call evs = true ->
    is_array data || is_tensor data = true \/
    forallb returned evs = false \/ evs = [] ->
    looped to_numpy return_logits ((action, data) :: pairs) evs []
      (Raise e).

(** [stable l c]: a run of [c] on a policy whose action data is the list
    [l], whether it returns or raises, leaves it the list [l]. *)
Definition stable (l : list pyval) {A} (c : M A) : Prop :=
  forall m r m',
    c m = (r, m') ->
    action_data (self m) = PyList l -> action_data (self m') = PyList l.

(** The action data as a list: [[data]] unless [data] is a list. *)
Definition as_list (data : pyval) : list pyval :=
  match data with PyList l => l | _ => [data] end.

(** The action data a tick stores at its end: the one item of a list of
    one item, the list otherwise. *)
Definition unwrapped (l : list pyval) : pyval :=
  match l with [x] => x | _ => PyList l end.

(** Among [n] calls of [act] in a row, the first at tick [tick], those made
    on a tick that is a multiple of the rate [R]. *)
Definition prediction_ticks (tick R : Z) (n : nat) : list nat :=
  List.filter (fun k => (tick + Z.of_nat k) mod R =? 0) (seq 0 n).

(** The machine after [train(mode)]. *)
Definition trained (mode : bool) (m : machine) : machine :=
  snd (train mode m).

(** [mode_blind c]: a run of [c] does the same, returns the same and leaves
    the same behind, whatever the train mode of the policy, which it leaves
    as it found it. *)
Definition mode_blind {A} (c : M A) : Prop :=
  forall mode m, c (trained mode m) = (fst (c m), trained mode (snd (c m))).

End MoreObservations.

(** * Properties *)

(** Split a goal into its conjuncts, leaving equalities whole. *)
Ltac conjs := repeat match goal with |- _ /\ _ => split end.

(** ** The monad *)

Section ProgFacts.
Context {S : Type}.

Lemma bind_ok {A B} (c : prog S A) (k : A -> prog S B) s b s' :
  bind c k s = (Ok b, s') ->
  exists a s1, c s = (Ok a, s1) /\ k a s1 = (Ok b, s').
Proof.
  unfold bind. destruct (c s) as [[a | e] s1]; intros Heq.
  - exists a, s1. split; [reflexivity | exact Heq].
  - discriminate.
Qed.

Lemma bind_cases {A B} (c : prog S A) (k : A -> prog S B) s r s' :
  bind c k s = (r, s') ->
  (exists a s1, c s = (Ok a, s1) /\ k a s1 = (r, s')) \/
  (exists e, c s = (Raise e, s') /\ r = Raise e).
Proof.
  unfold bind. destruct (c s) as [[a | e] s1]; intros Heq.
  - left. exists a, s1. split; [reflexivity | exact Heq].
  - right. exists e. inversion Heq; subst. split; reflexivity.
Qed.

Lemma bind_step {A B} (c : prog S A) (k : A -> prog S B) s a s1 :
  c s = (Ok a, s1) -> bind c k s = k a s1.
Proof. unfold bind. intros ->. reflexivity. Qed.

Lemma bind_raise {A B} (c : prog S A) (k : A -> prog S B) s e s1 :
  c s = (Raise e, s1) -> bind c k s = (Raise e, s1).
Proof. unfold bind. intros ->. reflexivity. Qed.

Lemma run_eq {A} (c : prog S A) s r :
  fst (c s) = r -> c s = (r, snd (c s)).
Proof. intros <-. destruct (c s); reflexivity. Qed.

End ProgFacts.

(** ** Frames *)

Section Frames.
Context {lib : ArrayLib} {collaborators : Collaborators}.

Lemma frame_refl p : frame p p.
Proof. unfold frame. destruct p; reflexivity. Qed.

Lemma frame_trans p q r : frame p q -> frame q r -> frame p r.
Proof.
  unfold frame. intros Hq Hr. rewrite Hr, Hq. destruct p; reflexivity.
Qed.

Lemma frame_with_action_data p v : frame p (with_action_data p v).
Proof. unfold frame. destruct p; reflexivity. Qed.

Lemma frame_cnt p q : frame p q -> cnt q = cnt p.
Proof. unfold frame. intros ->. reflexivity. Qed.

Lemma frame_fields p q :
  frame p q ->
  _states q = _states p /\ _actions q = _actions p /\ _model q = _model p /\
  _rate q = _rate p /\ preprocessors q = preprocessors p /\
  postprocessors q = postprocessors p /\ train_mode q = train_mode p.
Proof. unfold frame. intros ->. repeat split. Qed.

Lemma keeps_ret P {A} (a : A) : keeps P (ret a).
Proof.
  intros m r m' Heq. inversion Heq; subst. exists [].
  rewrite app_nil_r. split; [reflexivity | split; [reflexivity | apply frame_refl]].
Qed.

Lemma keeps_raise P {A} (e : exn) : keeps P (@raise machine A e).
Proof.
  intros m r m' Heq. inversion Heq; subst. exists [].
  rewrite app_nil_r. split; [reflexivity | split; [reflexivity | apply frame_refl]].
Qed.

Lemma keeps_lift_result P {A} (x : result A) : keeps P (lift_result x).
Proof.
  intros m r m' Heq. inversion Heq; subst. exists [].
  rewrite app_nil_r. split; [reflexivity | split; [reflexivity | apply frame_refl]].
Qed.

Lemma keeps_gets P {A} (f : Policy -> A) : keeps P (on_self (gets f)).
Proof.
  intros m r m' Heq. unfold on_self, gets in Heq. inversion Heq; subst.
  exists []. simpl. rewrite app_nil_r.
  split; [reflexivity | split; [reflexivity | apply frame_refl]].
Qed.

Lemma keeps_set_action_data P v : keeps P (set_action_data v).
Proof.
  intros m r m' Heq. unfold set_action_data, on_self, modify in Heq.
  inversion Heq; subst. exists []. simpl. rewrite app_nil_r.
  split; [reflexivity | split; [reflexivity | apply frame_with_action_data]].
Qed.

Lemma keeps_invoke (P : event -> bool) {A} (c : call A) :
  (forall r, P (Event c r) = true) -> keeps P (invoke c).
Proof.
  intros HP m r m' Heq. unfold invoke in Heq.
  destruct (respond A c (world m)) as [r0 w] eqn:Hr.
  inversion Heq; subst. exists [Event c r]. simpl.
  rewrite HP. split; [reflexivity | split; [reflexivity | apply frame_refl]].
Qed.

Lemma keeps_call_method (P : event -> bool) {A} receiver (c : call A) :
  (forall r, P (Event c r) = true) -> keeps P (call_method receiver c).
Proof.
  intros HP. unfold call_method. destruct (is_object receiver).
  - apply keeps_invoke, HP.
  - apply keeps_raise.
Qed.

Lemma keeps_call_object (P : event -> bool) {A} callee (c : call A) :
  (forall r, P (Event c r) = true) -> keeps P (call_object callee c).
Proof.
  intros HP. unfold call_object. destruct (is_object callee).
  - apply keeps_invoke, HP.
  - apply keeps_raise.
Qed.

Lemma keeps_bind P {A B} (c : M A) (k : A -> M B) :
  keeps P c -> (forall a, keeps P (k a)) -> keeps P (bind c k).
Proof.
  intros Hc Hk m r m' Heq.
  destruct (bind_cases _ _ _ _ _ Heq) as [(a & m1 & H1 & H2) | (e & H1 & _)].
  - destruct (Hc _ _ _ H1) as (evs1 & Ht1 & HP1 & Hf1).
    destruct (Hk a _ _ _ H2) as (evs2 & Ht2 & HP2 & Hf2).
    exists (evs1 ++ evs2). rewrite Ht2, Ht1, app_assoc, forallb_app, HP1, HP2.
    split; [reflexivity | split; [reflexivity | eapply frame_trans; eassumption]].
  - exact (Hc _ _ _ H1).
Qed.

Lemma keeps_when P (b : bool) (c : M unit) : keeps P c -> keeps P (when b c).
Proof. intros Hc. destruct b; simpl; [exact Hc | apply keeps_ret]. Qed.

Lemma keeps_for_each P {A} (l : list A) (body : A -> M unit) :
  (forall x, keeps P (body x)) -> keeps P (for_each l body).
Proof.
  intros Hb. induction l as [| x l IH]; simpl.
  - apply keeps_ret.
  - apply keeps_bind; [apply Hb | intros _; exact IH].
Qed.

Lemma keeps_for_fold P {A B} (l : list A) (body : A -> B -> M B) (b : B) :
  (forall x y, keeps P (body x y)) -> keeps P (for_fold l body b).
Proof.
  intros Hb. revert b. induction l as [| x l IH]; intros b; simpl.
  - apply keeps_ret.
  - apply keeps_bind; [apply Hb | intros b'; apply IH].
Qed.

Lemma keeps_setitem_action_data P idx v : keeps P (setitem_action_data idx v).
Proof.
  unfold setitem_action_data. apply keeps_bind; [apply keeps_gets |].
  intros [ | | | | l | | | | | | ]; try apply keeps_raise.
  destruct (bool_decide _); [apply keeps_set_action_data | apply keeps_raise].
Qed.

End Frames.

(** One step of a proof of [keeps]: the program is a primitive, a call,
    or a sequence. *)
Ltac keeps_step :=
  first
    [ apply keeps_ret | apply keeps_raise | apply keeps_lift_result
    | apply keeps_gets | apply keeps_set_action_data
    | apply keeps_setitem_action_data
    | apply keeps_when
    | apply keeps_call_method; intros; reflexivity
    | apply keeps_call_object; intros; reflexivity
    | apply keeps_bind; [| intros ] ].

(** ** What each part of [act] calls *)

Section Calls.
Context {lib : ArrayLib} {collaborators : Collaborators}.

Lemma keeps_weaken (P Q : event -> bool) {A} (c : M A) :
  (forall e, P e = true -> Q e = true) -> keeps P c -> keeps Q c.
Proof.
  intros HPQ Hc m r m' Heq. destruct (Hc _ _ _ Heq) as (evs & Ht & HP & Hf).
  exists evs. split; [exact Ht | split; [| exact Hf]].
  rewrite forallb_forall in *. intros e He. apply HPQ, HP, He.
Qed.

Lemma keeps_dispatch to_numpy return_logits item :
  keeps is_dispatch_call (dispatch to_numpy return_logits item).
Proof.
  destruct item as [idx [action data]]. unfold dispatch.
  apply keeps_bind; [keeps_step |]. intros discrete.
  destruct discrete, data, return_logits; simpl; repeat keeps_step.
Qed.

Lemma keeps__predict state to_numpy return_logits set_output_data :
  keeps is_predict (_predict state to_numpy return_logits set_output_data).
Proof.
  unfold _predict, model. apply keeps_bind; [keeps_step |]. intros model.
  destruct (isinstance model Approximator); keeps_step.
Qed.

Lemma keeps_predict_tick state to_numpy return_logits :
  keeps is_tick_call (predict_tick state to_numpy return_logits).
Proof.
  unfold predict_tick, states, actions.
  apply keeps_bind; [destruct (is_None state); keeps_step |]. intros state0.
  apply keeps_bind.
  { destruct (isinstance state0 State); [| keeps_step].
    apply keeps_bind; [keeps_step |]. intros [| x [| y l]]; keeps_step. }
  intros state1. apply keeps_bind; [keeps_step |]. intros pre.
  apply keeps_bind; [apply keeps_for_fold; intros; keeps_step |]. intros state2.
  apply keeps_bind.
  { eapply keeps_weaken; [| apply keeps__predict].
    intros e He. unfold is_tick_call. rewrite He.
    destruct e as [A c r]; destruct c; rewrite ?orb_true_r; reflexivity. }
  intros data. apply keeps_bind; [keeps_step |]. intros _.
  apply keeps_bind; [keeps_step |]. intros post.
  apply keeps_bind; [apply keeps_for_each; intros; repeat keeps_step |].
  intros _. apply keeps_bind; [keeps_step |]. intros data1.
  apply keeps_bind; [repeat keeps_step |]. intros _.
  apply keeps_bind; [keeps_step |]. intros actions.
  apply keeps_bind; [keeps_step |]. intros leaves.
  apply keeps_bind; [keeps_step |]. intros data2.
  apply keeps_bind.
  { apply keeps_for_each. intros item.
    eapply keeps_weaken; [| apply keeps_dispatch].
    intros e He. unfold is_tick_call. rewrite He.
    destruct e as [A c r]; destruct c; rewrite ?orb_true_r; reflexivity. }
  intros _. apply keeps_bind; [keeps_step |].
  intros [ | | | | [| x [| y l]] | | | | | | ]; keeps_step.
Qed.

Lemma invoke_ok {A} (c : call A) m a m' :
  invoke c m = (Ok a, m') ->
  exists w,
    respond A c (world m) = (Ok a, w) /\
    m' = {| self := self m; world := w;
            trace := trace m ++ [Event c (Ok a)] |}.
Proof.
  unfold invoke. destruct (respond A c (world m)) as [r w] eqn:Hr.
  intros Heq. inversion Heq; subst. exists w. split; reflexivity.
Qed.

Lemma call_object_ok {A} callee (c : call A) m a m' :
  call_object callee c m = (Ok a, m') ->
  is_object callee = true /\ invoke c m = (Ok a, m').
Proof.
  unfold call_object. destruct (is_object callee); intros Heq.
  - split; [reflexivity | exact Heq].
  - discriminate.
Qed.

Lemma call_method_ok {A} receiver (c : call A) m a m' :
  call_method receiver c m = (Ok a, m') ->
  is_object receiver = true /\ invoke c m = (Ok a, m').
Proof.
  unfold call_method. destruct (is_object receiver); intros Heq.
  - split; [reflexivity | exact Heq].
  - discriminate.
Qed.

(** The loop over the preprocessors. *)
Lemma preprocessors_chained ps x m y m' :
  for_fold ps
    (fun processor state =>
       call_object processor (processor_call processor state)) x m
  = (Ok y, m') ->
  exists evs,
    chained ps x evs y /\ trace m' = trace m ++ evs /\ self m' = self m.
Proof.
  revert x m. induction ps as [| p ps IH]; intros x m Heq; simpl in Heq.
  - inversion Heq; subst. exists []. rewrite app_nil_r.
    repeat split. constructor.
  - apply bind_ok in Heq. destruct Heq as (x' & m1 & Hcall & Hrest).
    apply call_object_ok in Hcall. destruct Hcall as [_ Hcall].
    apply invoke_ok in Hcall. destruct Hcall as (w & _ & ->).
    apply IH in Hrest. destruct Hrest as (evs & Hch & Ht & Hs).
    exists (Event (processor_call p x) (Ok x') :: evs).
    simpl in Ht, Hs. rewrite <- app_assoc in Ht.
    split; [constructor; exact Hch | split; [exact Ht | exact Hs]].
Qed.

(** The loop over the postprocessors, on [self.action_data]. *)
Lemma postprocessors_chained ps m m' :
  for_each ps
    (fun processor =>
       data <- on_self (gets action_data) ;;
       data <- call_object processor (processor_call processor data) ;;
       set_action_data data) m
  = (Ok tt, m') ->
  exists evs,
    chained ps (action_data (self m)) evs (action_data (self m')) /\
    trace m' = trace m ++ evs /\ frame (self m) (self m').
Proof.
  revert m. induction ps as [| p ps IH]; intros m Heq; simpl in Heq.
  - inversion Heq; subst. exists []. rewrite app_nil_r.
    split; [constructor | split; [reflexivity | apply frame_refl]].
  - apply bind_ok in Heq. destruct Heq as ([] & m1 & Hbody & Hrest).
    apply bind_ok in Hbody. destruct Hbody as (d & m2 & Hget & Hbody).
    unfold on_self, gets in Hget. inversion Hget; subst d m2. clear Hget.
    apply bind_ok in Hbody. destruct Hbody as (d' & m3 & Hcall & Hset).
    apply call_object_ok in Hcall. destruct Hcall as [_ Hcall].
    apply invoke_ok in Hcall. destruct Hcall as (w & _ & ->).
    unfold set_action_data, on_self, modify in Hset. simpl in Hset.
    inversion Hset; subst m1. clear Hset.
    apply IH in Hrest. destruct Hrest as (evs & Hch & Ht & Hf).
    simpl in Hch, Ht, Hf.
    exists (Event (processor_call p (action_data (self m))) (Ok d') :: evs).
    rewrite <- app_assoc in Ht.
    split; [constructor; exact Hch | split; [exact Ht |]].
    eapply frame_trans; [apply frame_with_action_data | exact Hf].
Qed.

End Calls.

(** ** The shape of a run of [act] *)

Section Act.
Context {lib : ArrayLib} {collaborators : Collaborators}.

(** A run of [act] is a run of its three parts, up to the first that
    raises: the prediction on a tick that is a multiple of the rate, the
    call of the actions when asked for, the increment of the counter. *)
Lemma act_inv state deterministic to_numpy return_logits apply_action m r m' :
  act state deterministic to_numpy return_logits apply_action m = (r, m') ->
  match py_mod (cnt (self m)) (_rate (self m)) with
  | Raise e => r = Raise e /\ m' = m
  | Ok tick =>
      match when (tick =? 0) (predict_tick state to_numpy return_logits) m with
      | (Raise e, m1) => r = Raise e /\ m' = m1
      | (Ok _, m1) =>
          match apply_actions apply_action m1 with
          | (Raise e, m2) => r = Raise e /\ m' = m2
          | (Ok _, m2) => r = Ok (action_data (self m2)) /\ m' = ticked m2
          end
      end
  end.
Proof.
  unfold act, apply_actions, rate. intros Heq.
  unfold bind at 1 in Heq. simpl in Heq.
  unfold bind at 1 in Heq. simpl in Heq.
  unfold bind at 1 in Heq. unfold lift_result in Heq.
  assert (Hm : {| self := self m; world := world m; trace := trace m |} = m)
    by (destruct m; reflexivity).
  rewrite Hm in Heq. clear Hm.
  destruct (py_mod (cnt (self m)) (_rate (self m))) as [tick | e].
  - unfold bind at 1 in Heq.
    destruct (when (tick =? 0) _ m) as [[[] | e] m1].
    + unfold bind at 1 in Heq.
      destruct (when apply_action _ m1) as [[[] | e] m2].
      * unfold bind, on_self, modify, gets in Heq. simpl in Heq.
        inversion Heq; subst. split; reflexivity.
      * inversion Heq; subst. split; reflexivity.
    + inversion Heq; subst. split; reflexivity.
  - inversion Heq; subst. split; reflexivity.
Qed.

(** The call of the actions: none when not asked for, and one otherwise
    (none when [self.actions] is no object at all). *)
Lemma apply_actions_inv apply_action m r m' :
  apply_actions apply_action m = (r, m') ->
  self m' = self m /\
  exists evs,
    trace m' = trace m ++ evs /\
    forallb is_actions_call evs = true /\
    (apply_action = false -> evs = [] /\ r = Ok tt) /\
    (r = Ok tt -> length evs = (if apply_action then 1 else 0)%nat) /\
    (length evs <= 1)%nat /\
    (forall e, In e evs ->
               exists ra,
                 e = Event (actions_call (_actions (self m))) ra /\
                 (r = Ok tt -> is_ok ra = true)).
Proof.
  unfold apply_actions, actions. destruct apply_action; simpl; intros Heq.
  - unfold bind, on_self, gets, call_object in Heq. simpl in Heq.
    destruct (is_object (_actions (self m))).
    + unfold invoke in Heq. simpl in Heq.
      destruct (respond pyval (actions_call (_actions (self m))) (world m))
        as [[a | e] w]; inversion Heq; subst; simpl;
        (split; [reflexivity |]);
        eexists [_]; conjs; try discriminate; auto;
        intros e' [<- | []]; eexists; (split; [reflexivity |]);
        [reflexivity | discriminate].
    + inversion Heq; subst. split; [reflexivity |].
      exists []. rewrite app_nil_r. conjs; try discriminate; auto.
      intros e' [].
  - inversion Heq; subst. split; [reflexivity |].
    exists []. rewrite app_nil_r. conjs; auto. intros e' [].
Qed.

End Act.

Section Pipeline.
Context {lib : ArrayLib} {collaborators : Collaborators}.

Lemma count_app P evs1 evs2 :
  count P (evs1 ++ evs2) = (count P evs1 + count P evs2)%nat.
Proof. unfold count. rewrite List.filter_app, length_app. reflexivity. Qed.

Lemma count_none P evs :
  forallb (fun e => negb (P e)) evs = true -> count P evs = 0%nat.
Proof.
  unfold count. induction evs as [| e evs IH]; simpl; [reflexivity |].
  intros H. apply andb_prop in H. destruct H as [He Hevs].
  destruct (P e); [discriminate | auto].
Qed.

Lemma forallb_weaken (P Q : event -> bool) evs :
  (forall e, P e = true -> Q e = true) ->
  forallb P evs = true -> forallb Q evs = true.
Proof.
  intros HPQ. rewrite !forallb_forall. intros H e He. apply HPQ, H, He.
Qed.

Lemma chained_processor_calls ps x evs y :
  chained ps x evs y -> forallb is_processor_call evs = true.
Proof. induction 1; simpl; auto. Qed.

Lemma chained_length ps x evs y :
  chained ps x evs y -> length evs = length ps.
Proof. induction 1; simpl; auto. Qed.

Lemma resolved_calls p state evs x :
  resolved p state evs x ->
  forallb (fun e => negb (is_predict e) && negb (is_processor_call e)) evs
  = true.
Proof.
  unfold resolved.
  destruct (isinstance (if is_None state then _states p else state) State).
  - intros (data & -> & _). reflexivity.
  - intros [-> _]. reflexivity.
Qed.

(** A prediction that returns has resolved the state, run the
    preprocessors, called [predict] once, run the postprocessors, and then
    only looked at the actions. *)
Lemma predict_tick_ok state to_numpy return_logits m m' :
  predict_tick state to_numpy return_logits m = (Ok tt, m') ->
  exists x0 x1 y0 y1 evs_state evs_pre evs_post evs_rest,
    resolved (self m) state evs_state x0 /\
    chained (preprocessors (self m)) x0 evs_pre x1 /\
    chained (postprocessors (self m)) y0 evs_post y1 /\
    trace m' =
      trace m ++ evs_state ++ evs_pre ++
      predict_event (_model (self m)) x1 y0 :: evs_post ++ evs_rest /\
    forallb is_dispatch_call evs_rest = true.
Proof.
  unfold predict_tick. intros Heq.
  (* state = self.states *)
  apply bind_ok in Heq. destruct Heq as (s0 & m0 & Hs0 & Heq).
  assert (Hs0' : s0 = (if is_None state then _states (self m) else state)
                 /\ m0 = m).
  { destruct m as [p w t].
    destruct (is_None state); unfold on_self, states, gets, ret in Hs0;
      simpl in Hs0; inversion Hs0; split; reflexivity. }
  destruct Hs0' as [-> ->]. clear Hs0.
  (* state = state.merged_data *)
  apply bind_ok in Heq. destruct Heq as (x0 & m1 & Hx0 & Heq).
  assert (Hres : exists evs_state,
             resolved (self m) state evs_state x0 /\
             trace m1 = trace m ++ evs_state /\ self m1 = self m).
  { unfold resolved.
    destruct (isinstance (if is_None state then _states (self m) else state)
                State).
    - apply bind_ok in Hx0. destruct Hx0 as (data & m2 & Hcall & Hret).
      apply call_method_ok in Hcall. destruct Hcall as [_ Hcall].
      apply invoke_ok in Hcall. destruct Hcall as (w & _ & ->).
      eexists. split; [exists data; split; [reflexivity |] |].
      + destruct data as [| item [| item' rest]];
          unfold ret in Hret; inversion Hret; reflexivity.
      + destruct data as [| item [| item' rest]];
          unfold ret in Hret; inversion Hret; subst; split; reflexivity.
    - unfold ret in Hx0. inversion Hx0; subst. exists [].
      rewrite app_nil_r. repeat split. }
  destruct Hres as (evs_state & Hres & Ht1 & Hs1). clear Hx0.
  (* the preprocessors *)
  apply bind_ok in Heq. destruct Heq as (pre & m2 & Hpre & Heq).
  unfold on_self, gets in Hpre. simpl in Hpre. inversion Hpre; subst pre m2.
  clear Hpre.
  assert (Hm1 : {| self := self m1; world := world m1; trace := trace m1 |}
                = m1) by (destruct m1; reflexivity).
  rewrite Hm1 in Heq. clear Hm1.
  apply bind_ok in Heq. destruct Heq as (x1 & m2 & Hpre & Heq).
  apply preprocessors_chained in Hpre.
  destruct Hpre as (evs_pre & Hpre & Ht2 & Hs2).
  (* the prediction *)
  apply bind_ok in Heq. destruct Heq as (y0 & m3 & Hpred & Heq).
  assert (Hpred' : trace m3 =
                     trace m2 ++ [predict_event (_model (self m)) x1 y0] /\
                   self m3 = self m2).
  { unfold _predict, model in Hpred.
    apply bind_ok in Hpred. destruct Hpred as (mdl & m4 & Hget & Hpred).
    unfold on_self, gets in Hget. simpl in Hget. inversion Hget; subst mdl m4.
    clear Hget. unfold predict_event. rewrite <- Hs1, <- Hs2.
    destruct (isinstance (_model (self m2)) Approximator);
      apply call_method_ok in Hpred; destruct Hpred as [_ Hpred];
      apply invoke_ok in Hpred; destruct Hpred as (w & _ & ->);
      split; reflexivity. }
  destruct Hpred' as [Ht3 Hs3]. clear Hpred.
  (* the postprocessors *)
  apply bind_ok in Heq. destruct Heq as ([] & m4 & Hset & Heq).
  unfold set_action_data, on_self, modify in Hset. simpl in Hset.
  inversion Hset; subst m4. clear Hset.
  apply bind_ok in Heq. destruct Heq as (post & m5 & Hpost & Heq).
  unfold on_self, gets in Hpost. simpl in Hpost.
  inversion Hpost; subst post m5. clear Hpost.
  apply bind_ok in Heq. destruct Heq as ([] & m5 & Hpost & Heq).
  apply postprocessors_chained in Hpost.
  destruct Hpost as (evs_post & Hpost & Ht5 & Hf5). simpl in Hpost, Ht5, Hf5.
  (* the loop over the actions *)
  match type of Heq with
  | ?c m5 = _ => assert (Hrest : keeps is_dispatch_call c)
  end.
  { unfold actions.
    apply keeps_bind; [apply keeps_gets |]. intros data1.
    apply keeps_bind;
      [apply keeps_when, keeps_set_action_data |]. intros _.
    apply keeps_bind; [apply keeps_gets |]. intros acts.
    apply keeps_bind;
      [apply keeps_call_object; intros; reflexivity |]. intros leaves.
    apply keeps_bind; [apply keeps_gets |]. intros data2.
    apply keeps_bind;
      [apply keeps_for_each; intros; apply keeps_dispatch |]. intros _.
    apply keeps_bind; [apply keeps_gets |].
    intros [ | | | | [| x [| y l]] | | | | | | ];
      first [apply keeps_ret | apply keeps_set_action_data]. }
  apply Hrest in Heq. destruct Heq as (evs_rest & Ht6 & Hdisp & _).
  exists x0, x1, y0, (action_data (self m5)), evs_state, evs_pre, evs_post,
    evs_rest.
  split; [exact Hres |].
  split; [rewrite Hs1 in Hpre; exact Hpre |].
  split.
  { assert (Hpp : postprocessors (self m) = postprocessors (self m3))
      by (rewrite Hs3, Hs2, Hs1; reflexivity).
    rewrite Hpp.
    replace (postprocessors (self m3))
      with (postprocessors (with_action_data (self m3) y0))
      by reflexivity.
    exact Hpost. }
  split; [| exact Hdisp].
  rewrite Ht6, Ht5, Ht3, Ht2, Ht1. rewrite <- !app_assoc. reflexivity.
Qed.

End Pipeline.

Section AtMostOnce.
Context {lib : ArrayLib} {collaborators : Collaborators}.

Lemma at_most_keeps P {A} (c : M A) :
  keeps (fun e => negb (P e)) c -> at_most P 0 c.
Proof.
  intros Hc m r m' Heq. destruct (Hc _ _ _ Heq) as (evs & Ht & HP & _).
  exists evs. split; [exact Ht |]. rewrite (count_none _ _ HP). lia.
Qed.

Lemma at_most_weaken P n k {A} (c : M A) :
  (n <= k)%nat -> at_most P n c -> at_most P k c.
Proof.
  intros Hle Hc m r m' Heq. destruct (Hc _ _ _ Heq) as (evs & Ht & Hn).
  exists evs. split; [exact Ht | lia].
Qed.

Lemma at_most_bind P n k {A B} (c : M A) (f : A -> M B) :
  at_most P n c -> (forall a, at_most P k (f a)) ->
  at_most P (n + k) (bind c f).
Proof.
  intros Hc Hf m r m' Heq.
  destruct (bind_cases _ _ _ _ _ Heq) as [(a & m1 & H1 & H2) | (e & H1 & _)].
  - destruct (Hc _ _ _ H1) as (evs1 & Ht1 & Hn1).
    destruct (Hf a _ _ _ H2) as (evs2 & Ht2 & Hn2).
    exists (evs1 ++ evs2). rewrite Ht2, Ht1, app_assoc, count_app.
    split; [reflexivity | lia].
  - destruct (Hc _ _ _ H1) as (evs1 & Ht1 & Hn1).
    exists evs1. split; [exact Ht1 | lia].
Qed.

Lemma at_most_call_method P {A} receiver (c : call A) :
  at_most P 1 (call_method receiver c).
Proof.
  intros m r m' Heq. unfold call_method in Heq.
  destruct (is_object receiver).
  - unfold invoke in Heq. destruct (respond A c (world m)) as [r0 w].
    inversion Heq; subst. exists [Event c r]. split; [reflexivity |].
    unfold count. simpl. destruct (P (Event c r)); simpl; lia.
  - inversion Heq; subst. exists []. rewrite app_nil_r.
    split; [reflexivity |]. unfold count. simpl. lia.
Qed.

Lemma at_most__predict P state to_numpy return_logits set_output_data :
  at_most P 1 (_predict state to_numpy return_logits set_output_data).
Proof.
  unfold _predict, model.
  apply (at_most_bind P 0 1); [apply at_most_keeps, keeps_gets |].
  intros model. destruct (isinstance model Approximator);
    apply at_most_call_method.
Qed.

(** A prediction calls [predict] once at most, however it ends. *)
Lemma at_most_predict_tick state to_numpy return_logits :
  at_most is_predict 1 (predict_tick state to_numpy return_logits).
Proof.
  unfold predict_tick, states, actions.
  apply (at_most_bind is_predict 0 1);
    [apply at_most_keeps; destruct (is_None state); keeps_step |].
  intros state0. apply (at_most_bind is_predict 0 1).
  { apply at_most_keeps. destruct (isinstance state0 State); [| keeps_step].
    apply keeps_bind; [keeps_step |]. intros [| x [| y l]]; keeps_step. }
  intros state1.
  apply (at_most_bind is_predict 0 1); [apply at_most_keeps; keeps_step |].
  intros pre. apply (at_most_bind is_predict 0 1);
    [apply at_most_keeps, keeps_for_fold; intros; keeps_step |].
  intros state2. apply (at_most_bind is_predict 1 0);
    [apply at_most__predict |].
  intros data. apply at_most_keeps.
  apply keeps_bind; [keeps_step |]. intros _.
  apply keeps_bind; [keeps_step |]. intros post.
  apply keeps_bind; [apply keeps_for_each; intros; repeat keeps_step |].
  intros _. apply keeps_bind; [keeps_step |]. intros data1.
  apply keeps_bind; [repeat keeps_step |]. intros _.
  apply keeps_bind; [keeps_step |]. intros acts.
  apply keeps_bind; [keeps_step |]. intros leaves.
  apply keeps_bind; [keeps_step |]. intros data2.
  apply keeps_bind.
  { apply keeps_for_each. intros item.
    eapply keeps_weaken; [| apply keeps_dispatch].
    intros [A c r] He; destruct c; simpl in He; try discriminate;
      reflexivity. }
  intros _. apply keeps_bind; [keeps_step |].
  intros [ | | | | [| x [| y l]] | | | | | | ]; keeps_step.
Qed.

(** A call of [act] calls [predict] once at most, however it ends. *)
Lemma act_at_most_one_predict
    state deterministic to_numpy return_logits apply_action :
  at_most is_predict 1
    (act state deterministic to_numpy return_logits apply_action).
Proof.
  intros m r m' Hact. apply act_inv in Hact.
  destruct (py_mod (cnt (self m)) (_rate (self m))) as [tick | e].
  2:{ destruct Hact as [_ ->]. exists []. rewrite app_nil_r.
      split; [reflexivity |]. unfold count. simpl. lia. }
  destruct (when (tick =? 0) (predict_tick state to_numpy return_logits) m)
    as [r1 m1] eqn:Htick.
  assert (H1 : exists evs1, trace m1 = trace m ++ evs1 /\
                            (count is_predict evs1 <= 1)%nat).
  { destruct (tick =? 0); simpl in Htick.
    - apply at_most_predict_tick in Htick. exact Htick.
    - inversion Htick; subst. exists []. rewrite app_nil_r.
      split; [reflexivity |]. unfold count. simpl. lia. }
  destruct H1 as (evs1 & Ht1 & Hn1).
  destruct r1 as [[] | e]; [| destruct Hact as [_ ->]; eauto].
  destruct (apply_actions apply_action m1) as [r2 m2] eqn:Happly.
  apply apply_actions_inv in Happly.
  destruct Happly as (_ & evs2 & Ht2 & Hacts & _).
  assert (Hn2 : count is_predict evs2 = 0%nat).
  { apply count_none. eapply forallb_weaken; [| exact Hacts].
    intros [A c r0] He; destruct c; simpl in He; try discriminate;
      reflexivity. }
  exists (evs1 ++ evs2). rewrite count_app, Hn2.
  split; [| lia].
  destruct r2 as [[] | e]; destruct Hact as [_ ->]; simpl;
    rewrite Ht2, Ht1, app_assoc; reflexivity.
Qed.

End AtMostOnce.

Section PredictionTick.
Context {lib : ArrayLib} {collaborators : Collaborators}.

(** A call of [act] that returns, on a tick that is a multiple of the
    rate: the calls it made, in order. *)
Lemma act_tick_returns
    (state : pyval)
    (deterministic to_numpy return_logits apply_action : bool)
    (m m' : machine) (v : pyval) :
  py_mod (cnt (self m)) (_rate (self m)) = Ok 0 ->
  act state deterministic to_numpy return_logits apply_action m = (Ok v, m') ->
  exists (x0 x1 y0 y1 : pyval)
         (evs_state evs_pre evs_post evs_rest : list event),
    resolved (self m) state evs_state x0 /\
    chained (preprocessors (self m)) x0 evs_pre x1 /\
    chained (postprocessors (self m)) y0 evs_post y1 /\
    trace m' =
      trace m ++ evs_state ++ evs_pre ++
      predict_event (_model (self m)) x1 y0 :: evs_post ++ evs_rest /\
    forallb (fun e => negb (is_predict e) && negb (is_processor_call e))
      evs_rest = true /\
    action_data (self m') = v.
Proof.
  intros Htick Hact.
  apply act_inv in Hact. rewrite Htick in Hact.
  simpl in Hact.
  destruct (predict_tick state to_numpy return_logits m)
    as [[[] | e] m1] eqn:Hpredict; [| destruct Hact; discriminate].
  destruct (apply_actions apply_action m1) as [[[] | e] m2] eqn:Happly;
    [| destruct Hact; discriminate].
  destruct Hact as [Hv ->]. inversion Hv; subst v. clear Hv.
  apply apply_actions_inv in Happly.
  destruct Happly as (_ & evs_a & Hta & Hacts & _).
  apply predict_tick_ok in Hpredict.
  destruct Hpredict
    as (x0 & x1 & y0 & y1 & evs_state & evs_pre & evs_post & evs_rest
        & Hres & Hpre & Hpost & Ht & Hdisp).
  exists x0, x1, y0, y1, evs_state, evs_pre, evs_post, (evs_rest ++ evs_a).
  split; [exact Hres |]. split; [exact Hpre |]. split; [exact Hpost |].
  split.
  { simpl. rewrite Hta, Ht. rewrite <- !app_assoc. simpl.
    rewrite <- !app_assoc. reflexivity. }
  split; [| reflexivity].
  rewrite forallb_app. apply andb_true_intro. split.
  - eapply forallb_weaken; [| exact Hdisp].
    intros [A c r] He; destruct c; simpl in He; try discriminate;
      reflexivity.
  - eapply forallb_weaken; [| exact Hacts].
    intros [A c r] He; destruct c; simpl in He; try discriminate;
      reflexivity.
Qed.

Lemma predict_event_kind mdl x y :
  is_predict (predict_event mdl x y) = true /\
  is_processor_call (predict_event mdl x y) = false.
Proof.
  unfold predict_event. destruct (isinstance mdl Approximator);
    split; reflexivity.
Qed.

(** Among calls in the order of a prediction, one is a [predict]. *)
Lemma count_predict_pipeline p state mdl ps qs x0 x1 y0 y1
    evs_state evs_pre evs_post evs_rest :
  resolved p state evs_state x0 ->
  chained ps x0 evs_pre x1 ->
  chained qs y0 evs_post y1 ->
  forallb (fun e => negb (is_predict e) && negb (is_processor_call e))
    evs_rest = true ->
  count is_predict
    (evs_state ++ evs_pre ++ predict_event mdl x1 y0 :: evs_post ++ evs_rest)
  = 1%nat.
Proof.
  intros Hres Hpre Hpost Hrest.
  assert (Hno : forall evs,
             forallb is_processor_call evs = true ->
             count is_predict evs = 0%nat).
  { intros evs Hevs. apply count_none.
    eapply forallb_weaken; [| exact Hevs].
    intros [A c r] He; destruct c; simpl in He; try discriminate;
      reflexivity. }
  change (predict_event mdl x1 y0 :: evs_post ++ evs_rest)
    with ([predict_event mdl x1 y0] ++ evs_post ++ evs_rest).
  rewrite !count_app.
  rewrite (Hno _ (chained_processor_calls _ _ _ _ Hpre)).
  rewrite (Hno _ (chained_processor_calls _ _ _ _ Hpost)).
  rewrite (count_none is_predict evs_state).
  2:{ eapply forallb_weaken; [| exact (resolved_calls _ _ _ _ Hres)].
      intros e He. apply andb_prop in He. apply He. }
  rewrite (count_none is_predict evs_rest).
  2:{ eapply forallb_weaken; [| exact Hrest].
      intros e He. apply andb_prop in He. apply He. }
  unfold count. simpl.
  rewrite (proj1 (predict_event_kind mdl x1 y0)). reflexivity.
Qed.

End PredictionTick.

(** ** The loop over the actions *)

Section Dispatch.
Context {lib : ArrayLib} {collaborators : Collaborators}.

Lemma invoke_run {A} (c : call A) m r w :
  respond A c (world m) = (r, w) -> invoke c m = (r, answered m c r w).
Proof. unfold invoke, answered. intros ->. reflexivity. Qed.

Lemma setitem_action_data_run idx v l m :
  action_data (self m) = PyList l ->
  (idx < length l)%nat ->
  setitem_action_data idx v m = (Ok tt, stored m (PyList (<[idx := v]> l))).
Proof.
  intros Hl Hidx. unfold setitem_action_data, bind, on_self, gets. simpl.
  rewrite Hl. rewrite bool_decide_eq_true_2 by exact Hidx.
  destruct m; reflexivity.
Qed.

End Dispatch.

(** ** The effects of a call of [act] *)

Section Effects.
Context {lib : ArrayLib} {collaborators : Collaborators}.

Lemma frame_ticked p q : frame p q -> frame p (with_cnt q (cnt p)) .
Proof. unfold frame. intros ->. destruct p; reflexivity. Qed.

(** Every run of [act], returning or raising: the calls it makes are
    those of the prediction, if any, followed by at most one call of the
    actions; the counter moves, by one, exactly when the run returns; the
    value returned is the stored action data; no other attribute of the
    policy is assigned. *)
Lemma act_effects state deterministic to_numpy return_logits apply_action
    m r m' :
  act state deterministic to_numpy return_logits apply_action m = (r, m') ->
  exists evs_tick evs_act,
    trace m' = trace m ++ evs_tick ++ evs_act /\
    forallb is_tick_call evs_tick = true /\
    forallb is_actions_call evs_act = true /\
    (length evs_act <= 1)%nat /\
    (apply_action = false -> evs_act = []) /\
    (is_ok r = true ->
     length evs_act = (if apply_action then 1 else 0)%nat) /\
    (forall e, In e evs_act ->
               exists ra,
                 e = Event (actions_call (_actions (self m))) ra /\
                 (is_ok r = true -> is_ok ra = true)) /\
    (forall tick,
       py_mod (cnt (self m)) (_rate (self m)) = Ok tick -> tick <> 0 ->
       evs_tick = [] /\ action_data (self m') = action_data (self m)) /\
    cnt (self m') = (if is_ok r then cnt (self m) + 1 else cnt (self m)) /\
    (forall v, r = Ok v -> action_data (self m') = v) /\
    frame (self m) (with_cnt (self m') (cnt (self m))).
Proof.
  intros Hact. apply act_inv in Hact.
  destruct (py_mod (cnt (self m)) (_rate (self m))) as [tick | e] eqn:Hmod.
  2:{ destruct Hact as [-> ->]. exists [], []. rewrite !app_nil_r. simpl.
      conjs; auto; try discriminate; try (intros e0 []; fail). apply frame_ticked, frame_refl. }
  destruct (when (tick =? 0) (predict_tick state to_numpy return_logits) m)
    as [r1 m1] eqn:Htick.
  assert (H1 : exists evs_tick,
             trace m1 = trace m ++ evs_tick /\
             forallb is_tick_call evs_tick = true /\
             frame (self m) (self m1) /\
             (tick <> 0 -> evs_tick = [] /\ m1 = m /\ r1 = Ok tt)).
  { destruct (tick =? 0) eqn:Hz; simpl in Htick.
    - destruct (keeps_predict_tick _ _ _ _ _ _ Htick) as (evs & Ht & HP & Hf).
      exists evs. conjs; auto. intros Hnz. apply Z.eqb_eq in Hz.
      contradiction.
    - inversion Htick; subst. exists []. rewrite app_nil_r.
      conjs; auto. apply frame_refl. }
  destruct H1 as (evs_tick & Ht1 & HP1 & Hf1 & Hoff).
  destruct r1 as [[] | e].
  2:{ destruct Hact as [-> ->]. exists evs_tick, []. rewrite app_nil_r.
      simpl. conjs; auto; try discriminate; try (intros e0 []; fail).
      - intros tick' Heq Hnz. inversion Heq; subst tick'.
        destruct (Hoff Hnz) as (_ & _ & Habs). discriminate.
      - apply frame_cnt, Hf1.
      - apply frame_ticked, Hf1. }
  destruct (apply_actions apply_action m1) as [r2 m2] eqn:Happly.
  apply apply_actions_inv in Happly.
  destruct Happly as (Hs2 & evs_act & Ht2 & HP2 & Hno & Hone & Hle & Hwho).
  destruct (frame_fields _ _ Hf1) as (_ & Hacts & _). rewrite Hacts in Hwho.
  assert (Hoff' : forall tick',
             Ok tick = Ok tick' -> tick' <> 0 ->
             evs_tick = [] /\ action_data (self m2) = action_data (self m)).
  { intros tick' Heq Hnz. inversion Heq; subst tick'.
    destruct (Hoff Hnz) as (-> & -> & _). rewrite Hs2. split; reflexivity. }
  assert (Hno' : apply_action = false -> evs_act = [])
    by (intros H; destruct (Hno H) as [Hevs _]; exact Hevs).
  destruct r2 as [[] | e].
  - destruct Hact as [-> ->]. exists evs_tick, evs_act. simpl.
    rewrite Ht2, Ht1, <- app_assoc.
    conjs; auto.
    + intros e0 He0. destruct (Hwho e0 He0) as (ra & -> & Hra).
      exists ra. split; [reflexivity |]. intros _. apply Hra. reflexivity.
    + rewrite Hs2. rewrite (frame_cnt _ _ Hf1). reflexivity.
    + intros v Hv. inversion Hv. reflexivity.
    + rewrite Hs2. unfold frame in *. rewrite Hf1 at 1.
      destruct (self m); reflexivity.
  - destruct Hact as [-> ->]. exists evs_tick, evs_act. simpl.
    rewrite Ht2, Ht1, <- app_assoc.
    conjs; auto; try discriminate.
    + intros e0 He0. destruct (Hwho e0 He0) as (ra & -> & _).
      exists ra. split; [reflexivity | discriminate].
    + rewrite Hs2. apply frame_cnt, Hf1.
    + rewrite Hs2. apply frame_ticked, Hf1.
Qed.

End Effects.

(** ** Rate gating and the execution of the actions *)

Section Gating.
Context {lib : ArrayLib} {collaborators : Collaborators}.

Lemma count_all P evs :
  forallb P evs = true -> count P evs = length evs.
Proof.
  unfold count. induction evs as [| e evs IH]; simpl; [reflexivity |].
  intros H. apply andb_prop in H. destruct H as [He Hevs].
  rewrite He. simpl. rewrite IH; auto.
Qed.

Lemma tick_call_not_actions_call e :
  is_tick_call e = true -> negb (is_actions_call e) = true.
Proof. destruct e as [A c r]; destruct c; simpl; auto. Qed.

Lemma actions_call_not_pipeline e :
  is_actions_call e = true ->
  negb (is_processor_call e) = true /\ negb (is_predict e) = true.
Proof. destruct e as [A c r]; destruct c; simpl; auto; discriminate. Qed.

(** C5, as the code has it.  A call of [act] that returns has increased
    the tick counter by exactly one, and one that raises has left it as it
    was.  On a call where [cnt % rate != 0], the stored action data is left
    unchanged, no preprocessor and no postprocessor runs, [predict] is not
    called (the only call there can be is the one of the actions), and the
    stored action data is what the call returns.  The data a call returns is
    the data stored, so a call that follows it on a tick that is no multiple
    of the rate returns the same data again. *)
Theorem act_rate_gating
    (state : pyval)
    (deterministic to_numpy return_logits apply_action : bool)
    (m m' : machine) (r : result pyval) :
  act state deterministic to_numpy return_logits apply_action m = (r, m') ->
  cnt (self m') = (if is_ok r then cnt (self m) + 1 else cnt (self m)) /\
  (forall tick,
     py_mod (cnt (self m)) (_rate (self m)) = Ok tick -> tick <> 0 ->
     action_data (self m') = action_data (self m) /\
     (exists evs,
        trace m' = trace m ++ evs /\
        forallb is_actions_call evs = true /\
        count is_processor_call evs = 0%nat /\
        count is_predict evs = 0%nat) /\
     (forall v, r = Ok v -> v = action_data (self m))) /\
  (forall v,
     r = Ok v ->
     action_data (self m') = v /\
     forall state2 deterministic2 to_numpy2 return_logits2 apply_action2
            tick2 v2 m2,
       py_mod (cnt (self m')) (_rate (self m')) = Ok tick2 -> tick2 <> 0 ->
       act state2 deterministic2 to_numpy2 return_logits2 apply_action2 m'
       = (Ok v2, m2) ->
       v2 = v).
Proof.
  intros Hact. apply act_effects in Hact.
  destruct Hact
    as (evs_tick & evs_act & Ht & Htick & Hacts & _ & _ & _ & _ & Hoff & Hcnt
        & Hret & _).
  split; [exact Hcnt |]. split.
  - intros tick Hmod Hnz. destruct (Hoff tick Hmod Hnz) as [-> Hdata].
    split; [exact Hdata |]. split.
    + exists evs_act. simpl in Ht.
      split; [exact Ht |]. split; [exact Hacts |]. split.
      * apply count_none. eapply forallb_weaken; [| exact Hacts].
        intros e He. apply actions_call_not_pipeline, He.
      * apply count_none. eapply forallb_weaken; [| exact Hacts].
        intros e He. apply actions_call_not_pipeline, He.
    + intros v Hv. rewrite <- Hdata. symmetry. apply Hret, Hv.
  - intros v Hv. split; [apply Hret, Hv |].
    intros state2 deterministic2 to_numpy2 return_logits2 apply_action2
      tick2 v2 m2 Hmod2 Hnz2 Hact2.
    apply act_effects in Hact2.
    destruct Hact2
      as (evs_tick2 & evs_act2 & _ & _ & _ & _ & _ & _ & _ & Hoff2 & _
          & Hret2 & _).
    destruct (Hoff2 tick2 Hmod2 Hnz2) as [_ Hdata2].
    rewrite <- (Hret2 v2 eq_refl), Hdata2. apply Hret, Hv.
Qed.

(** C6, as the code has it.  A call of [act] with [apply_action=True]
    that returns has called the actions object exactly once, on a
    prediction tick and on any other tick alike, and that call is the last
    one made; a call that raises has called it once at most.  With
    [apply_action=False] the actions object is not called, whether the
    call of [act] returns or raises. *)
Theorem act_calls_actions
    (state : pyval)
    (deterministic to_numpy return_logits apply_action : bool)
    (m m' : machine) (r : result pyval) :
  act state deterministic to_numpy return_logits apply_action m = (r, m') ->
  exists evs,
    trace m' = trace m ++ evs /\
    (apply_action = false -> count is_actions_call evs = 0%nat) /\
    (apply_action = true -> is_ok r = true ->
     count is_actions_call evs = 1%nat /\
     exists before a,
       evs = before ++ [Event (actions_call (_actions (self m))) (Ok a)]) /\
    (count is_actions_call evs <= 1)%nat.
Proof.
  intros Hact. apply act_effects in Hact.
  destruct Hact
    as (evs_tick & evs_act & Ht & Htick & Hacts & Hle & Hno & Hone & Hwho
        & _).
  assert (Hcount : count is_actions_call (evs_tick ++ evs_act)
                   = length evs_act).
  { rewrite count_app, (count_all _ _ Hacts).
    rewrite (count_none is_actions_call evs_tick); [reflexivity |].
    eapply forallb_weaken; [| exact Htick].
    intros e He. apply tick_call_not_actions_call, He. }
  exists (evs_tick ++ evs_act). rewrite Hcount.
  split; [exact Ht |]. split; [| split; [| exact Hle]].
  - intros Hap. rewrite (Hno Hap). reflexivity.
  - intros Hap Hok. subst apply_action. specialize (Hone Hok).
    split; [exact Hone |].
    destruct evs_act as [| e [| e' rest]]; try discriminate.
    destruct (Hwho e (or_introl eq_refl)) as (ra & -> & Hra).
    specialize (Hra Hok). destruct ra as [a | ex]; [| discriminate].
    exists evs_tick, a. reflexivity.
Qed.

End Gating.

(** ** The properties of the policy: model binding and validation *)

Section Properties.
Context {lib : ArrayLib}.

Lemma isinstance_not_None v c : isinstance v c = true -> is_None v = false.
Proof. destruct v; simpl; intros H; try discriminate; reflexivity. Qed.

Lemma set_model_run (p : Policy) (v : pyval) :
  set_model v p =
  (Ok tt,
   with_model p
     (if negb (is_None v) && negb (isinstance v Approximator) then
        if isinstance v Model
        then PyApproximator (_states p) (_actions p) v
        else v
      else v)).
Proof.
  unfold set_model, states, actions.
  destruct (negb (is_None v) && negb (isinstance v Approximator));
    [destruct (isinstance v Model) |]; reflexivity.
Qed.

Lemma set_states_run (p : Policy) (v : pyval) :
  set_states v p =
  if is_None v || isinstance v State then (Ok tt, with_states p v)
  else (Raise TypeError, p).
Proof.
  unfold set_states, when.
  destruct (is_None v); simpl; [reflexivity |].
  destruct (isinstance v State); reflexivity.
Qed.

Lemma set_actions_run (p : Policy) (v : pyval) :
  set_actions v p =
  if isinstance v Action then (Ok tt, with_actions p v)
  else (Raise TypeError, p).
Proof.
  unfold set_actions, when. destruct (isinstance v Action); reflexivity.
Qed.

Lemma set_rate_run (p : Policy) (v : pyval) :
  set_rate v p =
  if isinstance_int v then (Ok tt, with_rate p v)
  else (Raise TypeError, p).
Proof.
  unfold set_rate, when. destruct (isinstance_int v); reflexivity.
Qed.

(** C7. Assigning to [policy.model] an instance of [Model] that is no
    [Approximator] stores [Approximator(inputs=policy.states,
    outputs=policy.actions, model=it)]; an [Approximator] instance, and
    [None], are stored as they are.  The constructor does the same with its
    [model] argument, the states and the actions being the ones it was
    given. *)
Theorem model_binding (p : Policy) (v : pyval) :
  (isinstance v Model = true -> isinstance v Approximator = false ->
   set_model v p =
   (Ok tt, with_model p (PyApproximator (_states p) (_actions p) v)) /\
   model (with_model p (PyApproximator (_states p) (_actions p) v)) =
   (Ok (PyApproximator (_states p) (_actions p) v),
    with_model p (PyApproximator (_states p) (_actions p) v))) /\
  (isinstance v Approximator = true \/ v = PyNone ->
   set_model v p = (Ok tt, with_model p v) /\
   model (with_model p v) = (Ok v, with_model p v)) /\
  (forall states actions rate preprocessors postprocessors p',
     new_Policy states actions v rate preprocessors postprocessors = Ok p' ->
     _states p' = states /\ _actions p' = actions /\
     (isinstance v Model = true -> isinstance v Approximator = false ->
      _model p' = PyApproximator states actions v) /\
     (isinstance v Approximator = true \/ v = PyNone -> _model p' = v)).
Proof.
  split; [| split].
  - intros HM HA. rewrite set_model_run.
    rewrite (isinstance_not_None _ _ HM), HA, HM. simpl.
    split; reflexivity.
  - intros Hv. rewrite set_model_run. split; [| reflexivity].
    destruct Hv as [HA | ->]; [rewrite HA, andb_false_r |]; reflexivity.
  - intros states0 actions0 rate0 pre post p' Hnew.
    unfold new_Policy, __init__, bind in Hnew.
    rewrite set_states_run in Hnew.
    destruct (is_None states0 || isinstance states0 State); [| discriminate].
    rewrite set_actions_run in Hnew.
    destruct (isinstance actions0 Action); [| discriminate].
    rewrite set_model_run in Hnew. unfold modify at 1 in Hnew.
    rewrite set_rate_run in Hnew.
    destruct (isinstance_int rate0); [| discriminate].
    unfold modify in Hnew. inversion Hnew; subst p'. clear Hnew. simpl.
    split; [reflexivity |]. split; [reflexivity |]. split.
    + intros HM HA. rewrite (isinstance_not_None _ _ HM), HA, HM.
      reflexivity.
    + intros [HA | ->]; [rewrite HA, andb_false_r |]; reflexivity.
Qed.

(** C8. Assigning to [policy.states] a value that is neither [None] nor
    a [State] instance, to [policy.actions] one that is no [Action]
    instance, to [policy.rate] one that is no [int], raises [TypeError] and
    leaves the policy as it was; any other value is stored, no other
    attribute changes, and the getter returns exactly that value. *)
Theorem setters_validate (p : Policy) (v : pyval) :
  (is_None v = false -> isinstance v State = false ->
   set_states v p = (Raise TypeError, p)) /\
  (isinstance v Action = false -> set_actions v p = (Raise TypeError, p)) /\
  (isinstance_int v = false -> set_rate v p = (Raise TypeError, p)) /\
  (is_None v = true \/ isinstance v State = true ->
   set_states v p = (Ok tt, with_states p v) /\
   states (with_states p v) = (Ok v, with_states p v)) /\
  (isinstance v Action = true ->
   set_actions v p = (Ok tt, with_actions p v) /\
   actions (with_actions p v) = (Ok v, with_actions p v)) /\
  (isinstance_int v = true ->
   set_rate v p = (Ok tt, with_rate p v) /\
   rate (with_rate p v) = (Ok v, with_rate p v)).
Proof.
  rewrite set_states_run, set_actions_run, set_rate_run.
  conjs.
  - intros -> ->. reflexivity.
  - intros ->. reflexivity.
  - intros ->. reflexivity.
  - intros [-> | ->]; rewrite ?orb_true_r; split; reflexivity.
  - intros ->. split; reflexivity.
  - intros ->. split; reflexivity.
Qed.

End Properties.

(** ** The methods that forward to the inner model *)

Section InnerModel.
Context {lib : ArrayLib} {collaborators : Collaborators}.

Lemma machine_eta (m : machine) :
  {| self := self m; world := world m; trace := trace m |} = m.
Proof. destruct m; reflexivity. Qed.

Lemma on_self_model_run (m : machine) :
  on_self model m = (Ok (_model (self m)), m).
Proof. unfold on_self, model, gets. simpl. rewrite machine_eta. reflexivity. Qed.

Lemma raise_value_raises {A} (v : pyval) (m : machine) :
  exists e, @raise_value _ _ A v m = (Raise e, m).
Proof. destruct v; simpl; eexists; reflexivity. Qed.

(** C9. [Policy.is_recurrent()] never returns normally: every run of it
    raises.  When the inner model answers [is_recurrent()] with an ordinary
    boolean, the statement [raise <that boolean>] raises [TypeError], after
    that one call on the model. *)
Theorem is_recurrent_raises (m : machine) :
  (exists e m', is_recurrent m = (Raise e, m')) /\
  (forall (b : bool) (w : env),
     is_object (_model (self m)) = true ->
     respond pyval (model_method (_model (self m)) "is_recurrent") (world m)
     = (Ok (PyBool b), w) ->
     is_recurrent m =
     (Raise TypeError,
      answered m (model_method (_model (self m)) "is_recurrent")
        (Ok (PyBool b)) w)).
Proof.
  unfold is_recurrent. split.
  - rewrite (bind_step _ _ _ _ _ (on_self_model_run m)).
    destruct (call_method (_model (self m))
                (model_method (_model (self m)) "is_recurrent") m)
      as [[v | e] m1] eqn:Hcall.
    + rewrite (bind_step _ _ _ _ _ Hcall).
      destruct (@raise_value_raises pyval v m1) as [e He].
      exists e, m1. exact He.
    + rewrite (bind_raise _ _ _ _ _ Hcall). exists e, m1. reflexivity.
  - intros b w Hobj Hresp.
    rewrite (bind_step _ _ _ _ _ (on_self_model_run m)).
    erewrite bind_step.
    2:{ unfold call_method. rewrite Hobj. apply invoke_run, Hresp. }
    reflexivity.
Qed.

(** The loops of [reset] over the processors. *)
Lemma reset_loop ps m r m' :
  for_each ps
    (fun processor => call_method processor (processor_reset processor)) m
  = (r, m') ->
  self m' = self m /\
  exists evs,
    trace m' = trace m ++ evs /\
    (r = Ok tt ->
     evs = map (fun p => Event (processor_reset p) (Ok tt)) ps) /\
    (forall e, r = Raise e ->
       forallb is_object ps = true -> forallb returned evs = false).
Proof.
  revert m. induction ps as [| p ps IH]; intros m Heq; simpl in Heq.
  - inversion Heq; subst. split; [reflexivity |]. exists [].
    rewrite app_nil_r. conjs; auto. discriminate.
  - destruct (bind_cases _ _ _ _ _ Heq)
      as [([] & m1 & Hcall & Hrest) | (e & Hcall & ->)].
    + apply call_method_ok in Hcall. destruct Hcall as [Hobj Hcall].
      apply invoke_ok in Hcall. destruct Hcall as (w & _ & ->).
      apply IH in Hrest. destruct Hrest as (Hs & evs & Ht & Hok & Hraise).
      simpl in Hs, Ht. split; [exact Hs |].
      exists (Event (processor_reset p) (Ok tt) :: evs).
      rewrite <- app_assoc in Ht. conjs; [exact Ht | |].
      * intros Hr. rewrite (Hok Hr). reflexivity.
      * intros e Hr Hobjs. simpl in Hobjs. apply andb_prop in Hobjs.
        simpl. apply (Hraise e Hr), Hobjs.
    + unfold call_method in Hcall.
      destruct (is_object p) eqn:Hobj.
      * unfold invoke in Hcall.
        destruct (respond unit (processor_reset p) (world m)) as [r0 w].
        inversion Hcall; subst. split; [reflexivity |].
        eexists [_]. conjs; [reflexivity | discriminate |].
        intros _ _ _. reflexivity.
      * inversion Hcall; subst. split; [reflexivity |]. exists [].
        rewrite app_nil_r. conjs; [reflexivity | discriminate |].
        intros _ _ Hobjs. simpl in Hobjs. rewrite Hobj in Hobjs.
        discriminate.
Qed.

(** C10. For a policy whose model is [None]: [parameters()],
    [named_parameters()], [list_parameters()], [hyperparameters()] and
    [named_hyperparameters()] return the empty list and
    [list_hyperparameters()] returns [None], none of them calling anything;
    [reset()] raises, whatever its [reset_processors] argument, which it
    does not look at; and when the processors are objects whose [reset()]
    all return, it raises [AttributeError] (from [self.model.reset()]) after
    having reset every preprocessor and then every postprocessor, in
    order. *)
Theorem model_None_methods (m : machine) :
  _model (self m) = PyNone ->
  parameters m = (Ok (PyList []), m) /\
  named_parameters m = (Ok (PyList []), m) /\
  list_parameters m = (Ok (PyList []), m) /\
  hyperparameters m = (Ok (PyList []), m) /\
  named_hyperparameters m = (Ok (PyList []), m) /\
  list_hyperparameters m = (Ok PyNone, m) /\
  forall reset_processors : bool,
    reset reset_processors m = reset (negb reset_processors) m /\
    exists e m',
      reset reset_processors m = (Raise e, m') /\
      self m' = self m /\
      exists evs,
        trace m' = trace m ++ evs /\
        (forallb is_object (preprocessors (self m) ++ postprocessors (self m))
         = true ->
         forallb returned evs = true ->
         e = AttributeError /\
         evs = map (fun p => Event (processor_reset p) (Ok tt))
                 (preprocessors (self m) ++ postprocessors (self m))).
Proof.
  intros Hnone.
  assert (Hget : forall (k : pyval -> M pyval),
             bind (on_self model) k m = k PyNone m).
  { intros k. rewrite (bind_step _ _ _ _ _ (on_self_model_run m)).
    rewrite Hnone. reflexivity. }
  unfold parameters, named_parameters, list_parameters, hyperparameters,
    named_hyperparameters, list_hyperparameters.
  rewrite !Hget. simpl.
  conjs; try reflexivity.
  intros reset_processors. split; [reflexivity |].
  unfold reset.
  assert (Hpre : on_self (gets preprocessors) m
                 = (Ok (preprocessors (self m)), m))
    by (unfold on_self, gets; simpl; rewrite machine_eta; reflexivity).
  rewrite (bind_step _ _ _ _ _ Hpre).
  destruct (for_each (preprocessors (self m))
              (fun processor =>
                 call_method processor (processor_reset processor)) m)
    as [r1 m1] eqn:Hloop1.
  pose proof (reset_loop _ _ _ _ Hloop1) as (Hs1 & evs1 & Ht1 & Hok1 & Hr1).
  destruct r1 as [[] | e1].
  2:{ rewrite (bind_raise _ _ _ _ _ Hloop1). exists e1, m1.
      conjs; [reflexivity | exact Hs1 |]. exists evs1.
      split; [exact Ht1 |]. intros Hobjs Hret.
      rewrite forallb_app in Hobjs. apply andb_prop in Hobjs.
      destruct Hobjs as [Hobjs _].
      rewrite (Hr1 e1 eq_refl Hobjs) in Hret. discriminate. }
  rewrite (bind_step _ _ _ _ _ Hloop1).
  assert (Hpost : on_self (gets postprocessors) m1
                  = (Ok (postprocessors (self m)), m1))
    by (unfold on_self, gets; simpl; rewrite machine_eta, Hs1; reflexivity).
  rewrite (bind_step _ _ _ _ _ Hpost).
  destruct (for_each (postprocessors (self m))
              (fun processor =>
                 call_method processor (processor_reset processor)) m1)
    as [r2 m2] eqn:Hloop2.
  pose proof (reset_loop _ _ _ _ Hloop2) as (Hs2 & evs2 & Ht2 & Hok2 & Hr2).
  destruct r2 as [[] | e2].
  2:{ rewrite (bind_raise _ _ _ _ _ Hloop2). exists e2, m2.
      conjs; [reflexivity | rewrite Hs2; exact Hs1 |]. exists (evs1 ++ evs2).
      split; [rewrite Ht2, Ht1, app_assoc; reflexivity |].
      intros Hobjs Hret.
      rewrite forallb_app in Hobjs. apply andb_prop in Hobjs.
      destruct Hobjs as [_ Hobjs].
      rewrite forallb_app, (Hr2 e2 eq_refl Hobjs), andb_false_r in Hret.
      discriminate. }
  rewrite (bind_step _ _ _ _ _ Hloop2).
  rewrite (bind_step _ _ _ _ _ (on_self_model_run m2)).
  rewrite Hs2, Hs1, Hnone. simpl.
  exists AttributeError, m2.
  conjs; [reflexivity | rewrite Hs2; exact Hs1 |]. exists (evs1 ++ evs2).
  split; [rewrite Ht2, Ht1, app_assoc; reflexivity |].
  intros _ _. split; [reflexivity |].
  rewrite (Hok1 eq_refl), (Hok2 eq_refl), map_app. reflexivity.
Qed.

(** [Policy.__call__] reads the names [args] and [kwargs], which are bound
    nowhere: every call of the policy object raises [NameError], before
    anything is done. *)
Lemma __call___raises
    (state : pyval)
    (deterministic to_numpy return_logits apply_action : bool)
    (m : machine) :
  __call__ state deterministic to_numpy return_logits apply_action m
  = (Raise NameError, m).
Proof. reflexivity. Qed.

End InnerModel.

(** ** The control loop *)

Section ControlLoop.
Context {lib : ArrayLib} {collaborators : Collaborators}.

Lemma act_fields
    state deterministic to_numpy return_logits apply_action m r m' :
  act state deterministic to_numpy return_logits apply_action m = (r, m') ->
  _states (self m') = _states (self m) /\
  _actions (self m') = _actions (self m) /\
  _model (self m') = _model (self m) /\
  _rate (self m') = _rate (self m) /\
  preprocessors (self m') = preprocessors (self m) /\
  postprocessors (self m') = postprocessors (self m) /\
  train_mode (self m') = train_mode (self m).
Proof.
  intros Hact. apply act_effects in Hact.
  destruct Hact as (? & ? & _ & _ & _ & _ & _ & _ & _ & _ & _ & _ & Hframe).
  exact (frame_fields _ _ Hframe).
Qed.

(** What [act] leaves alone: the states, the actions, the model, the rate,
    the processors and the train mode of the policy are the same after a
    call of [act], whether it returns or raises. *)
Theorem act_frame
    (state : pyval)
    (deterministic to_numpy return_logits apply_action : bool)
    (m m' : machine) (r : result pyval) :
  act state deterministic to_numpy return_logits apply_action m = (r, m') ->
  _states (self m') = _states (self m) /\
  _actions (self m') = _actions (self m) /\
  _model (self m') = _model (self m) /\
  _rate (self m') = _rate (self m) /\
  preprocessors (self m') = preprocessors (self m) /\
  postprocessors (self m') = postprocessors (self m) /\
  train_mode (self m') = train_mode (self m).
Proof.
  intros Hact. apply act_effects in Hact.
  destruct Hact
    as (evs_tick & evs_act & _ & _ & _ & _ & _ & _ & _ & _ & _ & _ & Hframe).
  unfold frame in Hframe.
  change (_states (self m')) with (_states (with_cnt (self m') (cnt (self m)))).
  change (_actions (self m'))
    with (_actions (with_cnt (self m') (cnt (self m)))).
  change (_model (self m')) with (_model (with_cnt (self m') (cnt (self m)))).
  change (_rate (self m')) with (_rate (with_cnt (self m') (cnt (self m)))).
  change (preprocessors (self m'))
    with (preprocessors (with_cnt (self m') (cnt (self m)))).
  change (postprocessors (self m'))
    with (postprocessors (with_cnt (self m') (cnt (self m)))).
  change (train_mode (self m'))
    with (train_mode (with_cnt (self m') (cnt (self m)))).
  rewrite Hframe. repeat split.
Qed.

(** A rate of zero: [self.cnt % self.rate] raises [ZeroDivisionError], and
    the call of [act] does nothing else. *)
Theorem act_zero_rate
    (state : pyval)
    (deterministic to_numpy return_logits apply_action : bool)
    (m : machine) :
  int_value (_rate (self m)) = Some 0 ->
  act state deterministic to_numpy return_logits apply_action m
  = (Raise ZeroDivisionError, m).
Proof.
  intros Hrate.
  destruct (act state deterministic to_numpy return_logits apply_action m)
    as [r m'] eqn:Hact.
  apply act_inv in Hact. unfold py_mod in Hact. rewrite Hrate in Hact.
  simpl in Hact. destruct Hact as [-> ->]. reflexivity.
Qed.

Lemma act_n_off_ticks
    state deterministic to_numpy return_logits apply_action (R : Z) :
  forall (n : nat) (m m' : machine) (vs : list pyval),
    _rate (self m) = PyInt R ->
    0 < cnt (self m) mod R ->
    cnt (self m) mod R + Z.of_nat n <= R ->
    act_n n state deterministic to_numpy return_logits apply_action m
    = (Ok vs, m') ->
    Forall (fun v => v = action_data (self m)) vs /\
    length vs = n /\
    exists evs,
      trace m' = trace m ++ evs /\ count is_predict evs = 0%nat /\
      count is_processor_call evs = 0%nat.
Proof.
  induction n as [| n IH]; intros m m' vs Hrate Hpos Hroom Hrun;
    simpl in Hrun.
  - inversion Hrun; subst. split; [constructor |]. split; [reflexivity |].
    exists []. rewrite app_nil_r. repeat split.
  - apply bind_ok in Hrun. destruct Hrun as (v & m1 & Hact & Hrun).
    apply bind_ok in Hrun. destruct Hrun as (vs' & m2 & Hrest & Hret).
    inversion Hret; subst vs m2. clear Hret.
    pose proof (act_fields _ _ _ _ _ _ _ _ Hact) as (_ & _ & _ & Hrate1 & _).
    apply act_effects in Hact.
    destruct Hact
      as (evs_tick & evs_act & Ht & _ & Hacts & _ & _ & _ & _ & Hoff & Hcnt
          & Hret & _).
    assert (Hmod : py_mod (cnt (self m)) (_rate (self m))
                   = Ok (cnt (self m) mod R)).
    { unfold py_mod. rewrite Hrate. simpl.
      destruct (R =? 0) eqn:HR; [| reflexivity].
      apply Z.eqb_eq in HR. subst R. rewrite Z.mod_0_r in Hpos, Hroom. lia. }
    destruct (Hoff _ Hmod ltac:(lia)) as [-> Hdata]. simpl in Ht, Hcnt.
    assert (Hrest' :
              Forall (fun v => v = action_data (self m1)) vs' /\
              length vs' = n /\
              exists evs,
                trace m' = trace m1 ++ evs /\
                count is_predict evs = 0%nat /\
                count is_processor_call evs = 0%nat).
    { destruct n as [| n'].
      - simpl in Hrest. inversion Hrest; subst.
        split; [constructor |]. split; [reflexivity |].
        exists []. rewrite app_nil_r. repeat split.
      - assert (Hstep : cnt (self m1) mod R = cnt (self m) mod R + 1).
        { rewrite Hcnt. rewrite <- Zplus_mod_idemp_l.
          apply Z.mod_small. lia. }
        apply IH in Hrest; [exact Hrest | rewrite Hrate1; exact Hrate
                           | lia | lia]. }
    clear Hrest.
    destruct Hrest' as (Hall & Hlen & evs & Ht' & Hp & Hq).
    split; [| split].
    + constructor; [rewrite <- Hdata; symmetry; apply Hret; reflexivity |].
      rewrite Hdata in Hall. exact Hall.
    + simpl. rewrite Hlen. reflexivity.
    + exists (evs_act ++ evs). rewrite Ht', Ht, app_assoc, !count_app, Hp, Hq.
      split; [reflexivity |].
      split; (rewrite Nat.add_0_r; apply count_none;
              eapply forallb_weaken; [| exact Hacts];
              intros e He; apply actions_call_not_pipeline, He).
Qed.

(** One period of the rate.  Starting on a tick that is a multiple of the
    rate [R > 0], up to [R] calls of [act] in a row that all return give the
    same action data, the data of the first call, and [predict] is called
    once, by the first call. *)
Theorem act_n_one_prediction
    (state : pyval)
    (deterministic to_numpy return_logits apply_action : bool)
    (R : Z) (n : nat) (m m' : machine) (v : pyval) (vs : list pyval) :
  _rate (self m) = PyInt R ->
  0 < R ->
  cnt (self m) mod R = 0 ->
  Z.of_nat (S n) <= R ->
  act_n (S n) state deterministic to_numpy return_logits apply_action m
  = (Ok (v :: vs), m') ->
  Forall (fun v' => v' = v) vs /\
  cnt (self m') = cnt (self m) + Z.of_nat (S n) /\
  exists evs,
    trace m' = trace m ++ evs /\ count is_predict evs = 1%nat.
Proof.
  intros Hrate HR Htick Hroom Hrun. simpl in Hrun.
  apply bind_ok in Hrun. destruct Hrun as (v0 & m1 & Hact & Hrun).
  apply bind_ok in Hrun. destruct Hrun as (vs' & m2 & Hrest & Hret).
  inversion Hret; subst v0 vs' m2. clear Hret.
  pose proof (act_fields _ _ _ _ _ _ _ _ Hact) as (_ & _ & _ & Hrate1 & _).
  assert (Hmod : py_mod (cnt (self m)) (_rate (self m)) = Ok 0).
  { unfold py_mod. rewrite Hrate. simpl.
    destruct (R =? 0) eqn:HR0; [apply Z.eqb_eq in HR0; lia |].
    rewrite Htick. reflexivity. }
  destruct (act_tick_returns _ _ _ _ _ _ _ _ Hmod Hact)
    as (x0 & x1 & y0 & y1 & es & ep & eo & er & Hres & Hpre & Hpost & Ht
        & Hrest0 & Hdata).
  pose proof (count_predict_pipeline _ _ (_model (self m)) _ _ _ _ _ _ _ _ _
                _ Hres Hpre Hpost Hrest0) as Hone.
  pose proof (act_effects _ _ _ _ _ _ _ _ Hact)
    as (? & ? & _ & _ & _ & _ & _ & _ & _ & _ & Hcnt & _). simpl in Hcnt.
  destruct n as [| n].
  - simpl in Hrest. inversion Hrest; subst vs m'.
    split; [constructor |]. split; [rewrite Hcnt; lia |].
    eexists. split; [exact Ht | exact Hone].
  - assert (Hstep : cnt (self m1) mod R = 1).
    { rewrite Hcnt, <- Zplus_mod_idemp_l, Htick. apply Z.mod_small. lia. }
    pose proof Hrest as Hrest'.
    apply (act_n_off_ticks _ _ _ _ _ R) in Hrest;
      [| rewrite Hrate1; exact Hrate | lia | lia].
    destruct Hrest as (Hall & Hlen & evs & Ht' & Hp & _).
    split; [rewrite Hdata in Hall; exact Hall |].
    split.
    + assert (Hcnts : forall k (ma mb : machine) (ws : list pyval),
                 act_n k state deterministic to_numpy return_logits
                   apply_action ma = (Ok ws, mb) ->
                 cnt (self mb) = cnt (self ma) + Z.of_nat k).
      { induction k as [| k IHk]; intros ma mb ws Hk; simpl in Hk.
        - inversion Hk; subst. simpl. lia.
        - apply bind_ok in Hk. destruct Hk as (w0 & mc & Ha & Hk).
          apply bind_ok in Hk. destruct Hk as (ws' & md & Hk & Hr).
          inversion Hr; subst. apply IHk in Hk.
          pose proof (act_effects _ _ _ _ _ _ _ _ Ha)
            as (? & ? & _ & _ & _ & _ & _ & _ & _ & _ & Hc & _).
          simpl in Hc. lia. }
      rewrite (Hcnts _ _ _ _ Hrest'), Hcnt. lia.
    + eexists. split; [rewrite Ht', Ht, <- app_assoc; reflexivity |].
      rewrite count_app, Hone, Hp. reflexivity.
Qed.

End ControlLoop.

(** ** The action data along the loop over the actions *)

Section LoopInvariant.
Context {lib : ArrayLib} {collaborators : Collaborators}.

Lemma same_self_call_method {A} receiver (c : call A) :
  same_self (call_method receiver c).
Proof.
  intros m r m' Heq. unfold call_method, invoke, raise in Heq.
  destruct (is_object receiver).
  - destruct (respond A c (world m)); inversion Heq; reflexivity.
  - inversion Heq; reflexivity.
Qed.

Lemma same_self_lift_result {A} (x : result A) :
  same_self (@lift_result machine A x).
Proof. intros m r m' Heq. inversion Heq; reflexivity. Qed.

Lemma same_self_raise {A} e : same_self (@raise machine A e).
Proof. intros m r m' Heq. inversion Heq; reflexivity. Qed.

Lemma writes_same idx {A} (c : M A) : same_self c -> writes idx c.
Proof.
  intros Hc m r m' l Heq Hl. rewrite (Hc _ _ _ Heq). exists l.
  split; [exact Hl | split; reflexivity].
Qed.

Lemma writes_bind idx {A B} (c : M A) (k : A -> M B) :
  writes idx c -> (forall a, writes idx (k a)) -> writes idx (bind c k).
Proof.
  intros Hc Hk m r m' l Heq Hl.
  destruct (bind_cases _ _ _ _ _ Heq) as [(a & m1 & H1 & H2) | (e & H1 & _)].
  - destruct (Hc _ _ _ _ H1 Hl) as (l1 & Hl1 & Hlen1 & Hsame1).
    destruct (Hk a _ _ _ _ H2 Hl1) as (l2 & Hl2 & Hlen2 & Hsame2).
    exists l2. split; [exact Hl2 |]. split; [congruence |].
    intros j Hj. rewrite (Hsame2 j Hj). apply Hsame1, Hj.
  - exact (Hc _ _ _ _ H1 Hl).
Qed.

Lemma writes_setitem_action_data idx v :
  writes idx (setitem_action_data idx v).
Proof.
  intros m r m' l Heq Hl.
  unfold setitem_action_data, bind, on_self, gets in Heq. simpl in Heq.
  rewrite Hl in Heq. destruct (bool_decide (idx < length l)%nat).
  - unfold set_action_data, on_self, modify in Heq. simpl in Heq.
    inversion Heq; subst. simpl. exists (<[idx := v]> l).
    split; [reflexivity |]. split; [apply length_insert |].
    intros j Hj. apply list_lookup_insert_ne. auto.
  - inversion Heq; subst. simpl. exists l.
    split; [exact Hl | split; reflexivity].
Qed.

(** The body of the loop assigns to the item of its own index only. *)
Lemma writes_dispatch to_numpy return_logits idx action data :
  writes idx (dispatch to_numpy return_logits (idx, (action, data))).
Proof.
  unfold dispatch.
  apply writes_bind; [apply writes_same, same_self_call_method |].
  intros discrete.
  destruct discrete, data, return_logits; simpl;
    repeat first
      [ apply writes_setitem_action_data
      | apply writes_same;
        first [ apply same_self_call_method | apply same_self_lift_result
              | apply same_self_raise ]
      | apply writes_bind; [| intros ] ].
Qed.

Lemma dispatch_loop_items to_numpy return_logits :
  forall (pairs : list (pyval * pyval)) (k : nat) m r m' (l : list pyval),
    for_each (enumerate_from k pairs) (dispatch to_numpy return_logits) m
    = (r, m') ->
    action_data (self m) = PyList l ->
    exists l',
      action_data (self m') = PyList l' /\ length l' = length l /\
      forall j, (j < k \/ k + length pairs <= j)%nat -> l' !! j = l !! j.
Proof.
  induction pairs as [| [action data] pairs IH]; intros k m r m' l Heq Hl;
    simpl in Heq.
  - inversion Heq; subst. exists l. split; [exact Hl | split; reflexivity].
  - destruct (bind_cases _ _ _ _ _ Heq)
      as [([] & m1 & H1 & H2) | (e & H1 & _)].
    + destruct (writes_dispatch _ _ _ _ _ _ _ _ _ H1 Hl)
        as (l1 & Hl1 & Hlen1 & Hsame1).
      destruct (IH _ _ _ _ _ H2 Hl1) as (l2 & Hl2 & Hlen2 & Hsame2).
      exists l2. split; [exact Hl2 |]. split; [congruence |].
      intros j Hj. simpl in Hj.
      rewrite Hsame2 by lia. apply Hsame1. lia.
    + destruct (writes_dispatch _ _ _ _ _ _ _ _ _ H1 Hl)
        as (l1 & Hl1 & Hlen1 & Hsame1).
      exists l1. split; [exact Hl1 |]. split; [exact Hlen1 |].
      intros j Hj. simpl in Hj. apply Hsame1. lia.
Qed.

Lemma enumerate_from_split {A} :
  forall (pairs : list A) (k : nat) before x after,
    enumerate_from k pairs = before ++ x :: after ->
    exists p1 y p2,
      pairs = p1 ++ y :: p2 /\ before = enumerate_from k p1 /\
      x = ((k + length p1)%nat, y).
Proof.
  induction pairs as [| p pairs IH]; intros k before x after Heq;
    simpl in Heq.
  - destruct before; discriminate.
  - destruct before as [| b before]; simpl in Heq.
    + inversion Heq; subst. exists [], p, pairs. simpl.
      rewrite Nat.add_0_r. repeat split.
    + inversion Heq; subst b. apply IH in H1.
      destruct H1 as (p1 & y & p2 & -> & -> & ->).
      exists (p :: p1), y, p2. simpl.
      rewrite Nat.add_succ_r. repeat split.
Qed.

Lemma zip_split_lookup {A B} :
  forall (p1 : list (A * B)) (a : list A) (b : list B) x y p2,
    zip a b = p1 ++ (x, y) :: p2 -> b !! length p1 = Some y.
Proof.
  unfold zip.
  induction p1 as [| p p1 IH]; intros a b x y p2 Heq;
    destruct a as [| a0 a], b as [| b0 b]; simpl in Heq; try discriminate.
  - inversion Heq; subst. reflexivity.
  - inversion Heq; subst. simpl. eapply IH. eassumption.
Qed.

(** The invariant of the loop over [enumerate(zip(actions, action_data))]:
    when the loop reaches the pair [(action, data)] of index [idx], the
    iterations before it having returned, [self.action_data] is still a
    list of the length it had, and its item [idx] is still [data]. *)
Theorem dispatch_loop_invariant
    (to_numpy return_logits : bool) (leaves l : list pyval)
    (before after : list (nat * (pyval * pyval)))
    (idx : nat) (action data : pyval) (m m1 : machine) :
  enumerate (zip leaves l) = before ++ (idx, (action, data)) :: after ->
  action_data (self m) = PyList l ->
  for_each before (dispatch to_numpy return_logits) m = (Ok tt, m1) ->
  exists l1,
    action_data (self m1) = PyList l1 /\ length l1 = length l /\
    l1 !! idx = Some data.
Proof.
  intros Hsplit Hl Hrun. unfold enumerate in Hsplit.
  apply enumerate_from_split in Hsplit.
  destruct Hsplit as (p1 & [action' data'] & p2 & Hzip & -> & Hx).
  inversion Hx; subst idx action' data'. clear Hx.
  destruct (dispatch_loop_items _ _ _ _ _ _ _ _ Hrun Hl)
    as (l1 & Hl1 & Hlen & Hsame).
  exists l1. split; [exact Hl1 |]. split; [exact Hlen |].
  rewrite Hsame by (simpl; lia). simpl.
  eapply zip_split_lookup. exact Hzip.
Qed.

End LoopInvariant.

(** ** The constructor *)

Section Constructor.
Context {lib : ArrayLib}.

(** The constructor checks the states, the actions and the rate, in this
    order, and nothing else: it raises [TypeError] unless the states are
    [None] or a [State], the actions an [Action] and the rate an [int].  The
    model is not checked: a value that is no [Model] is stored as it is.
    The policy built starts at tick 0, holds no action data, is not in
    train mode, and has lists of processors. *)
Theorem new_Policy_contract
    (states actions model rate : pyval)
    (preprocessors postprocessors : processors_arg) :
  new_Policy states actions model rate preprocessors postprocessors =
  if (is_None states || isinstance states State)
     && isinstance actions Action && isinstance_int rate
  then
    Ok {| _states := states; _actions := actions;
          _model :=
            if negb (is_None model) && negb (isinstance model Approximator)
               && isinstance model Model
            then PyApproximator states actions model
            else model;
          train_mode := false; _rate := rate; cnt := 0;
          action_data := PyNone;
          preprocessors := as_processor_list preprocessors;
          postprocessors := as_processor_list postprocessors |}
  else Raise TypeError.
Proof.
  unfold new_Policy, __init__, bind.
  rewrite set_states_run.
  destruct (is_None states || isinstance states State); [| reflexivity].
  rewrite set_actions_run.
  destruct (isinstance actions Action); [| reflexivity].
  rewrite set_model_run. unfold modify at 1.
  rewrite set_rate_run.
  destruct (isinstance_int rate); [| reflexivity].
  unfold modify. simpl.
  destruct (negb (is_None model) && negb (isinstance model Approximator));
    [destruct (isinstance model Model) |]; reflexivity.
Qed.

Lemma new_Policy_fields
    states actions model rate preprocessors postprocessors p :
  new_Policy states actions model rate preprocessors postprocessors = Ok p ->
  cnt p = 0 /\ _rate p = rate /\ action_data p = PyNone /\
  isinstance_int rate = true.
Proof.
  unfold new_Policy, __init__, bind.
  rewrite set_states_run.
  destruct (is_None states || isinstance states State); [| discriminate].
  rewrite set_actions_run.
  destruct (isinstance actions Action); [| discriminate].
  rewrite set_model_run. unfold modify at 1.
  rewrite set_rate_run.
  destruct (isinstance_int rate); [| discriminate].
  unfold modify. intros Heq. inversion Heq; subst p. repeat split.
Qed.

End Constructor.

(** ** Ticks *)

Section Ticks.
Context {lib : ArrayLib} {collaborators : Collaborators}.

(** The first call of [act] on a policy just built is a prediction, for
    every rate but zero, a negative one included: when it returns,
    [predict] has been called once, and the data returned is stored. *)
Theorem first_act_predicts
    (states actions model rate : pyval)
    (preprocessors postprocessors : processors_arg) (p : Policy)
    (w : env) (state : pyval)
    (deterministic to_numpy return_logits apply_action : bool)
    (v : pyval) (m' : machine) :
  new_Policy states actions model rate preprocessors postprocessors = Ok p ->
  int_value rate <> Some 0 ->
  act state deterministic to_numpy return_logits apply_action
    {| self := p; world := w; trace := [] |} = (Ok v, m') ->
  count is_predict (trace m') = 1%nat /\
  cnt (self m') = 1 /\ action_data (self m') = v.
Proof.
  intros Hnew Hrate Hact.
  destruct (new_Policy_fields _ _ _ _ _ _ _ Hnew)
    as (Hcnt & Hr & _ & Hint).
  assert (Hmod : py_mod (cnt p) (_rate p) = Ok 0).
  { unfold py_mod. rewrite Hcnt, Hr.
    destruct rate; simpl in Hint; try discriminate; simpl.
    - destruct b; simpl; [reflexivity |]. exfalso. apply Hrate. reflexivity.
    - destruct (z =? 0) eqn:Hz.
      + apply Z.eqb_eq in Hz. subst z. exfalso. apply Hrate. reflexivity.
      + rewrite Z.mod_0_l by (apply Z.eqb_neq; exact Hz). reflexivity. }
  destruct (act_tick_returns _ _ _ _ _
              {| self := p; world := w; trace := [] |} _ _ Hmod Hact)
    as (x0 & x1 & y0 & y1 & es & ep & eo & er & Hres & Hpre & Hpost & Ht
        & Hrest & Hdata).
  pose proof (count_predict_pipeline _ _ (_model p) _ _ _ _ _ _ _ _ _ _
                Hres Hpre Hpost Hrest) as Hone.
  pose proof (act_effects _ _ _ _ _ _ _ _ Hact)
    as (? & ? & _ & _ & _ & _ & _ & _ & _ & _ & Hc & _).
  simpl in Ht, Hc, Hone. rewrite Ht.
  split; [exact Hone |]. split; [rewrite Hc, Hcnt; reflexivity | exact Hdata].
Qed.

(** A run of [act] on a tick that is no multiple of the rate. *)
Lemma act_off_tick_run
    state deterministic to_numpy return_logits apply_action m tick :
  py_mod (cnt (self m)) (_rate (self m)) = Ok tick -> tick <> 0 ->
  act state deterministic to_numpy return_logits apply_action m =
  match apply_actions apply_action m with
  | (Ok _, m2) => (Ok (action_data (self m2)), ticked m2)
  | (Raise e, m2) => (Raise e, m2)
  end.
Proof.
  intros Hmod Hnz.
  destruct (act state deterministic to_numpy return_logits apply_action m)
    as [r m'] eqn:Hact.
  apply act_inv in Hact. rewrite Hmod in Hact.
  apply Z.eqb_neq in Hnz. rewrite Hnz in Hact. simpl in Hact.
  destruct (apply_actions apply_action m) as [[[] | e] m2];
    destruct Hact as [-> ->]; reflexivity.
Qed.

(** On a tick that is no multiple of the rate, [act] looks at none of its
    arguments but [apply_action]: whatever the state given, and whatever
    [deterministic], [to_numpy] and [return_logits], the call does the same
    and returns the same, the data stored by the last prediction in the
    form that prediction was asked for. *)
Theorem act_off_tick_ignores_arguments
    (state state' : pyval)
    (deterministic deterministic' to_numpy to_numpy'
       return_logits return_logits' apply_action : bool)
    (m : machine) (tick : Z) :
  py_mod (cnt (self m)) (_rate (self m)) = Ok tick -> tick <> 0 ->
  act state deterministic to_numpy return_logits apply_action m =
  act state' deterministic' to_numpy' return_logits' apply_action m.
Proof.
  intros Hmod Hnz.
  rewrite (act_off_tick_run state _ _ _ _ _ _ Hmod Hnz).
  rewrite (act_off_tick_run state' _ _ _ _ _ _ Hmod Hnz).
  reflexivity.
Qed.

End Ticks.

(** ** Resetting, and asking the inner model *)

Section Forwarding.
Context {lib : ArrayLib} {collaborators : Collaborators}.

Lemma on_self_gets_run {A} (f : Policy -> A) (m : machine) :
  on_self (gets f) m = (Ok (f (self m)), m).
Proof. unfold on_self, gets. simpl. rewrite machine_eta. reflexivity. Qed.

(** A [reset()] that returns has reset the preprocessors in list order,
    then the postprocessors in list order, then the inner model, and made
    no other call; it does not look at [reset_processors].  Whether it
    returns or raises, it assigns nothing to the policy: the tick counter
    and the stored action data keep their values, so the call of [act] that
    follows a reset is a prediction only if the counter happens to be a
    multiple of the rate. *)
Theorem reset_in_order
    (reset_processors : bool) (m m' : machine) (r : result unit) :
  reset reset_processors m = (r, m') ->
  self m' = self m /\
  reset (negb reset_processors) m = (r, m') /\
  exists evs,
    trace m' = trace m ++ evs /\
    (r = Ok tt ->
     exists v,
       evs =
         map (fun p => Event (processor_reset p) (Ok tt))
           (preprocessors (self m) ++ postprocessors (self m)) ++
         [Event (model_method (_model (self m)) "reset") (Ok v)]).
Proof.
  intros Hreset. split; [| split; [exact Hreset |]].
  - unfold reset in Hreset.
    rewrite (bind_step _ _ _ _ _ (on_self_gets_run preprocessors m))
      in Hreset.
    destruct (bind_cases _ _ _ _ _ Hreset)
      as [([] & m1 & H1 & Hrest) | (e & H1 & _)];
      pose proof (reset_loop _ _ _ _ H1) as (Hs1 & _);
      [| exact Hs1].
    rewrite (bind_step _ _ _ _ _ (on_self_gets_run postprocessors m1))
      in Hrest.
    destruct (bind_cases _ _ _ _ _ Hrest)
      as [([] & m2 & H2 & Hrest2) | (e & H2 & _)];
      pose proof (reset_loop _ _ _ _ H2) as (Hs2 & _);
      [| congruence].
    rewrite (bind_step _ _ _ _ _ (on_self_model_run m2)) in Hrest2.
    destruct (bind_cases _ _ _ _ _ Hrest2)
      as [(v & m3 & H3 & Hret) | (e & H3 & _)].
    + inversion Hret; subst.
      rewrite (same_self_call_method _ _ _ _ _ H3). congruence.
    + rewrite (same_self_call_method _ _ _ _ _ H3). congruence.
  - unfold reset in Hreset.
    rewrite (bind_step _ _ _ _ _ (on_self_gets_run preprocessors m))
      in Hreset.
    destruct (bind_cases _ _ _ _ _ Hreset)
      as [([] & m1 & H1 & Hrest) | (e & H1 & ->)];
      pose proof (reset_loop _ _ _ _ H1) as (Hs1 & evs1 & Ht1 & Hok1 & _).
    2:{ exists evs1. split; [exact Ht1 | discriminate]. }
    rewrite (bind_step _ _ _ _ _ (on_self_gets_run postprocessors m1))
      in Hrest.
    destruct (bind_cases _ _ _ _ _ Hrest)
      as [([] & m2 & H2 & Hrest2) | (e & H2 & ->)];
      pose proof (reset_loop _ _ _ _ H2) as (Hs2 & evs2 & Ht2 & Hok2 & _).
    2:{ exists (evs1 ++ evs2). rewrite Ht2, Ht1, app_assoc.
        split; [reflexivity | discriminate]. }
    rewrite (bind_step _ _ _ _ _ (on_self_model_run m2)) in Hrest2.
    destruct (bind_cases _ _ _ _ _ Hrest2)
      as [(v & m3 & H3 & Hret) | (e & H3 & ->)].
    + apply call_method_ok in H3. destruct H3 as [_ H3].
      apply invoke_ok in H3. destruct H3 as (w & _ & ->).
      inversion Hret; subst. simpl.
      exists (evs1 ++ evs2 ++
              [Event (model_method (_model (self m2)) "reset") (Ok v)]).
      split; [rewrite Ht2, Ht1, <- !app_assoc; reflexivity |].
      intros _. exists v.
      rewrite (Hok1 eq_refl), (Hok2 eq_refl), Hs1, Hs2, Hs1, map_app,
        <- app_assoc.
      reflexivity.
    + unfold call_method in H3.
      destruct (is_object (_model (self m2))).
      * unfold invoke in H3.
        destruct (respond pyval (model_method (_model (self m2)) "reset")
                    (world m2)) as [r0 w].
        inversion H3; subst. simpl.
        eexists. split; [rewrite Ht2, Ht1, <- !app_assoc; reflexivity |].
        discriminate.
      * inversion H3; subst.
        exists (evs1 ++ evs2). rewrite Ht2, Ht1, app_assoc.
        split; [reflexivity | discriminate].
Qed.

Lemma forward_run (name : string) (m : machine) :
  (model <- on_self model ;;
   call_method model (model_method model name)) m =
  if is_object (_model (self m)) then
    let (r, w) :=
      respond pyval (model_method (_model (self m)) name) (world m) in
    (r, answered m (model_method (_model (self m)) name) r w)
  else (Raise AttributeError, m).
Proof.
  rewrite (bind_step _ _ _ _ _ (on_self_model_run m)).
  unfold call_method. destruct (is_object (_model (self m))).
  - destruct (respond pyval (model_method (_model (self m)) name) (world m))
      as [r w] eqn:Hr.
    apply invoke_run, Hr.
  - reflexivity.
Qed.

(** Without a model, [is_deterministic()], [is_probabilistic()],
    [is_parametric()] and [is_linear()] raise [AttributeError]: they do not
    guard [None] as [parameters()] does.  With a model, each makes one call,
    of the model's method of its own name, and gives its outcome back as it
    is. *)
Theorem model_predicates_forward (m : machine) :
  (_model (self m) = PyNone ->
   is_deterministic m = (Raise AttributeError, m) /\
   is_probabilistic m = (Raise AttributeError, m) /\
   is_parametric m = (Raise AttributeError, m) /\
   is_linear m = (Raise AttributeError, m)) /\
  (is_object (_model (self m)) = true ->
   let outcome name :=
     let (r, w) :=
       respond pyval (model_method (_model (self m)) name) (world m) in
     (r, answered m (model_method (_model (self m)) name) r w) in
   is_deterministic m = outcome "is_deterministic" /\
   is_probabilistic m = outcome "is_probabilistic" /\
   is_parametric m = outcome "is_parametric" /\
   is_linear m = outcome "is_linear").
Proof.
  unfold is_deterministic, is_probabilistic, is_parametric, is_linear.
  rewrite !forward_run. split.
  - intros ->. simpl. repeat split.
  - intros Hobj. cbv zeta. rewrite Hobj. repeat split.
Qed.

(** A policy without a model cannot predict: on a tick that is a multiple
    of the rate, every call of [act] raises ([AttributeError], once the state
    is resolved and the preprocessors have run), and leaves the counter, the
    stored action data and the model as they were.  The policy is thus on
    the same tick again: no later call of [act] can return either. *)
Theorem act_without_model
    (state : pyval)
    (deterministic to_numpy return_logits apply_action : bool)
    (m m' : machine) (r : result pyval) :
  _model (self m) = PyNone ->
  py_mod (cnt (self m)) (_rate (self m)) = Ok 0 ->
  act state deterministic to_numpy return_logits apply_action m = (r, m') ->
  (exists e, r = Raise e) /\
  self m' = self m /\
  exists evs,
    trace m' = trace m ++ evs /\
    count is_predict evs = 0%nat /\
    count is_actions_call evs = 0%nat /\
    (forallb returned evs = true ->
     forallb is_object (preprocessors (self m)) = true ->
     r = Raise AttributeError).
Proof.
  intros Hnone Hmod Hact. apply act_inv in Hact. rewrite Hmod in Hact.
  simpl in Hact.
  destruct (predict_tick state to_numpy return_logits m) as [r1 m1]
    eqn:Htick.
  assert (Hgoal :
            (exists e, r1 = Raise e) /\ self m1 = self m /\
            exists evs,
              trace m1 = trace m ++ evs /\
              count is_predict evs = 0%nat /\
              count is_actions_call evs = 0%nat /\
              (forallb returned evs = true ->
               forallb is_object (preprocessors (self m)) = true ->
               r1 = Raise AttributeError)).
  { clear Hact. unfold predict_tick in Htick.
    (* state = self.states *)
    assert (H0 : forall s0 : pyval,
               (if is_None s0 then on_self states else ret s0) m
               = (Ok (if is_None s0 then _states (self m) else s0), m)).
    { intros s0. destruct (is_None s0); [| reflexivity].
      apply (on_self_gets_run _states). }
    rewrite (bind_step _ _ _ _ _ (H0 state)) in Htick.
    set (s1 := if is_None state then _states (self m) else state) in *.
    (* state = state.merged_data *)
    destruct (bind_cases _ _ _ _ _ Htick)
      as [(x0 & m2 & H2 & Hrest) | (e & H2 & ->)].
    2:{ destruct (isinstance s1 State); [| discriminate].
        destruct (bind_cases _ _ _ _ _ H2)
          as [(d & m3 & H3 & Hret) | (e' & H3 & He)].
        - destruct d as [| ? [| ? ?]]; discriminate.
        - inversion He; subst e'. clear He.
          split; [eauto |].
          split; [exact (same_self_call_method _ _ _ _ _ H3) |].
          unfold call_method in H3. destruct (is_object s1).
          + unfold invoke in H3.
            destruct (respond (list pyval) (merged_data s1) (world m))
              as [r0 w]. inversion H3; subst. eexists [_].
            split; [reflexivity |]. split; [reflexivity |].
            split; [reflexivity |]. simpl. discriminate.
          + unfold raise in H3. inversion H3; subst. exists [].
            rewrite app_nil_r. repeat split. }
    assert (Hm2 : self m2 = self m /\
                  exists evs2, trace m2 = trace m ++ evs2 /\
                               count is_predict evs2 = 0%nat /\
                               count is_actions_call evs2 = 0%nat /\
                               forallb returned evs2 = true).
    { destruct (isinstance s1 State).
      - apply bind_ok in H2. destruct H2 as (d & m3 & H3 & Hret).
        apply call_method_ok in H3. destruct H3 as [_ H3].
        apply invoke_ok in H3. destruct H3 as (w & _ & ->).
        assert (m2 = {| self := self m; world := w;
                        trace := trace m ++
                                 [Event (merged_data s1) (Ok d)] |})
          by (destruct d as [| ? [| ? ?]]; inversion Hret; reflexivity).
        subst m2. split; [reflexivity |]. eexists [_].
        repeat split.
      - inversion H2; subst. split; [reflexivity |]. exists [].
        rewrite app_nil_r. repeat split. }
    destruct Hm2 as (Hs2 & evs2 & Ht2 & Hp2 & Ha2 & Hr2).
    (* the preprocessors *)
    rewrite (bind_step _ _ _ _ _ (on_self_gets_run preprocessors m2))
      in Hrest.
    rewrite Hs2 in Hrest.
    destruct (bind_cases _ _ _ _ _ Hrest)
      as [(x1 & m3 & H3 & Hrest3) | (e & H3 & ->)].
    2:{ split; [eauto |].
        assert (Hfold : forall ps x ma ea mb,
                   for_fold ps
                     (fun processor state0 =>
                        call_object processor
                          (processor_call processor state0)) x ma
                   = (Raise ea, mb) ->
                   self mb = self ma /\
                   exists evs,
                     trace mb = trace ma ++ evs /\
                     count is_predict evs = 0%nat /\
                     count is_actions_call evs = 0%nat /\
                     (forallb returned evs = true ->
                      forallb is_object ps = true -> False)).
        { induction ps as [| q ps IH]; intros x ma ea mb Hf; simpl in Hf;
            [discriminate |].
          destruct (bind_cases _ _ _ _ _ Hf)
            as [(y & mc & Hc & Hf') | (e' & Hc & _)].
          - apply call_object_ok in Hc. destruct Hc as [Hq Hc].
            apply invoke_ok in Hc. destruct Hc as (w & _ & ->).
            apply IH in Hf'. destruct Hf' as (Hs & evs & Ht & Hp & Ha & Hn).
            split; [exact Hs |].
            exists (Event (processor_call q x) (Ok y) :: evs).
            simpl in Ht. rewrite <- app_assoc in Ht.
            split; [exact Ht |]. split; [exact Hp |]. split; [exact Ha |].
            simpl. rewrite Hq. exact Hn.
          - unfold call_object in Hc. destruct (is_object q) eqn:Hq.
            + unfold invoke in Hc.
              destruct (respond pyval (processor_call q x) (world ma))
                as [r0 w]. inversion Hc; subst.
              split; [reflexivity |]. eexists [_].
              split; [reflexivity |]. split; [reflexivity |].
              split; [reflexivity |]. simpl. discriminate.
            + inversion Hc; subst. split; [reflexivity |]. exists [].
              rewrite app_nil_r.
              split; [reflexivity |]. split; [reflexivity |].
              split; [reflexivity |].
              intros _ Hobjs. simpl in Hobjs. rewrite Hq in Hobjs.
              discriminate Hobjs. }
        apply Hfold in H3. destruct H3 as (Hs3 & evs3 & Ht3 & Hp3 & Ha3 & Hn3).
        split; [congruence |]. exists (evs2 ++ evs3).
        rewrite Ht3, Ht2, app_assoc, !count_app, Hp2, Hp3, Ha2, Ha3.
        repeat split. intros Hret Hobjs. exfalso.
        rewrite forallb_app in Hret. apply andb_prop in Hret.
        apply Hn3; [apply Hret | exact Hobjs]. }
    apply preprocessors_chained in H3.
    destruct H3 as (evs3 & Hch3 & Ht3 & Hs3).
    (* the prediction: there is no model *)
    assert (Hpred : _predict x1 false true false m3
                    = (Raise AttributeError, m3)).
    { unfold _predict. rewrite (bind_step _ _ _ _ _ (on_self_model_run m3)).
      rewrite Hs3, Hs2, Hnone. reflexivity. }
    rewrite (bind_raise _ _ _ _ _ Hpred) in Hrest3.
    inversion Hrest3; subst r1 m1.
    split; [eauto |]. split; [congruence |].
    exists (evs2 ++ evs3). rewrite Ht3, Ht2, app_assoc, !count_app, Hp2, Ha2.
    assert (Hno : forall P : event -> bool,
               (forall p x y, P (Event (processor_call p x) (Ok y)) = false) ->
               count P evs3 = 0%nat).
    { intros P HP. clear - Hch3 HP. induction Hch3; [reflexivity |].
      unfold count in *. simpl. rewrite HP. exact IHHch3. }
    rewrite (Hno is_predict) by reflexivity.
    rewrite (Hno is_actions_call) by reflexivity.
    repeat split. }
  destruct Hgoal as ((e & ->) & Hs & Hevs). destruct Hact as [-> ->].
  split; [eauto |]. split; [exact Hs |].
  destruct Hevs as (evs & Ht & Hp & Ha & Hattr).
  exists evs. conjs; try assumption.
  intros Hret Hobjs. specialize (Hattr Hret Hobjs).
  inversion Hattr. reflexivity.
Qed.

End Forwarding.

(** ** The loop over the actions and the conversion to numpy *)

Section Conversions.
Context {lib : ArrayLib} {collaborators : Collaborators}.

Lemma __convert_to_numpy_tensor t v :
  __convert_to_numpy (PyTensor t) true = Ok v -> is_array v = true.
Proof.
  unfold __convert_to_numpy. destruct (requires_grad t).
  - destruct (numpy (detach t)); intros H; inversion H; reflexivity.
  - destruct (numpy t); intros H; inversion H; reflexivity.
Qed.

Lemma setitem_action_data_ok idx v m m' l :
  setitem_action_data idx v m = (Ok tt, m') ->
  action_data (self m) = PyList l ->
  action_data (self m') = PyList (<[idx := v]> l) /\ (idx < length l)%nat.
Proof.
  intros Heq Hl.
  unfold setitem_action_data, bind, on_self, gets in Heq. simpl in Heq.
  rewrite Hl in Heq. destruct (bool_decide (idx < length l)%nat) eqn:Hlt.
  - unfold set_action_data, on_self, modify in Heq. simpl in Heq.
    inversion Heq; subst. simpl. split; [reflexivity |].
    apply bool_decide_eq_true_1 in Hlt. exact Hlt.
  - inversion Heq.
Qed.

Lemma lookup_insert_here (l : list pyval) idx v :
  (idx < length l)%nat -> <[idx := v]> l !! idx = Some v.
Proof.
  intros Hlt. rewrite list_lookup_insert.
  destruct (decide (idx = idx /\ (idx < length l)%nat)) as [_ | Hn];
    [reflexivity | exfalso; apply Hn; split; [reflexivity | exact Hlt]].
Qed.

(** One iteration with [to_numpy]: the item of its index is an array
    afterwards. *)
Lemma dispatch_item_to_numpy return_logits idx action data m m' l :
  dispatch true return_logits (idx, (action, data)) m = (Ok tt, m') ->
  action_data (self m) = PyList l ->
  l !! idx = Some data ->
  exists l' v,
    action_data (self m') = PyList l' /\ l' !! idx = Some v /\
    is_array v = true.
Proof.
  intros Heq Hl Hidx. unfold dispatch in Heq.
  apply bind_ok in Heq. destruct Heq as (discrete & m1 & H1 & Heq).
  pose proof (same_self_call_method _ _ _ _ _ H1) as Hs1.
  assert (Hl1 : action_data (self m1) = PyList l) by (rewrite Hs1; exact Hl).
  clear H1 Hs1 Hl.
  destruct discrete; destruct data; try discriminate Heq.
  - (* discrete, array *)
    apply bind_ok in Heq. destruct Heq as (i & m2 & H2 & Heq).
    inversion H2; subst m2. clear H2.
    apply bind_ok in Heq. destruct Heq as ([] & m3 & H3 & Heq).
    pose proof (same_self_call_method _ _ _ _ _ H3) as Hs3.
    rewrite <- Hs3 in Hl1.
    destruct return_logits; simpl in Heq.
    + inversion Heq; subst m'. exists l. eexists.
      split; [exact Hl1 |]. split; [exact Hidx | reflexivity].
    + destruct (setitem_action_data_ok _ _ _ _ _ Heq Hl1) as [Hl' Hlt].
      eexists. eexists. split; [exact Hl' |].
      split; [apply lookup_insert_here, Hlt | reflexivity].
  - (* discrete, tensor *)
    apply bind_ok in Heq. destruct Heq as (d & m2 & H2 & Heq).
    inversion H2; subst m2. clear H2.
    apply bind_ok in Heq. destruct Heq as ([] & m3 & H3 & Heq).
    pose proof (same_self_call_method _ _ _ _ _ H3) as Hs3.
    rewrite <- Hs3 in Hl1.
    destruct return_logits; simpl in Heq;
      apply bind_ok in Heq; destruct Heq as (v & m4 & H4 & Heq);
      unfold lift_result in H4; inversion H4 as [[Hv Hm]]; subst m4;
      apply __convert_to_numpy_tensor in Hv;
      destruct (setitem_action_data_ok _ _ _ _ _ Heq Hl1) as [Hl' Hlt];
      exists (<[idx := v]> l), v;
      (split; [exact Hl' |]; split; [apply lookup_insert_here, Hlt | exact Hv]).
  - (* continuous, array *)
    pose proof (same_self_call_method _ _ _ _ _ Heq) as Hs3.
    rewrite <- Hs3 in Hl1. exists l. eexists.
    split; [exact Hl1 |]. split; [exact Hidx | reflexivity].
  - (* continuous, tensor *)
    apply bind_ok in Heq. destruct Heq as ([] & m3 & H3 & Heq).
    pose proof (same_self_call_method _ _ _ _ _ H3) as Hs3.
    rewrite <- Hs3 in Hl1.
    apply bind_ok in Heq; destruct Heq as (v & m4 & H4 & Heq).
    unfold lift_result in H4; inversion H4 as [[Hv Hm]]; subst m4.
    apply __convert_to_numpy_tensor in Hv.
    destruct (setitem_action_data_ok _ _ _ _ _ Heq Hl1) as [Hl' Hlt].
    exists (<[idx := v]> l), v.
    split; [exact Hl' |]. split; [apply lookup_insert_here, Hlt | exact Hv].
Qed.

Lemma dispatch_loop_to_numpy_from return_logits :
  forall (pairs : list (pyval * pyval)) (k : nat) m m' (l : list pyval),
    for_each (enumerate_from k pairs) (dispatch true return_logits) m
    = (Ok tt, m') ->
    action_data (self m) = PyList l ->
    (forall i a d, pairs !! i = Some (a, d) -> l !! (k + i)%nat = Some d) ->
    exists l',
      action_data (self m') = PyList l' /\ length l' = length l /\
      (forall j, (k <= j < k + length pairs)%nat ->
                 exists v, l' !! j = Some v /\ is_array v = true) /\
      (forall j, (j < k \/ k + length pairs <= j)%nat -> l' !! j = l !! j).
Proof.
  induction pairs as [| [action data] pairs IH]; intros k m m' l Heq Hl Hdata;
    simpl in Heq.
  - inversion Heq; subst. exists l. split; [exact Hl |].
    split; [reflexivity |]. split; [| reflexivity].
    intros j Hj. simpl in Hj. lia.
  - apply bind_ok in Heq. destruct Heq as ([] & m1 & H1 & H2).
    assert (Hk : l !! k = Some data).
    { specialize (Hdata 0%nat action data eq_refl).
      rewrite Nat.add_0_r in Hdata. exact Hdata. }
    destruct (dispatch_item_to_numpy _ _ _ _ _ _ _ H1 Hl Hk)
      as (l1' & v & Hl1' & Hv & Harr).
    destruct (writes_dispatch _ _ _ _ _ _ _ _ _ H1 Hl)
      as (l1 & Hl1 & Hlen1 & Hsame1).
    rewrite Hl1 in Hl1'. inversion Hl1'; subst l1'. clear Hl1'.
    destruct (IH (S k) _ _ _ H2 Hl1) as (l2 & Hl2 & Hlen2 & Harr2 & Hsame2).
    { intros i a d Hi. rewrite Hsame1 by lia.
      replace (S k + i)%nat with (k + S i)%nat by lia.
      apply (Hdata (S i) a d). exact Hi. }
    exists l2. split; [exact Hl2 |]. split; [congruence |]. split.
    + intros j Hj. simpl in Hj.
      destruct (decide (j = k)) as [-> | Hne].
      * exists v. rewrite Hsame2 by lia. split; [exact Hv | exact Harr].
      * apply Harr2. lia.
    + intros j Hj. simpl in Hj. rewrite Hsame2 by lia. apply Hsame1. lia.
Qed.

Lemma zip_lookup {A B} :
  forall (a : list A) (b : list B) i x y,
    zip a b !! i = Some (x, y) -> b !! i = Some y.
Proof.
  unfold zip. induction a as [| a0 a IH]; intros b i x y Hi;
    destruct b as [| b0 b]; simpl in Hi; try discriminate.
  destruct i as [| i]; simpl in *.
  - inversion Hi; reflexivity.
  - eapply IH, Hi.
Qed.

Lemma zip_length {A B} (a : list A) (b : list B) :
  length (zip a b) = Nat.min (length a) (length b).
Proof. unfold zip. apply length_combine. Qed.

(** With [to_numpy], the loop over the actions leaves a numpy array in
    every item of the action data that is paired with an action; the items
    beyond the number of actions are not looked at. *)
Lemma dispatch_loop_to_numpy
    (return_logits : bool) (leaves l : list pyval) (m m' : machine) :
  action_data (self m) = PyList l ->
  for_each (enumerate (zip leaves l)) (dispatch true return_logits) m
  = (Ok tt, m') ->
  exists l',
    action_data (self m') = PyList l' /\ length l' = length l /\
    (forall j, (j < length leaves)%nat -> (j < length l)%nat ->
               exists v, l' !! j = Some v /\ is_array v = true) /\
    (forall j, (length leaves <= j)%nat -> l' !! j = l !! j).
Proof.
  intros Hl Hrun. unfold enumerate in Hrun.
  destruct (dispatch_loop_to_numpy_from _ _ _ _ _ _ Hrun Hl)
    as (l' & Hl' & Hlen & Harr & Hsame).
  { intros i a d Hi. simpl. eapply zip_lookup, Hi. }
  exists l'. split; [exact Hl' |]. split; [exact Hlen |].
  rewrite zip_length in Harr, Hsame. split.
  - intros j Hj1 Hj2. apply Harr. lia.
  - intros j Hj. destruct (decide (j < length l)%nat) as [Hlt | Hge].
    + apply Hsame. lia.
    + apply Hsame. lia.
Qed.

(** ** Logits as they are *)

Lemma stable_same l {A} (c : M A) : same_self c -> stable l c.
Proof. intros Hc m r m' Heq Hl. rewrite (Hc _ _ _ Heq). exact Hl. Qed.

Lemma stable_bind l {A B} (c : M A) (k : A -> M B) :
  stable l c -> (forall a, stable l (k a)) -> stable l (bind c k).
Proof.
  intros Hc Hk m r m' Heq Hl.
  destruct (bind_cases _ _ _ _ _ Heq) as [(a & m1 & H1 & H2) | (e & H1 & _)].
  - exact (Hk a _ _ _ H2 (Hc _ _ _ H1 Hl)).
  - exact (Hc _ _ _ H1 Hl).
Qed.

Lemma stable_setitem_action_data l idx v :
  l !! idx = Some v -> stable l (setitem_action_data idx v).
Proof.
  intros Hidx m r m' Heq Hl.
  unfold setitem_action_data, bind, on_self, gets in Heq. simpl in Heq.
  rewrite Hl in Heq. destruct (bool_decide (idx < length l)%nat).
  - unfold set_action_data, on_self, modify in Heq. simpl in Heq.
    inversion Heq; subst. simpl. rewrite (list_insert_id _ _ _ Hidx).
    reflexivity.
  - inversion Heq; subst. exact Hl.
Qed.

Lemma stable_dispatch l idx action data :
  l !! idx = Some data ->
  stable l (dispatch false true (idx, (action, data))).
Proof.
  intros Hidx. unfold dispatch.
  apply stable_bind; [apply stable_same, same_self_call_method |].
  intros discrete.
  destruct discrete, data; simpl;
    repeat first
      [ apply stable_setitem_action_data; exact Hidx
      | apply stable_same;
        first [ apply same_self_call_method | apply same_self_lift_result
              | apply same_self_raise ]
      | apply stable_bind; [| intros ] ].
Qed.

Lemma dispatch_loop_stable_from :
  forall (pairs : list (pyval * pyval)) (k : nat) m r m' (l : list pyval),
    for_each (enumerate_from k pairs) (dispatch false true) m = (r, m') ->
    action_data (self m) = PyList l ->
    (forall i a d, pairs !! i = Some (a, d) -> l !! (k + i)%nat = Some d) ->
    action_data (self m') = PyList l.
Proof.
  induction pairs as [| [action data] pairs IH]; intros k m r m' l Heq Hl Hdata;
    simpl in Heq.
  - inversion Heq; subst. exact Hl.
  - assert (Hk : l !! k = Some data).
    { specialize (Hdata 0%nat action data eq_refl).
      rewrite Nat.add_0_r in Hdata. exact Hdata. }
    destruct (bind_cases _ _ _ _ _ Heq)
      as [([] & m1 & H1 & H2) | (e & H1 & _)].
    + apply (IH (S k) _ _ _ _ H2).
      * exact (stable_dispatch _ _ _ _ Hk _ _ _ H1 Hl).
      * intros i a d Hi. replace (S k + i)%nat with (k + S i)%nat by lia.
        apply (Hdata (S i) a d). exact Hi.
    + exact (stable_dispatch _ _ _ _ Hk _ _ _ H1 Hl).
Qed.

(** With [to_numpy=False] and [return_logits=True], the loop over the
    actions leaves the action data as it is, whether it returns or
    raises. *)
Lemma dispatch_loop_stable (leaves l : list pyval) m r m' :
  action_data (self m) = PyList l ->
  for_each (enumerate (zip leaves l)) (dispatch false true) m = (r, m') ->
  action_data (self m') = PyList l.
Proof.
  intros Hl Hrun. unfold enumerate in Hrun.
  apply (dispatch_loop_stable_from _ _ _ _ _ _ Hrun Hl).
  intros i a d Hi. simpl. eapply zip_lookup, Hi.
Qed.

End Conversions.

(** ** What a prediction returns *)

Section Returned.
Context {lib : ArrayLib} {collaborators : Collaborators}.

(** A prediction that returns: its calls in order, the list the loop over
    the actions went through, and what it stored. *)
Lemma predict_tick_run state to_numpy return_logits m m' :
  predict_tick state to_numpy return_logits m = (Ok tt, m') ->
  exists (x0 x1 y0 y1 : pyval)
         (evs_state evs_pre evs_post evs_loop : list event)
         (leaves l' : list pyval) (m6 m7 : machine),
    resolved (self m) state evs_state x0 /\
    chained (preprocessors (self m)) x0 evs_pre x1 /\
    chained (postprocessors (self m)) y0 evs_post y1 /\
    trace m' =
      trace m ++ evs_state ++ evs_pre ++
      predict_event (_model (self m)) x1 y0 :: evs_post ++
      Event (actions_iter (_actions (self m))) (Ok leaves) :: evs_loop /\
    forallb is_dispatch_call evs_loop = true /\
    action_data (self m6) = PyList (as_list y1) /\
    for_each (enumerate (zip leaves (as_list y1)))
      (dispatch to_numpy return_logits) m6 = (Ok tt, m7) /\
    action_data (self m7) = PyList l' /\
    action_data (self m') = unwrapped l'.
Proof.
  unfold predict_tick. intros Heq.
  (* state = self.states *)
  apply bind_ok in Heq. destruct Heq as (s0 & m0 & Hs0 & Heq).
  assert (Hs0' : s0 = (if is_None state then _states (self m) else state)
                 /\ m0 = m).
  { destruct m as [p w t].
    destruct (is_None state); unfold on_self, states, gets, ret in Hs0;
      simpl in Hs0; inversion Hs0; split; reflexivity. }
  destruct Hs0' as [-> ->]. clear Hs0.
  (* state = state.merged_data *)
  apply bind_ok in Heq. destruct Heq as (x0 & m1 & Hx0 & Heq).
  assert (Hres : exists evs_state,
             resolved (self m) state evs_state x0 /\
             trace m1 = trace m ++ evs_state /\ self m1 = self m).
  { unfold resolved.
    destruct (isinstance (if is_None state then _states (self m) else state)
                State).
    - apply bind_ok in Hx0. destruct Hx0 as (data & m2 & Hcall & Hret).
      apply call_method_ok in Hcall. destruct Hcall as [_ Hcall].
      apply invoke_ok in Hcall. destruct Hcall as (w & _ & ->).
      eexists. split; [exists data; split; [reflexivity |] |].
      + destruct data as [| item [| item' rest]];
          unfold ret in Hret; inversion Hret; reflexivity.
      + destruct data as [| item [| item' rest]];
          unfold ret in Hret; inversion Hret; subst; split; reflexivity.
    - unfold ret in Hx0. inversion Hx0; subst. exists [].
      rewrite app_nil_r. repeat split. }
  destruct Hres as (evs_state & Hres & Ht1 & Hs1). clear Hx0.
  (* the preprocessors *)
  rewrite (bind_step _ _ _ _ _ (on_self_gets_run preprocessors m1)) in Heq.
  apply bind_ok in Heq. destruct Heq as (x1 & m2 & Hpre & Heq).
  apply preprocessors_chained in Hpre.
  destruct Hpre as (evs_pre & Hpre & Ht2 & Hs2).
  (* the prediction *)
  apply bind_ok in Heq. destruct Heq as (y0 & m3 & Hpred & Heq).
  assert (Hpred' : trace m3 =
                     trace m2 ++ [predict_event (_model (self m)) x1 y0] /\
                   self m3 = self m2).
  { unfold _predict, model in Hpred.
    rewrite (bind_step _ _ _ _ _ (on_self_gets_run _model m2)) in Hpred.
    unfold predict_event. rewrite <- Hs1, <- Hs2.
    destruct (isinstance (_model (self m2)) Approximator);
      apply call_method_ok in Hpred; destruct Hpred as [_ Hpred];
      apply invoke_ok in Hpred; destruct Hpred as (w & _ & ->);
      split; reflexivity. }
  destruct Hpred' as [Ht3 Hs3]. clear Hpred.
  (* the postprocessors *)
  apply bind_ok in Heq. destruct Heq as ([] & m4 & Hset & Heq).
  unfold set_action_data, on_self, modify in Hset. simpl in Hset.
  inversion Hset; subst m4. clear Hset.
  match type of Heq with
  | bind (on_self (gets postprocessors)) _ ?m4 = _ =>
      rewrite (bind_step _ _ _ _ _ (on_self_gets_run postprocessors m4))
        in Heq
  end.
  apply bind_ok in Heq. destruct Heq as ([] & m5 & Hpost & Heq).
  apply postprocessors_chained in Hpost.
  destruct Hpost as (evs_post & Hpost & Ht5 & Hf5). simpl in Hpost, Ht5, Hf5.
  assert (Hf : frame (self m) (self m5)).
  { eapply frame_trans; [| exact Hf5].
    rewrite <- Hs1, <- Hs2, <- Hs3. apply frame_with_action_data. }
  destruct (frame_fields _ _ Hf) as (_ & Hacts & _ & _ & _ & Hposts & _).
  (* the action data as a list *)
  rewrite (bind_step _ _ _ _ _ (on_self_gets_run action_data m5)) in Heq.
  set (y1 := action_data (self m5)) in *.
  apply bind_ok in Heq. destruct Heq as ([] & m6 & Hwrap & Heq).
  assert (Hm6 : action_data (self m6) = PyList (as_list y1) /\
                trace m6 = trace m5 /\
                _actions (self m6) = _actions (self m5)).
  { destruct (isinstance_list y1) eqn:Hlist; simpl in Hwrap.
    - inversion Hwrap; subst m6. fold y1.
      destruct y1; try discriminate Hlist. repeat split.
    - unfold set_action_data, on_self, modify in Hwrap. simpl in Hwrap.
      inversion Hwrap; subst m6. simpl.
      destruct y1; try discriminate Hlist; repeat split. }
  destruct Hm6 as (Hl6 & Ht6 & Ha6).
  (* the actions *)
  unfold actions in Heq.
  rewrite (bind_step _ _ _ _ _ (on_self_gets_run _actions m6)) in Heq.
  apply bind_ok in Heq. destruct Heq as (leaves & m6' & Hiter & Heq).
  apply call_object_ok in Hiter. destruct Hiter as [_ Hiter].
  apply invoke_ok in Hiter. destruct Hiter as (w & _ & ->).
  match type of Heq with
  | bind (on_self (gets action_data)) _ ?ma = _ =>
      rewrite (bind_step _ _ _ _ _ (on_self_gets_run action_data ma)) in Heq;
      set (m6' := ma) in *
  end.
  assert (Hl6' : action_data (self m6') = PyList (as_list y1)) by exact Hl6.
  rewrite Hl6' in Heq. simpl list_items in Heq.
  apply bind_ok in Heq. destruct Heq as ([] & m7 & Hloop & Heq).
  pose proof Hloop as Hkeeps.
  apply (keeps_for_each is_dispatch_call) in Hkeeps;
    [| intros; apply keeps_dispatch].
  destruct Hkeeps as (evs_loop & Ht7 & Hdisp & _).
  destruct (dispatch_loop_items _ _ _ _ _ _ _ _ Hloop Hl6')
    as (l' & Hl7 & _ & _).
  rewrite (bind_step _ _ _ _ _ (on_self_gets_run action_data m7)) in Heq.
  rewrite Hl7 in Heq.
  exists x0, x1, y0, y1, evs_state, evs_pre, evs_post, evs_loop, leaves, l',
    m6', m7.
  split; [exact Hres |].
  split; [rewrite Hs1 in Hpre; exact Hpre |].
  split; [rewrite Hs3, Hs2, Hs1 in Hpost; exact Hpost |].
  assert (Hend : trace m' = trace m7 /\ action_data (self m') = unwrapped l').
  { destruct l' as [| x [| x' l']]; simpl.
    - inversion Heq; subst m'. split; [reflexivity | exact Hl7].
    - unfold set_action_data, on_self, modify in Heq. simpl in Heq.
      inversion Heq; subst m'. split; reflexivity.
    - inversion Heq; subst m'. split; [reflexivity | exact Hl7]. }
  destruct Hend as [Ht' Hd'].
  split.
  { rewrite Ht', Ht7. subst m6'. simpl. rewrite Ht6, Ht5. simpl.
    rewrite Ht3, Ht2, Ht1, Ha6, Hacts. rewrite <- !app_assoc. simpl.
    rewrite <- ?app_assoc. reflexivity. }
  split; [exact Hdisp |]. split; [exact Hl6' |].
  split; [exact Hloop |]. split; [exact Hl7 | exact Hd'].
Qed.

(** A call of [act] that returns, on a tick that is a multiple of the
    rate. *)
Lemma act_tick_run
    state deterministic to_numpy return_logits apply_action m m' v :
  py_mod (cnt (self m)) (_rate (self m)) = Ok 0 ->
  act state deterministic to_numpy return_logits apply_action m = (Ok v, m') ->
  exists (x0 x1 y0 y1 : pyval)
         (evs_state evs_pre evs_post evs_loop evs_act : list event)
         (leaves l' : list pyval) (m6 m7 : machine),
    resolved (self m) state evs_state x0 /\
    chained (preprocessors (self m)) x0 evs_pre x1 /\
    chained (postprocessors (self m)) y0 evs_post y1 /\
    trace m' =
      trace m ++ evs_state ++ evs_pre ++
      predict_event (_model (self m)) x1 y0 :: evs_post ++
      Event (actions_iter (_actions (self m))) (Ok leaves) ::
      evs_loop ++ evs_act /\
    forallb is_dispatch_call evs_loop = true /\
    forallb is_actions_call evs_act = true /\
    action_data (self m6) = PyList (as_list y1) /\
    for_each (enumerate (zip leaves (as_list y1)))
      (dispatch to_numpy return_logits) m6 = (Ok tt, m7) /\
    action_data (self m7) = PyList l' /\
    v = unwrapped l'.
Proof.
  intros Htick Hact.
  apply act_inv in Hact. rewrite Htick in Hact. simpl in Hact.
  destruct (predict_tick state to_numpy return_logits m)
    as [[[] | e] m1] eqn:Hpredict; [| destruct Hact; discriminate].
  destruct (apply_actions apply_action m1) as [[[] | e] m2] eqn:Happly;
    [| destruct Hact; discriminate].
  destruct Hact as [Hv ->]. inversion Hv; subst v. clear Hv.
  apply apply_actions_inv in Happly.
  destruct Happly as (Hs2 & evs_act & Hta & Hacts & _).
  apply predict_tick_run in Hpredict.
  destruct Hpredict
    as (x0 & x1 & y0 & y1 & evs_state & evs_pre & evs_post & evs_loop
        & leaves & l' & m6 & m7 & Hres & Hpre & Hpost & Ht & Hdisp & Hl6
        & Hloop & Hl7 & Hdata).
  exists x0, x1, y0, y1, evs_state, evs_pre, evs_post, evs_loop, evs_act,
    leaves, l', m6, m7.
  conjs; try assumption.
  - simpl. rewrite Hta, Ht. rewrite <- !app_assoc. simpl.
    rewrite <- ?app_assoc. reflexivity.
  - rewrite Hs2. exact Hdata.
Qed.

Lemma rest_not_pipeline leaves acts evs_loop evs_act :
  forallb is_dispatch_call evs_loop = true ->
  forallb is_actions_call evs_act = true ->
  forallb (fun e => negb (is_predict e) && negb (is_processor_call e))
    (Event (actions_iter acts) (Ok leaves) :: evs_loop ++ evs_act) = true.
Proof.
  intros Hdisp Hacts. simpl. rewrite forallb_app.
  apply andb_true_intro. split.
  - eapply forallb_weaken; [| exact Hdisp].
    intros [A c r] He; destruct c; simpl in He; try discriminate;
      reflexivity.
  - eapply forallb_weaken; [| exact Hacts].
    intros [A c r] He; destruct c; simpl in He; try discriminate;
      reflexivity.
Qed.

(** With [to_numpy=False] and [return_logits=True], a call of [act] on a
    tick that is a multiple of the rate returns the prediction as the
    pipeline produced it: the value the last postprocessor returned (the
    model's prediction when there is none), a list of one item being
    replaced by this item.  The loop over the actions hands the data to the
    actions and changes nothing in it. *)
Theorem act_returns_prediction
    (state : pyval) (deterministic apply_action : bool)
    (m m' : machine) (v : pyval) :
  py_mod (cnt (self m)) (_rate (self m)) = Ok 0 ->
  act state deterministic false true apply_action m = (Ok v, m') ->
  exists (x0 x1 y0 y1 : pyval)
         (evs_state evs_pre evs_post evs_rest : list event),
    resolved (self m) state evs_state x0 /\
    chained (preprocessors (self m)) x0 evs_pre x1 /\
    chained (postprocessors (self m)) y0 evs_post y1 /\
    trace m' =
      trace m ++ evs_state ++ evs_pre ++
      predict_event (_model (self m)) x1 y0 :: evs_post ++ evs_rest /\
    forallb (fun e => negb (is_predict e) && negb (is_processor_call e))
      evs_rest = true /\
    v = match y1 with PyList [x] => x | _ => y1 end.
Proof.
  intros Htick Hact.
  destruct (act_tick_run _ _ _ _ _ _ _ _ Htick Hact)
    as (x0 & x1 & y0 & y1 & evs_state & evs_pre & evs_post & evs_loop
        & evs_act & leaves & l' & m6 & m7 & Hres & Hpre & Hpost & Ht & Hdisp
        & Hacts & Hl6 & Hloop & Hl7 & Hv).
  exists x0, x1, y0, y1, evs_state, evs_pre, evs_post,
    (Event (actions_iter (_actions (self m))) (Ok leaves)
       :: evs_loop ++ evs_act).
  conjs; try assumption.
  - apply rest_not_pipeline; assumption.
  - pose proof (dispatch_loop_stable _ _ _ _ _ Hl6 Hloop) as Hsame.
    rewrite Hl7 in Hsame. inversion Hsame; subst l'. subst v.
    destruct y1 as [ | | | | [| x [| x' l]] | | | | | | ]; reflexivity.
Qed.

(** With [to_numpy=True], what a call of [act] returns on a tick that is a
    multiple of the rate holds a numpy array for every item of the
    prediction that is paired with an action: the action data is a list
    of as many items as the prediction has, the item [j] is an array
    whenever the actions yield more than [j] actions, and the call returns
    the list, or its item when it has one item only.  Tensors are
    converted; an item beyond the number of actions is not. *)
Theorem act_returns_arrays
    (state : pyval) (deterministic return_logits apply_action : bool)
    (m m' : machine) (v : pyval) :
  py_mod (cnt (self m)) (_rate (self m)) = Ok 0 ->
  act state deterministic true return_logits apply_action m = (Ok v, m') ->
  exists (leaves l' : list pyval) (evs_before evs_after : list event),
    trace m' =
      trace m ++ evs_before ++
      Event (actions_iter (_actions (self m))) (Ok leaves) :: evs_after /\
    forallb (fun e => negb (is_dispatch_call e) && negb (is_actions_call e))
      evs_before = true /\
    v = unwrapped l' /\
    forall j, (j < length leaves)%nat -> (j < length l')%nat ->
              exists a, l' !! j = Some a /\ is_array a = true.
Proof.
  intros Htick Hact.
  destruct (act_tick_run _ _ _ _ _ _ _ _ Htick Hact)
    as (x0 & x1 & y0 & y1 & evs_state & evs_pre & evs_post & evs_loop
        & evs_act & leaves & l' & m6 & m7 & Hres & Hpre & Hpost & Ht & Hdisp
        & Hacts & Hl6 & Hloop & Hl7 & Hv).
  destruct (dispatch_loop_to_numpy _ _ _ _ _ Hl6 Hloop)
    as (l2 & Hl2 & Hlen & Harr & _).
  rewrite Hl7 in Hl2. inversion Hl2; subst l2. clear Hl2.
  exists leaves, l',
    (evs_state ++ evs_pre ++ predict_event (_model (self m)) x1 y0
       :: evs_post),
    (evs_loop ++ evs_act).
  conjs.
  - rewrite Ht. rewrite <- !app_assoc. simpl. rewrite <- ?app_assoc.
    reflexivity.
  - rewrite !forallb_app. simpl.
    assert (Hproc : forall evs,
               forallb is_processor_call evs = true ->
               forallb (fun e => negb (is_dispatch_call e)
                                 && negb (is_actions_call e)) evs = true).
    { intros evs Hevs. eapply forallb_weaken; [| exact Hevs].
      intros [A c r] He; destruct c; simpl in He; try discriminate;
        reflexivity. }
    rewrite (Hproc _ (chained_processor_calls _ _ _ _ Hpre)).
    rewrite (Hproc _ (chained_processor_calls _ _ _ _ Hpost)).
    assert (Hstate : forallb (fun e => negb (is_dispatch_call e)
                                       && negb (is_actions_call e))
                       evs_state = true).
    { unfold resolved in Hres.
      destruct (isinstance (if is_None state then _states (self m) else state)
                  State).
      - destruct Hres as (data & -> & _). reflexivity.
      - destruct Hres as [-> _]. reflexivity. }
    rewrite Hstate. unfold predict_event.
    destruct (isinstance (_model (self m)) Approximator); reflexivity.
  - exact Hv.
  - intros j Hj1 Hj2. apply Harr; [exact Hj1 | rewrite <- Hlen; exact Hj2].
Qed.

End Returned.

(** ** The loop over the actions, pair by pair *)

Section LoopCases.
Context {lib : ArrayLib} {collaborators : Collaborators}.

Lemma keeps_loop_call to_numpy return_logits item :
  keeps is_loop_call (dispatch to_numpy return_logits item).
Proof.
  destruct item as [idx [action data]]. unfold dispatch.
  apply keeps_bind; [keeps_step |]. intros discrete.
  destruct discrete, data, return_logits; simpl; repeat keeps_step.
Qed.

(** An iteration that returns. *)
Lemma dispatch_returns to_numpy return_logits idx action data m m' l :
  dispatch to_numpy return_logits (idx, (action, data)) m = (Ok tt, m') ->
  action_data (self m) = PyList l ->
  l !! idx = Some data ->
  exists discrete e v,
    trace m' = trace m ++ [Event (is_discrete action) (Ok discrete); e] /\
    assigned to_numpy return_logits action discrete data e v /\
    action_data (self m') = PyList (<[idx := v]> l).
Proof.
  intros Heq Hl Hidx. unfold dispatch in Heq.
  apply bind_ok in Heq. destruct Heq as (discrete & m1 & H1 & Heq).
  apply call_method_ok in H1. destruct H1 as [_ H1].
  apply invoke_ok in H1. destruct H1 as (w1 & _ & ->).
  set (m1 := {| self := self m; world := w1;
                trace := trace m ++ [Event (is_discrete action)
                                       (Ok discrete)] |}) in *.
  assert (Hl1 : action_data (self m1) = PyList l) by exact Hl.
  assert (Ht1 : trace m1 = trace m ++ [Event (is_discrete action)
                                         (Ok discrete)]) by reflexivity.
  clearbody m1.
  exists discrete.
  destruct discrete; destruct data; try discriminate Heq.
  - (* discrete, array *)
    apply bind_ok in Heq. destruct Heq as (i & m2 & H2 & Heq).
    unfold lift_result in H2. inversion H2 as [[Hi Hm]]. subst m2. clear H2.
    apply bind_ok in Heq. destruct Heq as ([] & m3 & H3 & Heq).
    apply call_method_ok in H3. destruct H3 as [_ H3].
    apply invoke_ok in H3. destruct H3 as (w3 & _ & ->).
    exists (Event (set_data action (np_array [i])) (Ok tt)),
      (if return_logits then PyArray a else PyArray (np_array [i])).
    assert (Hasg := assigned_discrete_array to_numpy return_logits action
                      a i Hi).
    destruct return_logits; simpl in Heq.
    + inversion Heq; subst m'. simpl. rewrite Ht1, <- app_assoc.
      split; [reflexivity |]. split; [exact Hasg |].
      rewrite (list_insert_id _ _ _ Hidx). exact Hl1.
    + match type of Heq with
      | setitem_action_data _ _ ?m3 = _ =>
          destruct (setitem_action_data_ok _ _ m3 _ l Heq Hl1) as [Hl' _];
          assert (Ht' : trace m' = trace m3)
      end.
      { unfold setitem_action_data in Heq.
        match type of Heq with
        | bind _ _ ?m3 = _ =>
            rewrite (bind_step _ _ _ _ _ (on_self_gets_run action_data m3))
              in Heq
        end.
        simpl in Heq. rewrite Hl1 in Heq.
        destruct (bool_decide (idx < length l)%nat);
          inversion Heq; reflexivity. }
      rewrite Ht'. simpl. rewrite Ht1, <- app_assoc.
      split; [reflexivity |]. split; [exact Hasg | exact Hl'].
  - (* discrete, tensor *)
    apply bind_ok in Heq. destruct Heq as (d & m2 & H2 & Heq).
    unfold lift_result in H2. inversion H2 as [[Hd Hm]]. subst m2. clear H2.
    apply bind_ok in Heq. destruct Heq as ([] & m3 & H3 & Heq).
    apply call_method_ok in H3. destruct H3 as [_ H3].
    apply invoke_ok in H3. destruct H3 as (w3 & _ & ->).
    assert (Hconv : exists v,
               __convert_to_numpy
                 (if return_logits then PyTensor t else PyTensor d) to_numpy
               = Ok v /\
               trace m' = trace m1 ++ [Event (set_torch_data action d)
                                         (Ok tt)] /\
               action_data (self m') = PyList (<[idx := v]> l)).
    { destruct return_logits; cbn [negb] in Heq;
        apply bind_ok in Heq; destruct Heq as (v & m4 & H4 & Heq);
        unfold lift_result in H4; inversion H4 as [[Hv Hm]]; subst m4;
        exists v; (split; [exact Hv |]);
        match type of Heq with
        | setitem_action_data _ _ ?m3 = _ =>
            destruct (setitem_action_data_ok _ _ m3 _ l Heq Hl1) as [Hl' _]
        end;
        (split; [| exact Hl']);
        unfold setitem_action_data in Heq;
        match type of Heq with
        | bind _ _ ?m3 = _ =>
            rewrite (bind_step _ _ _ _ _ (on_self_gets_run action_data m3))
              in Heq
        end;
        simpl in Heq; rewrite Hl1 in Heq;
        destruct (bool_decide (idx < length l)%nat);
        inversion Heq; reflexivity. }
    destruct Hconv as (v & Hv & Ht' & Hl').
    exists (Event (set_torch_data action d) (Ok tt)), v.
    rewrite Ht', Ht1, <- app_assoc.
    split; [reflexivity |]. split; [| exact Hl'].
    apply assigned_discrete_tensor; assumption.
  - (* continuous, array *)
    apply call_method_ok in Heq. destruct Heq as [_ H3].
    apply invoke_ok in H3. destruct H3 as (w3 & _ & ->).
    exists (Event (set_data action a) (Ok tt)), (PyArray a).
    simpl. rewrite Ht1, <- app_assoc.
    split; [reflexivity |]. split; [apply assigned_continuous_array |].
    rewrite (list_insert_id _ _ _ Hidx). exact Hl1.
  - (* continuous, tensor *)
    apply bind_ok in Heq. destruct Heq as ([] & m3 & H3 & Heq).
    apply call_method_ok in H3. destruct H3 as [_ H3].
    apply invoke_ok in H3. destruct H3 as (w3 & _ & ->).
    apply bind_ok in Heq. destruct Heq as (v & m4 & H4 & Heq).
    unfold lift_result in H4. inversion H4 as [[Hv Hm]]. subst m4.
    match type of Heq with
    | setitem_action_data _ _ ?m3 = _ =>
        destruct (setitem_action_data_ok _ _ m3 _ l Heq Hl1) as [Hl' _];
        assert (Ht' : trace m' = trace m3)
    end.
    { unfold setitem_action_data in Heq.
      match type of Heq with
      | bind _ _ ?m3 = _ =>
          rewrite (bind_step _ _ _ _ _ (on_self_gets_run action_data m3))
            in Heq
      end.
      simpl in Heq. rewrite Hl1 in Heq.
      destruct (bool_decide (idx < length l)%nat);
        inversion Heq; reflexivity. }
    exists (Event (set_torch_data action t) (Ok tt)), v.
    rewrite Ht'. simpl. rewrite Ht1, <- app_assoc.
    split; [reflexivity |]. split; [| exact Hl'].
    apply assigned_continuous_tensor. exact Hv.
Qed.

(** An iteration that raises. *)
Lemma dispatch_raises to_numpy return_logits idx action data m ex m' :
  dispatch to_numpy return_logits (idx, (action, data)) m = (Raise ex, m') ->
  exists evs,
    trace m' = trace m ++ evs /\
    forallb is_loop_call evs = true /\
    ((exists discrete,
        evs = [Event (is_discrete action) (Ok discrete)] /\
        is_array data = false /\ is_tensor data = false /\
        ex = TypeError) \/
     (is_array data || is_tensor data = true \/
      forallb returned evs = false \/ evs = [])).
Proof.
  intros Heq.
  destruct (keeps_loop_call _ _ _ _ _ _ Heq) as (evs & Ht & Hloop & _).
  exists evs. split; [exact Ht |]. split; [exact Hloop |].
  unfold dispatch in Heq.
  destruct (bind_cases _ _ _ _ _ Heq)
    as [(discrete & m1 & H1 & Hrest) | (e & H1 & _)].
  - apply call_method_ok in H1. destruct H1 as [_ H1].
    apply invoke_ok in H1. destruct H1 as (w1 & _ & ->).
    destruct (is_array data || is_tensor data) eqn:Hkind;
      [right; left; reflexivity |].
    left. exists discrete.
    destruct discrete; destruct data; try discriminate Hkind;
      unfold raise in Hrest; inversion Hrest; subst ex m'; simpl in Ht;
      apply app_inv_head in Ht; subst evs; repeat split.
  - right. right. unfold call_method in H1.
    destruct (is_object action).
    + unfold invoke in H1.
      destruct (respond bool (is_discrete action) (world m)) as [r0 w].
      inversion H1; subst. simpl in Ht. apply app_inv_head in Ht. subst evs.
      left. reflexivity.
    + unfold raise in H1. inversion H1; subst.
      right. rewrite <- (app_nil_r (trace m')) in Ht at 1.
      apply app_inv_head in Ht. symmetry. exact Ht.
Qed.

Lemma dispatch_loop_cases to_numpy return_logits :
  forall (pairs : list (pyval * pyval)) (k : nat) m r m' (l : list pyval),
    for_each (enumerate_from k pairs) (dispatch to_numpy return_logits) m
    = (r, m') ->
    action_data (self m) = PyList l ->
    (forall i a d, pairs !! i = Some (a, d) -> l !! (k + i)%nat = Some d) ->
    exists evs vs,
      trace m' = trace m ++ evs /\
      looped to_numpy return_logits pairs evs vs r /\
      (r = Ok tt ->
       exists l',
         action_data (self m') = PyList l' /\ length l' = length l /\
         length vs = length pairs /\
         (forall i, (i < length pairs)%nat -> l' !! (k + i)%nat = vs !! i) /\
         (forall j, (j < k \/ k + length pairs <= j)%nat ->
                    l' !! j = l !! j)).
Proof.
  induction pairs as [| [action data] pairs IH];
    intros k m r m' l Heq Hl Hdata; simpl in Heq.
  - inversion Heq; subst. exists [], []. rewrite app_nil_r.
    split; [reflexivity |]. split; [constructor |].
    intros _. exists l. split; [exact Hl |]. split; [reflexivity |].
    split; [reflexivity |]. split; [| reflexivity].
    intros i Hi. simpl in Hi. lia.
  - assert (Hk : l !! k = Some data).
    { specialize (Hdata 0%nat action data eq_refl).
      rewrite Nat.add_0_r in Hdata. exact Hdata. }
    assert (Hlt : (k < length l)%nat) by (eapply lookup_lt_Some; exact Hk).
    destruct (bind_cases _ _ _ _ _ Heq)
      as [([] & m1 & H1 & H2) | (e & H1 & ->)].
    + destruct (dispatch_returns _ _ _ _ _ _ _ _ H1 Hl Hk)
        as (discrete & e & v & Ht1 & Hasg & Hl1).
      destruct (IH (S k) _ _ _ _ H2 Hl1)
        as (evs & vs & Ht2 & Hloop & Hok).
      { intros i a d Hi. rewrite list_lookup_insert_ne by lia.
        replace (S k + i)%nat with (k + S i)%nat by lia.
        apply (Hdata (S i) a d). exact Hi. }
      exists (Event (is_discrete action) (Ok discrete) :: e :: evs),
        (v :: vs).
      split; [rewrite Ht2, Ht1, <- app_assoc; reflexivity |].
      split; [constructor; assumption |].
      intros Hr. destruct (Hok Hr) as (l' & Hl' & Hlen & Hvs & Hin & Hout).
      exists l'. split; [exact Hl' |].
      split; [rewrite Hlen; apply length_insert |].
      split; [simpl; rewrite Hvs; reflexivity |]. split.
      * intros [| i] Hi; simpl in Hi.
        -- rewrite Nat.add_0_r, Hout by lia. simpl.
           apply lookup_insert_here, Hlt.
        -- replace (k + S i)%nat with (S k + i)%nat by lia.
           simpl. apply Hin. lia.
      * intros j Hj. simpl in Hj. rewrite Hout by lia.
        apply list_lookup_insert_ne. lia.
    + destruct (dispatch_raises _ _ _ _ _ _ _ _ H1)
        as (evs & Ht & Hloop & Hwhy).
      exists evs, []. split; [exact Ht |]. split; [| discriminate].
      destruct Hwhy as [(discrete & -> & Ha & Htn & ->) | Hwhy].
      * apply looped_type_error; assumption.
      * apply looped_raised; assumption.
Qed.

(** The loop of a prediction tick over [enumerate(zip(actions, data))]. *)
Lemma dispatch_loop_looped to_numpy return_logits leaves l m r m' :
  for_each (enumerate (zip leaves l)) (dispatch to_numpy return_logits) m
  = (r, m') ->
  action_data (self m) = PyList l ->
  exists evs vs,
    trace m' = trace m ++ evs /\
    looped to_numpy return_logits (zip leaves l) evs vs r /\
    (r = Ok tt ->
     action_data (self m') = PyList (vs ++ drop (length vs) l)).
Proof.
  intros Hrun Hl. unfold enumerate in Hrun.
  destruct (dispatch_loop_cases _ _ _ _ _ _ _ _ Hrun Hl)
    as (evs & vs & Ht & Hloop & Hok).
  { intros i a d Hi. simpl. eapply zip_lookup, Hi. }
  exists evs, vs. split; [exact Ht |]. split; [exact Hloop |].
  intros Hr. destruct (Hok Hr) as (l' & Hl' & Hlen & Hvs & Hin & Hout).
  rewrite Hl'. f_equal. apply list_eq. intros i.
  destruct (decide (i < length vs)%nat) as [Hi | Hi].
  - rewrite lookup_app_l by exact Hi. apply (Hin i). lia.
  - rewrite lookup_app_r by lia. rewrite lookup_drop.
    replace (length vs + (i - length vs))%nat with i by lia.
    apply Hout. lia.
Qed.

End LoopCases.

(** ** The runs of a prediction tick *)

Section TickCases.
Context {lib : ArrayLib} {collaborators : Collaborators}.

(** A step that raises after steps that made the calls [evs0]. *)
Lemma raised_before P {A} (c : M A) (m m0 m' : machine) e evs0 :
  keeps P c ->
  c m0 = (Raise e, m') ->
  trace m0 = trace m ++ evs0 ->
  forallb P evs0 = true ->
  exists evs, trace m' = trace m ++ evs /\ forallb P evs = true.
Proof.
  intros Hc Hrun Ht0 HP0.
  destruct (Hc _ _ _ Hrun) as (evs & Ht & HP & _).
  exists (evs0 ++ evs). rewrite Ht, Ht0, app_assoc, forallb_app, HP0, HP.
  split; reflexivity.
Qed.

Lemma processor_calls_before_loop evs :
  forallb is_processor_call evs = true -> forallb before_loop evs = true.
Proof.
  intros Hevs. eapply forallb_weaken; [| exact Hevs].
  intros [A c r] He; destruct c; simpl in He; try discriminate; reflexivity.
Qed.

Lemma resolved_before_loop p state evs x :
  resolved p state evs x -> forallb before_loop evs = true.
Proof.
  unfold resolved.
  destruct (isinstance (if is_None state then _states p else state) State).
  - intros (data & -> & _). reflexivity.
  - intros [-> _]. reflexivity.
Qed.

Lemma predict_event_before_loop mdl x y :
  before_loop (predict_event mdl x y) = true.
Proof.
  unfold predict_event. destruct (isinstance mdl Approximator); reflexivity.
Qed.

(** A run of the prediction of a tick: either it raises on the way to the
    loop over the actions, or it has gone through the pipeline, has got the
    actions, and has run the loop on the data the pipeline gave. *)
Lemma predict_tick_cases state to_numpy return_logits m r m' :
  predict_tick state to_numpy return_logits m = (r, m') ->
  ((exists e, r = Raise e) /\
   exists evs, trace m' = trace m ++ evs /\ forallb before_loop evs = true) \/
  exists (x0 x1 y0 y1 : pyval)
         (evs_state evs_pre evs_post evs_loop : list event)
         (leaves vs : list pyval),
    resolved (self m) state evs_state x0 /\
    chained (preprocessors (self m)) x0 evs_pre x1 /\
    chained (postprocessors (self m)) y0 evs_post y1 /\
    trace m' =
      trace m ++ evs_state ++ evs_pre ++
      predict_event (_model (self m)) x1 y0 :: evs_post ++
      Event (actions_iter (_actions (self m))) (Ok leaves) :: evs_loop /\
    looped to_numpy return_logits (zip leaves (as_list y1)) evs_loop vs r /\
    (r = Ok tt ->
     action_data (self m') =
     unwrapped (vs ++ drop (length vs) (as_list y1))).
Proof.
  unfold predict_tick. intros Heq.
  (* state = self.states *)
  assert (H0 : (if is_None state then on_self states else ret state) m
               = (Ok (if is_None state then _states (self m) else state), m)).
  { destruct (is_None state); [| reflexivity].
    apply (on_self_gets_run _states). }
  rewrite (bind_step _ _ _ _ _ H0) in Heq. clear H0.
  set (s1 := if is_None state then _states (self m) else state) in *.
  assert (Ht0 : trace m = trace m ++ []) by (rewrite app_nil_r; reflexivity).
  (* state = state.merged_data *)
  destruct (bind_cases _ _ _ _ _ Heq)
    as [(x0 & m1 & Hx0 & Heq1) | (e & Hx0 & ->)].
  2:{ left. split; [eauto |].
      eapply (raised_before before_loop); [| exact Hx0 | exact Ht0
                                          | reflexivity].
      destruct (isinstance s1 State); [| keeps_step].
      apply keeps_bind; [keeps_step |]. intros [| x [| y l]]; keeps_step. }
  clear Heq. rename Heq1 into Heq.
  assert (Hres : exists evs_state,
             resolved (self m) state evs_state x0 /\
             trace m1 = trace m ++ evs_state /\ self m1 = self m).
  { unfold resolved. fold s1. destruct (isinstance s1 State).
    - apply bind_ok in Hx0. destruct Hx0 as (data & m2 & Hcall & Hret).
      apply call_method_ok in Hcall. destruct Hcall as [_ Hcall].
      apply invoke_ok in Hcall. destruct Hcall as (w & _ & ->).
      eexists. split; [exists data; split; [reflexivity |] |].
      + destruct data as [| item [| item' rest]];
          unfold ret in Hret; inversion Hret; reflexivity.
      + destruct data as [| item [| item' rest]];
          unfold ret in Hret; inversion Hret; subst; split; reflexivity.
    - unfold ret in Hx0. inversion Hx0; subst. exists [].
      rewrite app_nil_r. repeat split. }
  destruct Hres as (evs_state & Hres & Ht1 & Hs1). clear Hx0.
  pose proof (resolved_before_loop _ _ _ _ Hres) as Hb1.
  (* the preprocessors *)
  rewrite (bind_step _ _ _ _ _ (on_self_gets_run preprocessors m1)) in Heq.
  destruct (bind_cases _ _ _ _ _ Heq)
    as [(x1 & m2 & Hpre & Heq1) | (e & Hpre & ->)].
  2:{ left. split; [eauto |].
      eapply (raised_before before_loop); [| exact Hpre | exact Ht1
                                          | exact Hb1].
      apply keeps_for_fold; intros; keeps_step. }
  clear Heq. rename Heq1 into Heq.
  apply preprocessors_chained in Hpre.
  destruct Hpre as (evs_pre & Hpre & Ht2 & Hs2).
  pose proof (processor_calls_before_loop _
                (chained_processor_calls _ _ _ _ Hpre)) as Hb2.
  rewrite Ht1, <- app_assoc in Ht2.
  assert (Hb12 : forallb before_loop (evs_state ++ evs_pre) = true)
    by (rewrite forallb_app, Hb1, Hb2; reflexivity).
  (* the prediction *)
  destruct (bind_cases _ _ _ _ _ Heq)
    as [(y0 & m3 & Hpred & Heq1) | (e & Hpred & ->)].
  2:{ left. split; [eauto |].
      eapply (raised_before before_loop); [| exact Hpred | exact Ht2
                                          | exact Hb12].
      unfold _predict, model. apply keeps_bind; [keeps_step |]. intros mdl.
      destruct (isinstance mdl Approximator); keeps_step. }
  clear Heq. rename Heq1 into Heq.
  assert (Hpred' : trace m3 =
                     trace m2 ++ [predict_event (_model (self m)) x1 y0] /\
                   self m3 = self m2).
  { unfold _predict, model in Hpred.
    rewrite (bind_step _ _ _ _ _ (on_self_gets_run _model m2)) in Hpred.
    unfold predict_event. rewrite <- Hs1, <- Hs2.
    destruct (isinstance (_model (self m2)) Approximator);
      apply call_method_ok in Hpred; destruct Hpred as [_ Hpred];
      apply invoke_ok in Hpred; destruct Hpred as (w & _ & ->);
      split; reflexivity. }
  destruct Hpred' as [Ht3 Hs3]. clear Hpred.
  rewrite Ht2, <- app_assoc in Ht3.
  assert (Hb3 : forallb before_loop
                  ((evs_state ++ evs_pre) ++
                   [predict_event (_model (self m)) x1 y0]) = true).
  { rewrite forallb_app, Hb12. simpl.
    rewrite predict_event_before_loop. reflexivity. }
  (* the postprocessors *)
  rewrite (bind_step _ _ _ _ _
             (eq_refl : set_action_data y0 m3 = (Ok tt, stored m3 y0)))
    in Heq.
  match type of Heq with
  | bind (on_self (gets postprocessors)) _ ?m4 = _ =>
      rewrite (bind_step _ _ _ _ _ (on_self_gets_run postprocessors m4))
        in Heq
  end.
  destruct (bind_cases _ _ _ _ _ Heq)
    as [([] & m5 & Hpost & Heq1) | (e & Hpost & ->)].
  2:{ left. split; [eauto |].
      eapply (raised_before before_loop);
        [| exact Hpost | exact Ht3 | exact Hb3].
      apply keeps_for_each. intros p. repeat keeps_step. }
  clear Heq. rename Heq1 into Heq.
  apply postprocessors_chained in Hpost.
  destruct Hpost as (evs_post & Hpost & Ht5 & Hf5). simpl in Hpost, Ht5, Hf5.
  pose proof (processor_calls_before_loop _
                (chained_processor_calls _ _ _ _ Hpost)) as Hb5.
  assert (Hf : frame (self m) (self m5)).
  { eapply frame_trans; [| exact Hf5].
    rewrite <- Hs1, <- Hs2, <- Hs3. apply frame_with_action_data. }
  destruct (frame_fields _ _ Hf) as (_ & Hacts & _).
  rewrite Ht3 in Ht5.
  (* the action data as a list *)
  rewrite (bind_step _ _ _ _ _ (on_self_gets_run action_data m5)) in Heq.
  set (y1 := action_data (self m5)) in *.
  set (m6 := if isinstance_list y1 then m5
             else stored m5 (PyList [y1])).
  assert (Hwrap : when (negb (isinstance_list y1))
                    (set_action_data (PyList [y1])) m5 = (Ok tt, m6))
    by (subst m6; destruct (isinstance_list y1); reflexivity).
  rewrite (bind_step _ _ _ _ _ Hwrap) in Heq. clear Hwrap.
  assert (Hm6 : action_data (self m6) = PyList (as_list y1) /\
                trace m6 = trace m5 /\
                _actions (self m6) = _actions (self m5)).
  { subst m6. destruct (isinstance_list y1) eqn:Hlist.
    - fold y1. destruct y1; try discriminate Hlist. repeat split.
    - simpl. destruct y1; try discriminate Hlist; repeat split. }
  destruct Hm6 as (Hl6 & Ht6 & Ha6). clearbody m6.
  rewrite Ht5 in Ht6.
  (* the actions *)
  unfold actions in Heq.
  rewrite (bind_step _ _ _ _ _ (on_self_gets_run _actions m6)) in Heq.
  destruct (bind_cases _ _ _ _ _ Heq)
    as [(leaves & m6' & Hiter & Heq1) | (e & Hiter & ->)].
  2:{ left. split; [eauto |].
      eapply (raised_before before_loop);
        [| exact Hiter | rewrite Ht6, <- !app_assoc; reflexivity |].
      - keeps_step.
      - rewrite ?forallb_app. simpl. rewrite ?forallb_app.
        rewrite ?Hb1, ?Hb2, ?Hb5, ?predict_event_before_loop.
        reflexivity. }
  clear Heq. rename Heq1 into Heq.
  apply call_object_ok in Hiter. destruct Hiter as [_ Hiter].
  apply invoke_ok in Hiter. destruct Hiter as (w & _ & ->).
  match type of Heq with
  | bind (on_self (gets action_data)) _ ?ma = _ =>
      rewrite (bind_step _ _ _ _ _ (on_self_gets_run action_data ma)) in Heq;
      set (m6' := ma) in *
  end.
  assert (Hl6' : action_data (self m6') = PyList (as_list y1)) by exact Hl6.
  assert (Ht6' : trace m6' =
                 trace m ++ evs_state ++ evs_pre ++
                 predict_event (_model (self m)) x1 y0 :: evs_post ++
                 [Event (actions_iter (_actions (self m))) (Ok leaves)]).
  { subst m6'. simpl. rewrite Ht6, Ha6, Hacts. rewrite <- !app_assoc.
    simpl. rewrite <- ?app_assoc. reflexivity. }
  rewrite Hl6' in Heq. simpl list_items in Heq.
  clearbody m6'.
  (* the loop *)
  right.
  exists x0, x1, y0, y1, evs_state, evs_pre, evs_post.
  destruct (bind_cases _ _ _ _ _ Heq)
    as [([] & m7 & Hloop & Heq1) | (e & Hloop & ->)].
  - destruct (dispatch_loop_looped _ _ _ _ _ _ _ Hloop Hl6')
      as (evs_loop & vs & Ht7 & Hlooped & Hl7).
    specialize (Hl7 eq_refl).
    rewrite (bind_step _ _ _ _ _ (on_self_gets_run action_data m7)) in Heq1.
    rewrite Hl7 in Heq1.
    assert (Hend : r = Ok tt /\ trace m' = trace m7 /\
                   action_data (self m') =
                   unwrapped (vs ++ drop (length vs) (as_list y1))).
    { destruct (vs ++ drop (length vs) (as_list y1)) as [| x [| x' l']];
        simpl.
      - inversion Heq1; subst. repeat split. exact Hl7.
      - unfold set_action_data, on_self, modify in Heq1. simpl in Heq1.
        inversion Heq1; subst. repeat split.
      - inversion Heq1; subst. repeat split. exact Hl7. }
    destruct Hend as (-> & Ht' & Hd').
    exists evs_loop, leaves, vs.
    split; [exact Hres |].
    split; [rewrite Hs1 in Hpre; exact Hpre |].
    split; [rewrite Hs3, Hs2, Hs1 in Hpost; exact Hpost |].
    split.
    { rewrite Ht', Ht7, Ht6'. rewrite <- !app_assoc. simpl.
      rewrite <- ?app_assoc. reflexivity. }
    split; [exact Hlooped |]. intros _. exact Hd'.
  - destruct (dispatch_loop_looped _ _ _ _ _ _ _ Hloop Hl6')
      as (evs_loop & vs & Ht7 & Hlooped & _).
    exists evs_loop, leaves, vs.
    split; [exact Hres |].
    split; [rewrite Hs1 in Hpre; exact Hpre |].
    split; [rewrite Hs3, Hs2, Hs1 in Hpost; exact Hpost |].
    split.
    { rewrite Ht7, Ht6'. rewrite <- !app_assoc. simpl.
      rewrite <- ?app_assoc. reflexivity. }
    split; [exact Hlooped | discriminate].
Qed.

End TickCases.

(** ** The prediction tick: the pipeline and the dispatch *)

Section TickClaims.
Context {lib : ArrayLib} {collaborators : Collaborators}.

Lemma looped_loop_calls to_numpy return_logits pairs evs vs r :
  looped to_numpy return_logits pairs evs vs r ->
  forallb is_loop_call evs = true.
Proof.
  induction 1 as [| action data pairs discrete e v evs vs r Hasg _ IH | |].
  - reflexivity.
  - simpl. rewrite IH. destruct Hasg; reflexivity.
  - reflexivity.
  - assumption.
Qed.

Lemma loop_calls_not_pipeline evs :
  forallb is_loop_call evs = true ->
  forallb (fun e => negb (is_predict e) && negb (is_processor_call e)) evs
  = true.
Proof.
  intros Hevs. eapply forallb_weaken; [| exact Hevs].
  intros [A c r] He; destruct c; simpl in He; try discriminate; reflexivity.
Qed.

Lemma actions_calls_not_pipeline evs :
  forallb is_actions_call evs = true ->
  forallb (fun e => negb (is_predict e) && negb (is_processor_call e)) evs
  = true.
Proof.
  intros Hevs. eapply forallb_weaken; [| exact Hevs].
  intros [A c r] He; destruct c; simpl in He; try discriminate; reflexivity.
Qed.

(** C1. On a tick where [cnt % rate == 0], a call of [act] computes the
    action data in this order: the state is resolved ([self.states] when the
    argument is [None]; a [State] instance is replaced by its [merged_data],
    unwrapped when that list has exactly one item), every preprocessor is
    applied in list order, each to the result of the one before, the inner
    model's [predict] is called exactly once, on the processed state, and
    every postprocessor is applied in list order to the prediction.  No
    other call of a processor or of [predict] is made.  The result [y1] of
    the last postprocessor is the action data: made a list when it is none,
    it is what the loop over the actions goes through, item by item, and
    the data the call stores and returns is the list this loop leaves, or
    its item when it has exactly one.  A call that raises instead of
    returning has called [predict] once at most. *)
Theorem act_prediction_pipeline
    (state : pyval)
    (deterministic to_numpy return_logits apply_action : bool)
    (m m' : machine) (r : result pyval) :
  py_mod (cnt (self m)) (_rate (self m)) = Ok 0 ->
  act state deterministic to_numpy return_logits apply_action m = (r, m') ->
  (exists evs,
     trace m' = trace m ++ evs /\ (count is_predict evs <= 1)%nat) /\
  (forall v : pyval,
     r = Ok v ->
     exists (x0 x1 y0 y1 : pyval)
            (evs_state evs_pre evs_post evs_rest : list event),
       resolved (self m) state evs_state x0 /\
       chained (preprocessors (self m)) x0 evs_pre x1 /\
       chained (postprocessors (self m)) y0 evs_post y1 /\
       trace m' =
         trace m ++ evs_state ++ evs_pre ++
         predict_event (_model (self m)) x1 y0 :: evs_post ++ evs_rest /\
       forallb (fun e => negb (is_predict e) && negb (is_processor_call e))
         evs_rest = true /\
       count is_predict
         (evs_state ++ evs_pre ++
          predict_event (_model (self m)) x1 y0 :: evs_post ++ evs_rest)
       = 1%nat /\
       count is_processor_call
         (evs_state ++ evs_pre ++
          predict_event (_model (self m)) x1 y0 :: evs_post ++ evs_rest)
       = (length (preprocessors (self m)) +
          length (postprocessors (self m)))%nat /\
       action_data (self m') = v /\
       exists (leaves vs : list pyval) (evs_loop evs_act : list event),
         evs_rest =
           Event (actions_iter (_actions (self m))) (Ok leaves)
             :: evs_loop ++ evs_act /\
         looped to_numpy return_logits (zip leaves (as_list y1)) evs_loop vs
           (Ok tt) /\
         forallb is_actions_call evs_act = true /\
         v = unwrapped (vs ++ drop (length vs) (as_list y1))).
Proof.
  intros Htick Hact. split.
  - (* however the call ends *)
    destruct (act_at_most_one_predict _ _ _ _ _ _ _ _ Hact) as (evs & Ht & Hn).
    exists evs. split; [exact Ht | exact Hn].
  - (* when it returns *)
    intros v ->.
    apply act_inv in Hact. rewrite Htick in Hact. simpl in Hact.
    destruct (predict_tick state to_numpy return_logits m)
      as [[[] | e] m1] eqn:Hpredict; [| destruct Hact; discriminate].
    destruct (apply_actions apply_action m1) as [[[] | e] m2] eqn:Happly;
      [| destruct Hact; discriminate].
    destruct Hact as [Hv ->]. inversion Hv; subst v. clear Hv.
    apply apply_actions_inv in Happly.
    destruct Happly as (Hs2 & evs_act & Hta & Hacts & _).
    destruct (predict_tick_cases _ _ _ _ _ _ Hpredict)
      as [((e & He) & _)
         | (x0 & x1 & y0 & y1 & evs_state & evs_pre & evs_post & evs_loop
            & leaves & vs & Hres & Hpre & Hpost & Ht & Hloop & Hdata)];
      [discriminate He |].
    specialize (Hdata eq_refl).
    set (evs_rest := Event (actions_iter (_actions (self m))) (Ok leaves)
                       :: evs_loop ++ evs_act).
    assert (Hrest : forallb (fun e => negb (is_predict e)
                                      && negb (is_processor_call e))
                      evs_rest = true).
    { subst evs_rest. simpl. rewrite forallb_app.
      rewrite (loop_calls_not_pipeline _
                 (looped_loop_calls _ _ _ _ _ _ Hloop)).
      rewrite (actions_calls_not_pipeline _ Hacts). reflexivity. }
    exists x0, x1, y0, y1, evs_state, evs_pre, evs_post, evs_rest.
    split; [exact Hres |]. split; [exact Hpre |]. split; [exact Hpost |].
    split.
    { subst evs_rest. simpl. rewrite Hta, Ht. rewrite <- !app_assoc. simpl.
      rewrite <- ?app_assoc. reflexivity. }
    split; [exact Hrest |].
    split; [exact (count_predict_pipeline _ _ _ _ _ _ _ _ _ _ _ _ _
                     Hres Hpre Hpost Hrest) |].
    split.
    { (* the processors: those of the two chains, and no other *)
      pose proof (chained_processor_calls _ _ _ _ Hpre) as Hpre_calls.
      pose proof (chained_processor_calls _ _ _ _ Hpost) as Hpost_calls.
      assert (Hall : forall evs,
                 forallb is_processor_call evs = true ->
                 count is_processor_call evs = length evs).
      { unfold count. induction evs as [| e evs IH]; simpl; [reflexivity |].
        intros H. apply andb_prop in H. destruct H as [He Hevs].
        rewrite He. simpl. rewrite IH; auto. }
      change (predict_event (_model (self m)) x1 y0 :: evs_post ++ evs_rest)
        with ([predict_event (_model (self m)) x1 y0]
                ++ evs_post ++ evs_rest).
      rewrite !count_app.
      rewrite (count_none is_processor_call evs_state).
      2:{ eapply forallb_weaken; [| exact (resolved_calls _ _ _ _ Hres)].
          intros e He. apply andb_prop in He. apply He. }
      rewrite (count_none is_processor_call evs_rest).
      2:{ eapply forallb_weaken; [| exact Hrest].
          intros e He. apply andb_prop in He. apply He. }
      rewrite (Hall _ Hpre_calls), (Hall _ Hpost_calls).
      rewrite (chained_length _ _ _ _ Hpre), (chained_length _ _ _ _ Hpost).
      unfold count. simpl.
      rewrite (proj2 (predict_event_kind (_model (self m)) x1 y0)).
      simpl. lia. }
    split; [reflexivity |].
    exists leaves, vs, evs_loop, evs_act.
    split; [reflexivity |]. split; [exact Hloop |]. split; [exact Hacts |].
    rewrite Hs2. exact Hdata.
Qed.


End TickClaims.

(** ** Predictions over many calls *)

Section Periods.
Context {lib : ArrayLib} {collaborators : Collaborators}.

Lemma filter_ticks_shift (c R : Z) :
  forall (n s : nat),
    length (List.filter (fun k => (c + Z.of_nat k) mod R =? 0)
              (seq (S s) n)) =
    length (List.filter (fun k => (c + 1 + Z.of_nat k) mod R =? 0)
              (seq s n)).
Proof.
  induction n as [| n IH]; intros s; [reflexivity |].
  cbn [seq List.filter].
  replace (c + Z.of_nat (S s)) with (c + 1 + Z.of_nat s) by lia.
  destruct ((c + 1 + Z.of_nat s) mod R =? 0); cbn [length];
    rewrite IH; reflexivity.
Qed.

Lemma prediction_ticks_S c R n :
  length (prediction_ticks c R (S n)) =
  ((if (c mod R =? 0)%Z then 1 else 0) +
   length (prediction_ticks (c + 1) R n))%nat.
Proof.
  unfold prediction_ticks. cbn [seq List.filter].
  replace (c + Z.of_nat 0) with c by (simpl; lia).
  destruct (c mod R =? 0); cbn [length]; rewrite filter_ticks_shift;
    reflexivity.
Qed.

Lemma prediction_ticks_count (R : Z) (n : nat) (c : Z) :
  0 < R -> c mod R = 0 ->
  Z.of_nat (length (prediction_ticks c R n)) = (Z.of_nat n + R - 1) / R.
Proof.
  intros HR Hc. unfold prediction_ticks.
  induction n as [| n IH].
  - simpl. symmetry. apply Z.div_small. lia.
  - rewrite seq_S, List.filter_app, length_app, Nat2Z.inj_add, IH.
    simpl. clear IH.
    assert (Hmod : (c + Z.of_nat n) mod R = Z.of_nat n mod R).
    { rewrite <- Zplus_mod_idemp_l, Hc. reflexivity. }
    rewrite Hmod.
    pose proof (Z.div_mod (Z.of_nat n) R ltac:(lia)) as Hdm.
    pose proof (Z.mod_pos_bound (Z.of_nat n) R HR) as Hb.
    set (q := Z.of_nat n / R) in *. set (r := Z.of_nat n mod R) in *.
    assert (Hnext : (Z.of_nat (S n) + R - 1) / R = q + 1).
    { symmetry. apply (Z.div_unique _ _ _ r); lia. }
    rewrite Hnext.
    destruct (r =? 0) eqn:Hr; simpl.
    + apply Z.eqb_eq in Hr.
      assert (Hq : (Z.of_nat n + R - 1) / R = q).
      { symmetry. apply (Z.div_unique _ _ _ (R - 1)); lia. }
      rewrite Hq. lia.
    + apply Z.eqb_neq in Hr.
      assert (Hq : (Z.of_nat n + R - 1) / R = q + 1).
      { symmetry. apply (Z.div_unique _ _ _ (r - 1)); lia. }
      rewrite Hq. lia.
Qed.

(** Any number of calls of [act] in a row that all return: the counter
    advances by their number, and [predict] is called once for each call
    made on a tick that is a multiple of the rate, and by no other call.
    From a tick that is a multiple of a rate [R > 0], the first tick of a
    new policy for one, [n] calls make [ceil(n / R)] predictions. *)
Theorem act_n_predictions
    (state : pyval)
    (deterministic to_numpy return_logits apply_action : bool) (R : Z) :
  forall (n : nat) (m m' : machine) (vs : list pyval),
    int_value (_rate (self m)) = Some R ->
    act_n n state deterministic to_numpy return_logits apply_action m
    = (Ok vs, m') ->
    length vs = n /\
    cnt (self m') = cnt (self m) + Z.of_nat n /\
    exists evs,
      trace m' = trace m ++ evs /\
      count is_predict evs = length (prediction_ticks (cnt (self m)) R n) /\
      (0 < R -> cnt (self m) mod R = 0 ->
       Z.of_nat (count is_predict evs) = (Z.of_nat n + R - 1) / R).
Proof.
  intros n m m' vs Hrate Hrun.
  assert (Hmain :
            length vs = n /\
            cnt (self m') = cnt (self m) + Z.of_nat n /\
            exists evs,
              trace m' = trace m ++ evs /\
              count is_predict evs =
              length (prediction_ticks (cnt (self m)) R n)).
  { revert m m' vs Hrate Hrun.
    induction n as [| n IH]; intros m m' vs Hrate Hrun; simpl in Hrun.
    - inversion Hrun; subst. split; [reflexivity |]. split; [simpl; lia |].
      exists []. rewrite app_nil_r. split; reflexivity.
    - apply bind_ok in Hrun. destruct Hrun as (v & m1 & Hact & Hrun).
      apply bind_ok in Hrun. destruct Hrun as (vs' & m2 & Hrest & Hret).
      inversion Hret; subst vs m2. clear Hret.
      pose proof (act_fields _ _ _ _ _ _ _ _ Hact) as (_ & _ & _ & Hrate1 & _).
      rewrite <- Hrate1 in Hrate.
      destruct (IH _ _ _ Hrate Hrest) as (Hlen & Hcnt' & evs' & Ht' & Hp').
      rewrite Hrate1 in Hrate.
      pose proof (act_effects _ _ _ _ _ _ _ _ Hact)
        as (evs_tick & evs_act & Ht & _ & Hacts & _ & _ & _ & _ & Hoff & Hcnt
            & _).
      simpl in Hcnt.
      assert (Hmod : py_mod (cnt (self m)) (_rate (self m))
                     = Ok (cnt (self m) mod R)).
      { pose proof (act_inv _ _ _ _ _ _ _ _ Hact) as Hinv.
        unfold py_mod in *. rewrite Hrate in *.
        destruct (R =? 0); [destruct Hinv; discriminate | reflexivity]. }
      split; [simpl; rewrite Hlen; reflexivity |].
      split; [rewrite Hcnt', Hcnt; lia |].
      exists ((evs_tick ++ evs_act) ++ evs').
      split; [rewrite Ht', Ht, <- !app_assoc; reflexivity |].
      rewrite count_app, Hp', Hcnt, prediction_ticks_S. f_equal.
      destruct (cnt (self m) mod R =? 0) eqn:Htick.
      + apply Z.eqb_eq in Htick. rewrite Htick in Hmod.
        destruct (act_tick_returns _ _ _ _ _ _ _ _ Hmod Hact)
          as (x0 & x1 & y0 & y1 & es & ep & eo & er & Hres & Hpre & Hpost
              & Ht0 & Hrest0 & _).
        rewrite Ht in Ht0. apply app_inv_head in Ht0. rewrite Ht0.
        exact (count_predict_pipeline _ _ _ _ _ _ _ _ _ _ _ _ _
                 Hres Hpre Hpost Hrest0).
      + apply Z.eqb_neq in Htick.
        destruct (Hoff _ Hmod Htick) as [-> _]. simpl.
        apply count_none. eapply forallb_weaken; [| exact Hacts].
        intros e He. apply (actions_call_not_pipeline e He). }
  destruct Hmain as (Hlen & Hcnt & evs & Ht & Hp).
  split; [exact Hlen |]. split; [exact Hcnt |].
  exists evs. split; [exact Ht |]. split; [exact Hp |].
  intros HR Htick. rewrite Hp. apply prediction_ticks_count; assumption.
Qed.

End Periods.

(** ** Sizes *)

Section SizeFacts.
Context {lib : ArrayLib} {sp : Spaces}.

Lemma for_fold_app {S A B} (body : A -> B -> prog S B) :
  forall (xs ys : list A) (b : B) (s : S),
    for_fold (xs ++ ys) body b s =
    (b' <- for_fold xs body b ;; for_fold ys body b') s.
Proof.
  induction xs as [| x xs IH]; intros ys b s; simpl; [reflexivity |].
  unfold bind. destruct (body x b s) as [[b1 | e] s1];
    [rewrite IH; reflexivity | reflexivity].
Qed.

Lemma for_fold_shift {S A} (body : A -> Z -> prog S Z) :
  (forall x a size s,
     body x (a + size) s = (n <- body x size ;; ret (a + n)) s) ->
  forall (l : list A) (a size : Z) (s : S),
    for_fold l body (a + size) s =
    (n <- for_fold l body size ;; ret (a + n)) s.
Proof.
  intros Hbody. induction l as [| x l IH]; intros a size s; simpl;
    [reflexivity |].
  unfold bind. rewrite Hbody. unfold bind.
  destruct (body x size s) as [[n | e] s1]; simpl;
    [rewrite IH; reflexivity | reflexivity].
Qed.

Lemma add_element_shift element a size s :
  add_element element (a + size) s =
  (n <- add_element element size ;; ret (a + n)) s.
Proof.
  unfold add_element, bind.
  destruct (ask element element_is_discrete s) as [[[] | e] s1];
    [| | reflexivity].
  - destruct (ask element element_space_n s1) as [[n | e] s2];
      [| reflexivity].
    unfold ret. rewrite Z.add_assoc. reflexivity.
  - destruct (ask element element_total_size s1) as [[n | e] s2];
      [| reflexivity].
    unfold ret. rewrite Z.add_assoc. reflexivity.
Qed.

Lemma add_item_shift item a size s :
  add_item item (a + size) s = (n <- add_item item size ;; ret (a + n)) s.
Proof.
  unfold add_item.
  destruct (isinstance item State || isinstance item Action).
  - unfold bind.
    destruct (ask item elements s) as [[elems | e] s1]; [| reflexivity].
    rewrite (for_fold_shift add_element add_element_shift). reflexivity.
  - destruct item; simpl; unfold bind, ret;
      rewrite <- ?Z.add_assoc; reflexivity.
Qed.

Lemma add_item_plain item size s :
  is_plain item = true ->
  add_item item size s = (Ok (size + plain_size item), s).
Proof.
  unfold is_plain, add_item. intros Hplain.
  apply negb_true_iff in Hplain. rewrite Hplain.
  destruct item; simpl; unfold ret; rewrite ?Z.add_0_r; reflexivity.
Qed.

Lemma for_fold_plain :
  forall (items : list pyval) (size : Z) (s : spaces),
    forallb is_plain items = true ->
    for_fold items add_item size s =
    (Ok (size + fold_right Z.add 0 (map plain_size items)), s).
Proof.
  induction items as [| item items IH]; intros size s Hplain; simpl.
  - unfold ret. rewrite Z.add_0_r. reflexivity.
  - simpl in Hplain. apply andb_prop in Hplain. destruct Hplain as [Hi Hr].
    unfold bind. rewrite (add_item_plain _ _ _ Hi). rewrite (IH _ _ Hr).
    rewrite Z.add_assoc. reflexivity.
Qed.

Lemma _size_as_list items :
  _size items = for_fold (as_list items) add_item 0.
Proof. unfold _size. destruct items; reflexivity. Qed.

(** The size of a list of items that are neither states nor actions: the
    sum of the [size] of the arrays, the [numel()] of the tensors and the
    integers themselves, [True] counting for 1; anything else ([None], a
    string, a nested list) counts for nothing.  No element is asked
    anything. *)
Theorem _size_plain (items : list pyval) (s : spaces) :
  forallb is_plain items = true ->
  _size (PyList items) s =
  (Ok (fold_right Z.add 0 (map plain_size items)), s).
Proof.
  intros Hplain. rewrite _size_as_list. simpl as_list.
  rewrite (for_fold_plain _ 0 s Hplain). reflexivity.
Qed.

(** The size of a list is the sum of the sizes of its parts: [_size] of
    [xs + ys] asks what [_size(xs)] and then [_size(ys)] ask, in this
    order, stops where they stop, and returns the sum of the two. *)
Theorem _size_additive (xs ys : list pyval) (s : spaces) :
  _size (PyList (xs ++ ys)) s =
  (a <- _size (PyList xs) ;; b <- _size (PyList ys) ;; ret (a + b)) s.
Proof.
  rewrite !_size_as_list. simpl as_list. rewrite for_fold_app.
  unfold bind.
  destruct (for_fold xs add_item 0 s) as [[a | e] s1]; [| reflexivity].
  rewrite <- (Z.add_0_r a) at 1.
  rewrite (for_fold_shift add_item add_item_shift). reflexivity.
Qed.

End SizeFacts.

(** ** The train mode *)

Section TrainMode.
Context {lib : ArrayLib} {collaborators : Collaborators}.

Lemma mode_blind_ret {A} (a : A) : mode_blind (ret a).
Proof. intros mode m. reflexivity. Qed.

Lemma mode_blind_raise {A} e : mode_blind (@raise machine A e).
Proof. intros mode m. reflexivity. Qed.

Lemma mode_blind_lift_result {A} (x : result A) :
  mode_blind (@lift_result machine A x).
Proof. intros mode m. reflexivity. Qed.

Lemma mode_blind_invoke {A} (c : call A) : mode_blind (invoke c).
Proof.
  intros mode m. unfold invoke, trained, train, on_self, modify. simpl.
  destruct (respond A c (world m)) as [r w]. reflexivity.
Qed.

Lemma mode_blind_call_method {A} receiver (c : call A) :
  mode_blind (call_method receiver c).
Proof.
  unfold call_method. destruct (is_object receiver);
    [apply mode_blind_invoke | apply mode_blind_raise].
Qed.

Lemma mode_blind_call_object {A} callee (c : call A) :
  mode_blind (call_object callee c).
Proof.
  unfold call_object. destruct (is_object callee);
    [apply mode_blind_invoke | apply mode_blind_raise].
Qed.

Lemma mode_blind_bind {A B} (c : M A) (k : A -> M B) :
  mode_blind c -> (forall a, mode_blind (k a)) -> mode_blind (bind c k).
Proof.
  intros Hc Hk mode m. unfold bind. rewrite Hc.
  destruct (c m) as [[a | e] m1]; simpl; [apply Hk | reflexivity].
Qed.

Lemma mode_blind_gets {A} (f : Policy -> A) :
  (forall p mode, f (with_train_mode p mode) = f p) ->
  mode_blind (on_self (gets f)).
Proof.
  intros Hf mode m. unfold on_self, gets, trained, train, modify. simpl.
  rewrite Hf. reflexivity.
Qed.

Lemma mode_blind_set_action_data v : mode_blind (set_action_data v).
Proof. intros mode m. reflexivity. Qed.

Lemma mode_blind_when (b : bool) (c : M unit) :
  mode_blind c -> mode_blind (when b c).
Proof. destruct b; [auto | intros _; apply mode_blind_ret]. Qed.

Lemma mode_blind_for_each {A} (l : list A) (body : A -> M unit) :
  (forall x, mode_blind (body x)) -> mode_blind (for_each l body).
Proof.
  intros Hb. induction l as [| x l IH]; simpl.
  - apply mode_blind_ret.
  - apply mode_blind_bind; [apply Hb | intros _; exact IH].
Qed.

Lemma mode_blind_for_fold {A B} (l : list A) (body : A -> B -> M B) :
  (forall x b, mode_blind (body x b)) ->
  forall b, mode_blind (for_fold l body b).
Proof.
  intros Hb. induction l as [| x l IH]; intros b; simpl.
  - apply mode_blind_ret.
  - apply mode_blind_bind; [apply Hb | intros b'; apply IH].
Qed.

Lemma mode_blind_setitem_action_data idx v :
  mode_blind (setitem_action_data idx v).
Proof.
  unfold setitem_action_data.
  apply mode_blind_bind; [apply mode_blind_gets; reflexivity |].
  intros data. destruct data; try apply mode_blind_raise.
  destruct (bool_decide (idx < length l)%nat);
    [apply mode_blind_set_action_data | apply mode_blind_raise].
Qed.

Ltac blind_step :=
  first
    [ apply mode_blind_ret
    | apply mode_blind_raise
    | apply mode_blind_lift_result
    | apply mode_blind_call_method
    | apply mode_blind_call_object
    | apply mode_blind_set_action_data
    | apply mode_blind_setitem_action_data
    | apply mode_blind_gets; reflexivity
    | apply mode_blind_when
    | apply mode_blind_bind; [| intros ] ].

Lemma mode_blind_dispatch to_numpy return_logits item :
  mode_blind (dispatch to_numpy return_logits item).
Proof.
  destruct item as [idx [action data]]. unfold dispatch.
  apply mode_blind_bind; [blind_step |]. intros discrete.
  destruct discrete, data, return_logits; simpl; repeat blind_step.
Qed.

Lemma mode_blind__predict state to_numpy return_logits set_output_data :
  mode_blind (_predict state to_numpy return_logits set_output_data).
Proof.
  unfold _predict, model.
  apply mode_blind_bind; [blind_step |]. intros mdl.
  destruct (isinstance mdl Approximator); blind_step.
Qed.

Lemma mode_blind_predict_tick state to_numpy return_logits :
  mode_blind (predict_tick state to_numpy return_logits).
Proof.
  unfold predict_tick, states, actions.
  apply mode_blind_bind;
    [destruct (is_None state); blind_step |]. intros s0.
  apply mode_blind_bind.
  { destruct (isinstance s0 State); [| blind_step].
    apply mode_blind_bind; [blind_step |].
    intros [| x [| x' l]]; blind_step. }
  intros x0.
  apply mode_blind_bind; [blind_step |]. intros pre.
  apply mode_blind_bind;
    [apply mode_blind_for_fold; intros; blind_step |]. intros x1.
  apply mode_blind_bind; [apply mode_blind__predict |]. intros y0.
  apply mode_blind_bind; [blind_step |]. intros _.
  apply mode_blind_bind; [blind_step |]. intros post.
  apply mode_blind_bind.
  { apply mode_blind_for_each. intros p. repeat blind_step. }
  intros _.
  apply mode_blind_bind; [blind_step |]. intros data1.
  apply mode_blind_bind; [repeat blind_step |]. intros _.
  apply mode_blind_bind; [blind_step |]. intros acts.
  apply mode_blind_bind; [blind_step |]. intros leaves.
  apply mode_blind_bind; [blind_step |]. intros data2.
  apply mode_blind_bind;
    [apply mode_blind_for_each; intros; apply mode_blind_dispatch |].
  intros _.
  apply mode_blind_bind; [blind_step |].
  intros [ | | | | [| x [| y l]] | | | | | | ]; blind_step.
Qed.

Lemma mode_blind_act
    state deterministic to_numpy return_logits apply_action :
  mode_blind (act state deterministic to_numpy return_logits apply_action).
Proof.
  unfold act, rate, actions.
  apply mode_blind_bind; [blind_step |]. intros c.
  apply mode_blind_bind; [blind_step |]. intros r.
  apply mode_blind_bind; [blind_step |]. intros tick.
  apply mode_blind_bind;
    [apply mode_blind_when, mode_blind_predict_tick |]. intros _.
  apply mode_blind_bind; [repeat blind_step |]. intros _.
  apply mode_blind_bind; [| intros _; blind_step].
  intros mode m. reflexivity.
Qed.

(** [train(mode)] sets a flag that [act] never reads: in train mode or out
    of it, a call of [act] makes the same calls on the collaborators,
    returns or raises the same, and leaves the same counter and action
    data; the flag itself is as [train] left it. *)
Theorem train_mode_ignored_by_act
    (mode : bool) (state : pyval)
    (deterministic to_numpy return_logits apply_action : bool)
    (m : machine) :
  train mode m = (Ok tt, trained mode m) /\
  train_mode (self (trained mode m)) = mode /\
  act state deterministic to_numpy return_logits apply_action
    (trained mode m) =
  (fst (act state deterministic to_numpy return_logits apply_action m),
   trained mode
     (snd (act state deterministic to_numpy return_logits apply_action m))).
Proof.
  split; [reflexivity |]. split; [reflexivity |]. apply mode_blind_act.
Qed.

End TrainMode.

(** * The properties on the concrete world *)

Import Demo.

(** The policy of the concrete world on its first tick: one prediction,
    three processor calls.  Given a list of two arrays as state, it returns
    a list of two: the loop over its one action has replaced the first
    logits and left the second item of the postprocessor's result. *)
Lemma act_prediction_pipeline_witness :
  let two := PyList [array [1; 2]; array [3; 4]] in
  py_mod (cnt policy) (_rate policy) = Ok 0 /\
  fst (act PyNone true true false true (start policy)) = Ok (array [0]) /\
  count is_predict
    (trace (snd (act PyNone true true false true (start policy)))) = 1%nat /\
  count is_processor_call
    (trace (snd (act PyNone true true false true (start policy)))) = 3%nat /\
  fst (act two true true false true (start policy))
  = Ok (PyList [array [1]; array [3; 4]]) /\
  exists (y0 y1 : pyval) (evs_post evs_loop : list event)
         (leaves vs : list pyval),
    chained [add_one] y0 evs_post y1 /\
    looped true false (zip leaves (as_list y1)) evs_loop vs (Ok tt) /\
    PyList [array [1]; array [3; 4]]
    = unwrapped (vs ++ drop (length vs) (as_list y1)).
Proof.
  intros two.
  split; [reflexivity |]. split; [reflexivity |].
  assert (Hrun : fst (act PyNone true true false true (start policy))
                 = Ok (array [0])) by reflexivity.
  destruct (proj2 (act_prediction_pipeline PyNone true true false true
                     (start policy) _ (Ok (array [0])) eq_refl
                     (run_eq _ _ _ Hrun)) (array [0]) eq_refl)
    as (x0 & x1 & y0 & y1 & evs_state & evs_pre & evs_post & evs_rest
        & _ & _ & _ & Ht & _ & Hpredict & Hprocessors & _).
  rewrite Ht. split; [exact Hpredict |]. split; [exact Hprocessors |].
  assert (Hrun2 : fst (act two true true false true (start policy))
                  = Ok (PyList [array [1]; array [3; 4]])) by reflexivity.
  split; [exact Hrun2 |].
  destruct (proj2 (act_prediction_pipeline two true true false true
                     (start policy) _ _ eq_refl (run_eq _ _ _ Hrun2))
              _ eq_refl)
    as (x0' & x1' & y0' & y1' & evs_state' & evs_pre' & evs_post'
        & evs_rest' & _ & _ & Hpost & _ & _ & _ & _ & _
        & leaves & vs & evs_loop & evs_act & _ & Hloop & _ & Hv).
  exists y0', y1', evs_post', evs_loop, leaves, vs.
  split; [exact Hpost |]. split; [exact Hloop | exact Hv].
Defined.


(** The policy of rate 2 on tick 1: the counter goes to 2 and the stored
    data is returned unchanged. *)
Lemma act_rate_gating_witness :
  py_mod (cnt (self off_tick)) (_rate (self off_tick)) = Ok 1 /\
  fst (act PyNone true true false true off_tick) = Ok (array [0]) /\
  cnt (self (snd (act PyNone true true false true off_tick))) = 2 /\
  action_data (self (snd (act PyNone true true false true off_tick)))
  = array [0].
Proof.
  split; [reflexivity |]. split; [reflexivity |].
  assert (Hrun : fst (act PyNone true true false true off_tick)
                 = Ok (array [0])) by reflexivity.
  destruct (act_rate_gating PyNone true true false true off_tick _
              (Ok (array [0])) (run_eq _ _ _ Hrun))
    as (Hcnt & Hoff & _).
  split; [exact Hcnt |].
  destruct (Hoff 1 eq_refl ltac:(discriminate)) as (Hdata & _).
  exact Hdata.
Defined.

(** On [int_policy] the call of [act] raises [TypeError] out of the loop
    over the actions: the counter is not increased. *)
Lemma act_raising_leaves_cnt :
  fst (act PyNone true true false true int_policy) = Raise TypeError /\
  cnt (self (snd (act PyNone true true false true int_policy)))
  <> cnt (self int_policy) + 1.
Proof. vm_compute. split; [reflexivity | intros H; discriminate H]. Qed.

(** The actions are called once on a prediction tick, and once on a tick
    that is no multiple of the rate. *)
Lemma act_calls_actions_witness :
  fst (act PyNone true true false true (start policy)) = Ok (array [0]) /\
  count is_actions_call
    (trace (snd (act PyNone true true false true (start policy)))) = 1%nat /\
  count is_actions_call
    (trace (snd (act PyNone true true false true off_tick))) = 1%nat.
Proof.
  split; [reflexivity |].
  assert (Hrun : fst (act PyNone true true false true (start policy))
                 = Ok (array [0])) by reflexivity.
  assert (Hrun' : fst (act PyNone true true false true off_tick)
                  = Ok (array [0])) by reflexivity.
  split.
  - destruct (act_calls_actions PyNone true true false true (start policy)
                _ (Ok (array [0])) (run_eq _ _ _ Hrun))
      as (evs & Ht & _ & Hone & _).
    rewrite Ht. exact (proj1 (Hone eq_refl eq_refl)).
  - destruct (act_calls_actions PyNone true true false true off_tick
                _ (Ok (array [0])) (run_eq _ _ _ Hrun'))
      as (evs & Ht & _ & Hone & _).
    rewrite Ht. exact (proj1 (Hone eq_refl eq_refl)).
Defined.

(** On [int_policy] the call [act(apply_action=True)] raises before it
    reaches [self.actions()]: the actions object is not called. *)
Lemma act_raising_calls_no_actions :
  fst (act PyNone true true false true int_policy) = Raise TypeError /\
  count is_actions_call
    (trace (snd (act PyNone true true false true int_policy))) <> 1%nat.
Proof. vm_compute. split; [reflexivity | intros H; discriminate H]. Qed.

(** A learning model is wrapped by the setter and by the constructor. *)
Lemma model_binding_witness :
  isinstance echo_model Model = true /\
  isinstance echo_model Approximator = false /\
  set_model echo_model (with_model policy PyNone) = (Ok tt, policy) /\
  new_Policy the_state the_actions echo_model (PyInt 2)
    (Processors [add_one; double]) (OneProcessor add_one) = Ok policy.
Proof.
  split; [reflexivity |]. split; [reflexivity |].
  destruct (model_binding (with_model policy PyNone) echo_model)
    as (Hwrap & _ & _).
  split; [exact (proj1 (Hwrap eq_refl eq_refl)) | reflexivity].
Defined.

(** An integer is no state, [None] is no action, a string is no rate; a
    boolean is a rate. *)
Lemma setters_validate_witness :
  set_states (PyInt 3) policy = (Raise TypeError, policy) /\
  set_actions PyNone policy = (Raise TypeError, policy) /\
  set_rate (PyStr "fast") policy = (Raise TypeError, policy) /\
  set_rate (PyBool true) policy = (Ok tt, with_rate policy (PyBool true)).
Proof.
  split; [| split; [| split]].
  - exact (proj1 (setters_validate policy (PyInt 3)) eq_refl eq_refl).
  - exact (proj1 (proj2 (setters_validate policy PyNone)) eq_refl).
  - exact (proj1 (proj2 (proj2 (setters_validate policy (PyStr "fast"))))
             eq_refl).
  - exact (proj1
             (proj2 (proj2 (proj2 (proj2 (proj2
                (setters_validate policy (PyBool true)))))) eq_refl)).
Defined.

(** The model of the concrete world answers [False]: [TypeError]. *)
Lemma is_recurrent_raises_witness :
  is_recurrent (start policy) =
  (Raise TypeError,
   answered (start policy) (model_method (_model policy) "is_recurrent")
     (Ok (PyBool false)) 1%nat).
Proof.
  exact (proj2 (is_recurrent_raises (start policy)) false 1%nat
           eq_refl eq_refl).
Defined.

(** The policy without a model. *)
Lemma model_None_methods_witness :
  _model (self no_model) = PyNone /\
  parameters no_model = (Ok (PyList []), no_model) /\
  list_hyperparameters no_model = (Ok PyNone, no_model) /\
  fst (reset false no_model) = Raise AttributeError /\
  reset true no_model = reset false no_model.
Proof.
  split; [reflexivity |].
  destruct (model_None_methods no_model eq_refl)
    as (Hparameters & _ & _ & _ & _ & Hlist & Hreset).
  split; [exact Hparameters |]. split; [exact Hlist |].
  split; [reflexivity |]. exact (proj1 (Hreset true)).
Defined.

(** C2, on the code.  Calling the policy object raises [NameError] where
    [act], given the same arguments, returns the action data. *)
Lemma __call___differs_from_act :
  __call__ PyNone true true false true (start policy)
  = (Raise NameError, start policy) /\
  fst (act PyNone true true false true (start policy)) = Ok (array [0]).
Proof. split; reflexivity. Qed.

(** The model and the rate after a call that returns, and after one that
    raises. *)
Lemma act_frame_witness :
  _model (self (snd (act PyNone true true false true (start policy))))
  = _model policy /\
  _rate (self (snd (act PyNone true true false true int_policy)))
  = PyInt 2.
Proof.
  split.
  - exact (proj1 (proj2 (proj2
             (act_frame PyNone true true false true (start policy) _ _
                (run_eq _ _ _ eq_refl))))).
  - exact (proj1 (proj2 (proj2 (proj2
             (act_frame PyNone true true false true int_policy _ _
                (run_eq _ _ _ eq_refl)))))).
Defined.

(** The policy of rate 0. *)
Lemma act_zero_rate_witness :
  act PyNone true true false true zero_rate
  = (Raise ZeroDivisionError, zero_rate).
Proof.
  exact (act_zero_rate PyNone true true false true zero_rate eq_refl).
Defined.

(** Two calls in a row of the policy of rate 2: the same data twice, one
    prediction. *)
Lemma act_n_one_prediction_witness :
  fst (act_n 2 PyNone true true false true (start policy))
  = Ok [array [0]; array [0]] /\
  count is_predict
    (trace (snd (act_n 2 PyNone true true false true (start policy))))
  = 1%nat.
Proof.
  assert (Hrun : fst (act_n 2 PyNone true true false true (start policy))
                 = Ok [array [0]; array [0]]) by (vm_compute; reflexivity).
  split; [exact Hrun |].
  destruct (act_n_one_prediction PyNone true true false true 2 1
              (start policy) _ (array [0]) [array [0]]
              eq_refl eq_refl eq_refl ltac:(simpl; lia)
              (run_eq _ _ _ Hrun))
    as (_ & _ & evs & Ht & Hone).
  rewrite Ht. exact Hone.
Defined.

(** Two actions and two arrays: when the loop reaches the second pair, its
    data is still in the list, the first item having been replaced. *)
Lemma dispatch_loop_invariant_witness :
  let m := stored (start policy) (PyList [array [9; 5; 7]; array [1; 2]]) in
  let first := (0%nat, (discrete_action, array [9; 5; 7])) in
  exists l1,
    action_data (self (snd (for_each [first] (dispatch true false) m)))
    = PyList l1 /\
    length l1 = 2%nat /\ l1 !! 1%nat = Some (array [1; 2]).
Proof.
  exact (dispatch_loop_invariant true false
           [discrete_action; continuous_action]
           [array [9; 5; 7]; array [1; 2]]
           [(0%nat, (discrete_action, array [9; 5; 7]))] []
           1 continuous_action (array [1; 2])
           (stored (start policy) (PyList [array [9; 5; 7]; array [1; 2]]))
           _ eq_refl eq_refl (run_eq _ _ _ eq_refl)).
Defined.

(** A policy built with a rate of -3 predicts at its first call. *)
Lemma first_act_predicts_witness :
  count is_predict
    (trace (snd (act PyNone true true false true
                   (start (with_rate policy (PyInt (-3)))))))
  = 1%nat.
Proof.
  assert (Hrun : fst (act PyNone true true false true
                        (start (with_rate policy (PyInt (-3)))))
                 = Ok (array [0])) by (vm_compute; reflexivity).
  exact (proj1
           (first_act_predicts the_state the_actions echo_model (PyInt (-3))
              (Processors [add_one; double]) (OneProcessor add_one)
              (with_rate policy (PyInt (-3))) 0%nat
              PyNone true true false true (array [0]) _
              eq_refl ltac:(discriminate) (run_eq _ _ _ Hrun))).
Defined.

(** On tick 1 of the policy of rate 2, another state and other flags
    change nothing. *)
Lemma act_off_tick_ignores_arguments_witness :
  act PyNone true true false true off_tick
  = act (array [4; 4]) false false true true off_tick.
Proof.
  exact (act_off_tick_ignores_arguments PyNone (array [4; 4])
           true false true false false true true off_tick 1
           eq_refl ltac:(discriminate)).
Defined.

(** Resetting the policy of the concrete world: its two preprocessors, its
    postprocessor, then its model. *)
Lemma reset_in_order_witness :
  self (snd (reset true (start policy))) = policy /\
  exists v,
    trace (snd (reset true (start policy))) =
    [Event (processor_reset add_one) (Ok tt);
     Event (processor_reset double) (Ok tt);
     Event (processor_reset add_one) (Ok tt);
     Event (model_method (_model policy) "reset") (Ok v)].
Proof.
  assert (Hrun : fst (reset true (start policy)) = Ok tt) by reflexivity.
  destruct (reset_in_order true (start policy) _ _ (run_eq _ _ _ Hrun))
    as (Hself & _ & evs & Ht & Hevs).
  split; [exact Hself |].
  destruct (Hevs eq_refl) as (v & ->). exists v. exact Ht.
Defined.

(** The policy without a model raises on its first tick and stays on it. *)
Lemma act_without_model_witness :
  (exists e, fst (act PyNone true true false true no_model) = Raise e) /\
  self (snd (act PyNone true true false true no_model)) = self no_model.
Proof.
  destruct (act_without_model PyNone true true false true no_model _ _
              eq_refl eq_refl (run_eq _ _ _ eq_refl))
    as (Hraise & Hself & _).
  split; [exact Hraise | exact Hself].
Defined.

(** The logits of the concrete world, asked for as they are. *)
Lemma act_returns_prediction_witness :
  fst (act PyNone true false true true (start policy))
  = Ok (array [9; 5; 7]) /\
  exists y1 : pyval,
    array [9; 5; 7] = match y1 with PyList [x] => x | _ => y1 end.
Proof.
  assert (Hrun : fst (act PyNone true false true true (start policy))
                 = Ok (array [9; 5; 7])) by reflexivity.
  split; [exact Hrun |].
  destruct (act_returns_prediction PyNone true true (start policy) _
              (array [9; 5; 7]) eq_refl (run_eq _ _ _ Hrun))
    as (x0 & x1 & y0 & y1 & evs_state & evs_pre & evs_post & evs_rest
        & _ & _ & _ & _ & _ & Hv).
  exists y1. exact Hv.
Defined.

(** The approximator of the concrete world predicts a tensor that requires
    a gradient: [to_numpy] gives the array of its items. *)
Lemma act_returns_arrays_witness :
  let m := start (with_model policy tensor_approximator) in
  fst (act PyNone true true true true m) = Ok (array [8; 4; 6]) /\
  exists l' : list pyval,
    array [8; 4; 6] = unwrapped l' /\
    exists leaves evs_before evs_after,
      trace (snd (act PyNone true true true true m)) =
      evs_before ++
      Event (actions_iter the_actions) (Ok leaves) :: evs_after /\
      forall j, (j < length leaves)%nat -> (j < length l')%nat ->
                exists a, l' !! j = Some a /\ is_array a = true.
Proof.
  intros m.
  assert (Hrun : fst (act PyNone true true true true m)
                 = Ok (array [8; 4; 6])) by reflexivity.
  split; [exact Hrun |].
  destruct (act_returns_arrays PyNone true true true m _ (array [8; 4; 6])
              eq_refl (run_eq _ _ _ Hrun))
    as (leaves & l' & evs_before & evs_after & Ht & _ & Hv & Harr).
  exists l'. split; [exact Hv |].
  exists leaves, evs_before, evs_after. split; [exact Ht | exact Harr].
Defined.

(** Three calls in a row of the policy of rate 2, from tick 0: two
    predictions, on the ticks 0 and 2. *)
Lemma act_n_predictions_witness :
  fst (act_n 3 PyNone true true false true (start policy))
  = Ok [array [0]; array [0]; array [0]] /\
  cnt (self (snd (act_n 3 PyNone true true false true (start policy)))) = 3 /\
  Z.of_nat
    (count is_predict
       (trace (snd (act_n 3 PyNone true true false true (start policy)))))
  = 2.
Proof.
  assert (Hrun : fst (act_n 3 PyNone true true false true (start policy))
                 = Ok [array [0]; array [0]; array [0]])
    by (vm_compute; reflexivity).
  split; [exact Hrun |].
  destruct (act_n_predictions PyNone true true false true 2 3
              (start policy) _ _ eq_refl (run_eq _ _ _ Hrun))
    as (_ & Hcnt & evs & Ht & _ & Hceil).
  split; [exact Hcnt |].
  rewrite Ht. exact (Hceil ltac:(lia) eq_refl).
Defined.

Import SizeDemo.

(** An array of three items, the integer 4, [True], [None] and a nested
    list: 3 + 4 + 1. *)
Lemma _size_plain_witness :
  _size
    (PyList [array [1; 2; 3]; PyInt 4; PyBool true; PyNone;
             PyList [PyInt 9]]) 0%nat
  = (Ok 8, 0%nat).
Proof.
  exact (_size_plain
           [array [1; 2; 3]; PyInt 4; PyBool true; PyNone; PyList [PyInt 9]]
           0%nat eq_refl).
Defined.

(** A state of a discrete element with 4 values and a continuous one of
    total size 3, then an array of two items: 4 + 3 + 2, after five
    questions to the state and its elements. *)
Lemma _size_additive_witness :
  _size (PyList ([joint_state] ++ [array [1; 2]])) 0%nat = (Ok 9, 5%nat).
Proof.
  exact (eq_trans (_size_additive [joint_state] [array [1; 2]] 0%nat)
           eq_refl).
Defined.
